(** * classifier.c: the kNN coordinator, as a shallow embedding

    [main] of [src/classifier.c] parses its command line, loads two
    datasets, splits the test set into [num_procs] contiguous partitions,
    forks one worker per partition, collects one integer per worker over a
    pipe, reaps the workers and prints the total.

    The embedding follows the C text: [int] values are [Z] with the 32-bit
    wrap-around written out, [double] values are IEEE 754 binary64 numbers
    ([spec_float] with precision 53), C strings are [string]s read up to the
    first NUL, and every system call takes its result from a [world] that
    plays the operating system.  [main] returns the trace of what the
    coordinator did together with the way it ended.  What the workers take
    with them at [fork], the text in the buffer of standard output and the
    open pipe ends, is read off that trace. *)

From Stdlib Require Import ZArith List String Ascii Bool Lia DecimalString.
From Stdlib Require Import Floats.SpecFloat.
Import ListNotations.

Open Scope Z_scope.

(** ** C integers *)

Module CInt.

Definition INT_MAX : Z := 2147483647.
Definition INT_MIN : Z := -2147483648.
Definition LONG_MAX : Z := 9223372036854775807.
Definition LONG_MIN : Z := -9223372036854775808.

Definition in_int (z : Z) : bool := (INT_MIN <=? z) && (z <=? INT_MAX).

(** Conversion to [int] keeps the low 32 bits, read in two's complement. *)
Definition wrap (z : Z) : Z := (z + 2147483648) mod 4294967296 - 2147483648.

(** [a + b] and [a * b] on [int]s.  An overflow, which C leaves undefined,
    wraps around as the machine does. *)
Definition add (a b : Z) : Z := wrap (a + b).
Definition mul (a b : Z) : Z := wrap (a * b).

(** [a % b]: the remainder has the sign of the dividend; a zero divisor, and
    [INT_MIN % -1], are undefined. *)
Definition rem (a b : Z) : option Z :=
  if b =? 0 then None
  else if (a =? INT_MIN) && (b =? -1) then None
  else Some (Z.rem a b).

End CInt.

(** ** C strings *)

Module CString.

Definition NUL : ascii := Ascii.zero.

Definition code (c : ascii) : Z := Z.of_N (N_of_ascii c).

(** The character at the head of a C string; past the end sits the
    terminator. *)
Definition head (s : string) : ascii :=
  match s with
  | EmptyString => NUL
  | String c _ => c
  end.

Definition tail (s : string) : string :=
  match s with
  | EmptyString => EmptyString
  | String _ s' => s'
  end.

Fixpoint strlen (s : string) : nat :=
  match s with
  | EmptyString => O
  | String c s' => if Ascii.eqb c NUL then O else S (strlen s')
  end.

(** [strncmp s1 s2 n]: compare at most [n] characters as unsigned chars and
    stop after a terminator. *)
Fixpoint strncmp (s1 s2 : string) (n : nat) : Z :=
  match n with
  | O => 0
  | S n' =>
      let c1 := head s1 in
      let c2 := head s2 in
      if negb (Ascii.eqb c1 c2) then code c1 - code c2
      else if Ascii.eqb c1 NUL then 0
      else strncmp (tail s1) (tail s2) n'
  end.

(** A string as an [argv] entry holds it: no NUL before the end. *)
Fixpoint nul_free (s : string) : bool :=
  match s with
  | EmptyString => true
  | String c s' => negb (Ascii.eqb c NUL) && nul_free s'
  end.

Definition isspace (c : ascii) : bool :=
  let n := code c in (n =? 32) || ((9 <=? n) && (n <=? 13)).

Definition isdigit (c : ascii) : bool :=
  let n := code c in (48 <=? n) && (n <=? 57).

Fixpoint skip_space (s : string) : string :=
  match s with
  | String c s' => if isspace c then skip_space s' else s
  | EmptyString => s
  end.

Fixpoint digits_value (s : string) (acc : Z) : Z :=
  match s with
  | String c s' => if isdigit c then digits_value s' (10 * acc + (code c - 48)) else acc
  | EmptyString => acc
  end.

(** [strtol(s, NULL, 10)]: blanks, an optional sign, then digits; the value
    saturates at the bounds of [long]. *)
Definition strtol (s : string) : Z :=
  let s1 := skip_space s in
  let v :=
    match s1 with
    | String "-"%char s2 => - digits_value s2 0
    | String "+"%char s2 => digits_value s2 0
    | _ => digits_value s1 0
    end in
  Z.max CInt.LONG_MIN (Z.min CInt.LONG_MAX v).

(** [atoi(s)] is [(int) strtol(s, NULL, 10)]. *)
Definition atoi (s : string) : Z := CInt.wrap (strtol s).

End CString.

Import CString.

(** ** Metric selection (lines 95-103) *)

Inductive metric : Type :=
  | distance_euclidean
  | distance_cosine.

Definition select_metric (dist_metric : string) : option metric :=
  if strncmp dist_metric "euclidean" (strlen dist_metric) =? 0 then
    Some distance_euclidean
  else if strncmp dist_metric "cosine" (strlen dist_metric) =? 0 then
    Some distance_cosine
  else None.

(** ** The [double] arithmetic of the partition sizes

    [(double)a / b] is the binary64 quotient of the two converted integers,
    rounded to nearest even.  [floor] and [ceil] return a [double] holding an
    integer; it is given here as that integer, and is absent for an infinity
    or a NaN.  Converting it to [int] is defined only inside the [int]
    range. *)

Module CDouble.

Definition prec : Z := 53.
Definition emax : Z := 1024.

Definition of_int (n : Z) : spec_float := binary_normalize prec emax n 0 false.

Definition div (x y : spec_float) : spec_float := SFdiv prec emax x y.

Definition floor (x : spec_float) : option Z :=
  match x with
  | S754_zero _ => Some 0
  | S754_finite s m e => Some (Z.shiftl (cond_Zopp s (Zpos m)) e)
  | S754_infinity _ | S754_nan => None
  end.

Definition ceil (x : spec_float) : option Z :=
  option_map Z.opp (floor (SFopp x)).

Definition to_int (v : option Z) : option Z :=
  match v with
  | Some z => if CInt.in_int z then Some z else None
  | None => None
  end.

End CDouble.

(** Lines 139-143: the size of partition [i]. *)
Definition partition_len (num_items num_procs boundary i : Z) : option Z :=
  let q := CDouble.div (CDouble.of_int num_items) (CDouble.of_int num_procs) in
  if i <? boundary then CDouble.to_int (CDouble.ceil q)
  else CDouble.to_int (CDouble.floor q).

(** ** Command line (lines 48-82)

    [getopt] is the POSIX one: options are scanned from [argv[1]] on and the
    scan stops at the first argument that is not an option, or after [--].
    (The GNU one moves such arguments behind the options instead; on a
    command line with the options first, as the usage asks, both agree.)
    [getopt_all] lists what the successive calls return until [-1], and the
    value of [optind] then.

    [main] leaves [opterr] at 1 and its option string does not start with a
    colon: before [getopt] returns ['?'] it writes a diagnostic of its own
    on the error stream.  [OptBad opt missing] is that return, for the
    option character [opt]; [missing] tells an option without its argument
    from a character that is no option. *)

Inductive getopt_ret : Type :=
  | OptFlag (opt : ascii)
  | OptArg (opt : ascii) (optarg : string)
  | OptBad (opt : ascii) (missing : bool).

Definition optstring : string := "vK:d:p:".

(** [Some true]: the option takes an argument; [None]: not an option. *)
Fixpoint opt_kind (spec : string) (c : ascii) : option bool :=
  match spec with
  | EmptyString => None
  | String o rest =>
      if Ascii.eqb o c then Some (Ascii.eqb (head rest) ":")
      else opt_kind rest c
  end.

Definition lookup_opt (c : ascii) : option bool :=
  if Ascii.eqb c ":" then None else opt_kind optstring c.

(** The option characters of one argument, after its dash.  The second
    component names the option that still waits for its argument. *)
Fixpoint scan_cluster (cl : string) : list getopt_ret * option ascii :=
  match cl with
  | EmptyString => ([], None)
  | String c rest =>
      match lookup_opt c with
      | None => let (rs, p) := scan_cluster rest in (OptBad c false :: rs, p)
      | Some false => let (rs, p) := scan_cluster rest in (OptFlag c :: rs, p)
      | Some true =>
          match rest with
          | EmptyString => ([], Some c)
          | _ => ([OptArg c rest], None)
          end
      end
  end.

Fixpoint getopt_all (args : list string) (optind : nat) (pending : option ascii)
  : list getopt_ret * nat :=
  match args with
  | [] =>
      match pending with
      | Some c => ([OptBad c true], optind)
      | None => ([], optind)
      end
  | a :: rest =>
      match pending with
      | Some c =>
          let (rs, k) := getopt_all rest (S optind) None in (OptArg c a :: rs, k)
      | None =>
          match a with
          | String c (String _ _ as body) =>
              if negb (Ascii.eqb c "-") then ([], optind)
              else if String.eqb body "-" then ([], S optind)
              else
                let (rs1, p) := scan_cluster body in
                let (rs2, k) := getopt_all rest (S optind) p in
                (rs1 ++ rs2, k)
          | _ => ([], optind)
          end
      end
  end.

Record config : Type := {
  K : Z;
  dist_metric : string;
  num_procs : Z;
  verbose : Z
}.

Definition default_config : config :=
  {| K := 1; dist_metric := "euclidean"; num_procs := 1; verbose := 0 |}.

Definition set_K (cfg : config) (v : Z) : config :=
  {| K := v; dist_metric := dist_metric cfg;
     num_procs := num_procs cfg; verbose := verbose cfg |}.

Definition set_dist_metric (cfg : config) (s : string) : config :=
  {| K := K cfg; dist_metric := s;
     num_procs := num_procs cfg; verbose := verbose cfg |}.

Definition set_num_procs (cfg : config) (v : Z) : config :=
  {| K := K cfg; dist_metric := dist_metric cfg;
     num_procs := v; verbose := verbose cfg |}.

Definition set_verbose (cfg : config) (v : Z) : config :=
  {| K := K cfg; dist_metric := dist_metric cfg;
     num_procs := num_procs cfg; verbose := v |}.

(** The values the [switch] of [main] has a case for. *)
Definition handled (r : getopt_ret) : Prop :=
  r = OptFlag "v" \/
  exists optarg, r = OptArg "K" optarg \/ r = OptArg "d" optarg \/ r = OptArg "p" optarg.

(** ** The operating system *)

Inductive stream : Type := stdout | stderr.

Inductive channel : Type := c_to_p | p_to_c.

Inductive pipe_end : Type := read_end | write_end.

(** The calls of the coordinator that can fail, per worker. *)
Inductive call : Type :=
  | CallPipe (ch : channel)
  | CallWriteStart
  | CallWriteN
  | CallClose (ch : channel) (e : pipe_end)
  | CallFork.

(** [read(fd, &count, sizeof(int))]: the value returned and what [count]
    holds afterwards. *)
Record read_ret : Type := { num_read : Z; count : Z }.

(** [wait(&status)]: the value returned and the status stored. *)
Record wait_ret : Type := { wait_pid : Z; status : Z }.

(** The part of [knn.h]'s [Dataset] that [main] reads. *)
Record Dataset : Type := { num_items : Z }.

(** [load_dataset] lives in [knn.c]; a null path is [None], and so is a
    dataset that could not be loaded.  [sys_ok i c] tells whether call [c]
    made for worker [i] succeeds, [sys_read i j] is the [j]-th read on the
    result pipe of worker [i], [sys_wait i] the [i]-th [wait]. *)
Record world : Type := {
  load_dataset : option string -> option Dataset;
  sys_ok : nat -> call -> bool;
  sys_read : nat -> nat -> read_ret;
  sys_wait : nat -> wait_ret
}.

(** A pipe as a worker finds it: the integers written and not yet read, and
    whether some process still holds the write end. *)
Record pipe_state : Type := { buffered : list Z; write_open : bool }.

Definition new_pipe : pipe_state := {| buffered := []; write_open := true |}.

Definition pipe_write (p : pipe_state) (v : Z) : pipe_state :=
  {| buffered := buffered p ++ [v]; write_open := write_open p |}.

Definition pipe_close_write (p : pipe_state) : pipe_state :=
  {| buffered := buffered p; write_open := false |}.

Inductive read_result : Type :=
  | ReadInt (v : Z)
  | ReadEOF
  | ReadBlocks.

Definition pipe_read (p : pipe_state) : read_result * pipe_state :=
  match buffered p with
  | v :: rest => (ReadInt v, {| buffered := rest; write_open := write_open p |})
  | [] => (if write_open p then ReadBlocks else ReadEOF, p)
  end.

(** The macros of [sys/wait.h]. *)
Definition WIFEXITED (status : Z) : bool := Z.land status 127 =? 0.
Definition WEXITSTATUS (status : Z) : Z := Z.shiftr (Z.land status 65280) 8.

(** ** Traces *)

Inductive event : Type :=
  | EvPrint (f : stream) (text : string)
  | EvPerror (what : string)
  | EvLoad (path : option string)
  | EvPipe (i : nat) (ch : channel)
  | EvWrite (i : nat) (v : Z)
  | EvClose (i : nat) (ch : channel) (e : pipe_end)
  | EvFork (i : nat) (K : Z) (m : metric) (inbox : pipe_state)
  | EvRead (i : nat) (r : read_ret)
  | EvWait (r : wait_ret).

(** How a run ends: [exit(status)] or [return status]; undefined behaviour;
    or still inside the read loop when the fuel is spent. *)
Inductive outcome : Type :=
  | Exit (status : Z)
  | Undefined
  | Spinning.

Definition M (A : Type) : Type := list event * (A + outcome).

Definition ret {A : Type} (a : A) : M A := ([], inl a).

Definition bind {A B : Type} (m : M A) (k : A -> M B) : M B :=
  match m with
  | (t, inl a) => let (t', r) := k a in (t ++ t', r)
  | (t, inr o) => (t, inr o)
  end.

Definition emit (e : event) : M unit := ([e], inl tt).

Definition stop {A : Type} (o : outcome) : M A := ([], inr o).

Declare Scope run_scope.
Delimit Scope run_scope with run.
Notation "x <- m ;; k" := (bind m (fun x => k))
  (at level 61, m at next level, right associativity) : run_scope.
Notation "m ;; k" := (bind m (fun _ => k))
  (at level 61, right associativity) : run_scope.
Open Scope run_scope.

Definition exit {A : Type} (status : Z) : M A := stop (Exit status).

Definition perror_exit {A : Type} (what : string) : M A :=
  emit (EvPerror what) ;; exit 1.

(** A call that ends the run with [perror] when it fails. *)
Definition checked (w : world) (i : nat) (c : call) (e : event) (what : string)
  : M unit :=
  emit e ;;
  if sys_ok w i c then ret tt else perror_exit what.

Definition lift {A : Type} (v : option A) : M A :=
  match v with
  | Some a => ret a
  | None => stop Undefined
  end.

Definition decimal (z : Z) : string := NilZero.string_of_int (Z.to_int z).

Definition newline : string := String (ascii_of_nat 10) EmptyString.

Definition quoted (s : string) : string :=
  let q := String (ascii_of_nat 34) EmptyString in q ++ s ++ q.

Definition show_path (path : option string) : string :=
  match path with
  | Some p => p
  | None => "(null)"
  end.

(** ** [main] *)

Definition print (f : stream) (text : string) : M unit := emit (EvPrint f text).

Definition when_verbose (cfg : config) (m : M unit) : M unit :=
  if verbose cfg =? 0 then ret tt else m.

Definition usage_message (name : string) : string :=
  "Usage: " ++ name
    ++ " -v -K <num> -d <distance metric> -p <num_procs> training_list testing_list"
    ++ newline.

Definition usage (name : string) : M unit := print stderr (usage_message name).

(** What [getopt] writes on the error stream before it returns ['?'].  The
    wording is the C library's (POSIX leaves it open); this is glibc's. *)
Definition getopt_message (name : string) (opt : ascii) (missing : bool) : string :=
  name
    ++ (if missing then ": option requires an argument -- '" else ": invalid option -- '")
    ++ String opt "'" ++ newline.

(** The [while]/[switch] of lines 55-73 over the values [getopt] returns.
    At ['?'] the diagnostic of [getopt] is on the error stream already; the
    [default:] case adds the usage and exits. *)
Fixpoint option_loop (name : string) (rets : list getopt_ret) (cfg : config)
  : M config :=
  match rets with
  | [] => ret cfg
  | OptFlag opt :: rest =>
      if Ascii.eqb opt "v" then option_loop name rest (set_verbose cfg 1)
      else usage name ;; exit 1
  | OptArg opt optarg :: rest =>
      if Ascii.eqb opt "K" then option_loop name rest (set_K cfg (atoi optarg))
      else if Ascii.eqb opt "d" then option_loop name rest (set_dist_metric cfg optarg)
      else if Ascii.eqb opt "p" then
        option_loop name rest (set_num_procs cfg (atoi optarg))
      else usage name ;; exit 1
  | OptBad opt missing :: _ =>
      print stderr (getopt_message name opt missing) ;;
      usage name ;; exit 1
  end.

(** Lines 48-73: the options are read; what is left is the configuration
    and [optind]. *)
Definition read_options (argv : list string) : M (config * nat) :=
  let (rets, optind) := getopt_all (List.tl argv) 1 None in
  cfg <- option_loop (nth O argv EmptyString) rets default_config ;;
  ret (cfg, optind).

(** The configuration and [optind] with which [read_options] goes on, or
    nothing when it ended the run. *)
Definition parse_options (argv : list string) : option (config * nat) :=
  match snd (read_options argv) with
  | inl r => Some r
  | inr _ => None
  end.

(** [write(p_to_c[1], &v, sizeof(int))]: four bytes go into the pipe at once
    or the call fails. *)
Definition write_int (w : world) (i : nat) (c : call) (p : pipe_state) (v : Z)
  : M pipe_state :=
  checked w i c (EvWrite i v) "write" ;;
  ret (pipe_write p v).

(** Lines 145-216: the pipes, the partition message and the [fork] for
    worker [i].  The branch [k == 0] runs in the worker: it starts from the
    values recorded in [EvFork], which are the arguments of its call to
    [child_handler] and the state of the pipe behind [p_to_c[0]]. *)
Definition spawn_worker (w : world) (cfg : config) (m : metric)
    (i : nat) (start_idx N : Z) : M unit :=
  checked w i (CallPipe c_to_p) (EvPipe i c_to_p) "pipe" ;;
  checked w i (CallPipe p_to_c) (EvPipe i p_to_c) "pipe" ;;
  p1 <- write_int w i CallWriteStart new_pipe start_idx ;;
  p2 <- write_int w i CallWriteN p1 N ;;
  checked w i (CallClose p_to_c write_end) (EvClose i p_to_c write_end) "close" ;;
  let p3 := pipe_close_write p2 in
  checked w i CallFork (EvFork i (K cfg) m p3) "fork" ;;
  checked w i (CallClose p_to_c read_end) (EvClose i p_to_c read_end) "close" ;;
  checked w i (CallClose c_to_p write_end) (EvClose i c_to_p write_end) "close".

(** Lines 174-200, the branch [k == 0], which the worker runs on its own
    system calls [w].  [child_handler] is in [knn.c]: [handler] stands for
    it and is given [K], the metric and the pipe behind [p_to_c[0]]. *)
Definition worker_branch (w : world) (handler : Z -> metric -> pipe_state -> M unit)
    (cfg : config) (m : metric) (i : nat) (inbox : pipe_state) : M Z :=
  checked w i (CallClose c_to_p read_end) (EvClose i c_to_p read_end) "close" ;;
  handler (K cfg) m inbox ;;
  checked w i (CallClose p_to_c read_end) (EvClose i p_to_c read_end) "close" ;;
  checked w i (CallClose c_to_p write_end) (EvClose i c_to_p write_end) "close" ;;
  exit 0.

(** Lines 137-220: [n] more workers, the next one being worker [i]. *)
Fixpoint dispatch (w : world) (cfg : config) (m : metric)
    (testing_items boundary : Z) (n i : nat) (start_idx : Z) : M unit :=
  match n with
  | O => ret tt
  | S n' =>
      N <- lift (partition_len testing_items (num_procs cfg) boundary (Z.of_nat i)) ;;
      spawn_worker w cfg m i start_idx N ;;
      dispatch w cfg m testing_items boundary n' (S i) (CInt.add start_idx N)
  end.

(** Lines 230-239: read until four bytes arrive in one call. *)
Fixpoint read_count (fuel : nat) (w : world) (i j : nat) : M Z :=
  match fuel with
  | O => stop Spinning
  | S fuel' =>
      let r := sys_read w i j in
      emit (EvRead i r) ;;
      if num_read r =? 4 then ret (count r)
      else if num_read r =? -1 then perror_exit "read"
      else read_count fuel' w i (S j)
  end.

(** Lines 224-245. *)
Fixpoint collect (fuel : nat) (w : world) (n i : nat) (total_correct : Z) : M Z :=
  match n with
  | O => ret total_correct
  | S n' =>
      c <- read_count fuel w i O ;;
      checked w i (CallClose c_to_p read_end) (EvClose i c_to_p read_end) "close" ;;
      collect fuel w n' (S i) (CInt.add total_correct c)
  end.

(** Lines 253-266. *)
Fixpoint reap (w : world) (n i : nat) : M unit :=
  match n with
  | O => ret tt
  | S n' =>
      let r := sys_wait w i in
      emit (EvWait r) ;;
      if wait_pid r <? 0 then perror_exit "wait"
      else if WIFEXITED (status r) && (WEXITSTATUS (status r) =? 1) then
        print stderr "Problem with reading or writing in children processes" ;;
        exit 1
      else reap w n' (S i)
  end.

Definition load_message (path : option string) : string :=
  "The data set in " ++ show_path path ++ " could not be loaded" ++ newline.

Definition load (w : world) (path : option string) : M Dataset :=
  emit (EvLoad path) ;;
  match load_dataset w path with
  | Some d => ret d
  | None =>
      print stderr (load_message path) ;; exit 1
  end.

Definition banner_loading : string := "- Loading datasets..." ++ newline.
Definition banner_creating : string := "- Creating children ..." ++ newline.
Definition banner_waiting : string := "- Waiting for children..." ++ newline.
Definition banner_total (total_correct : Z) : string :=
  "Number of correct predictions: " ++ decimal total_correct ++ newline.
Definition total_line (total_correct : Z) : string :=
  decimal total_correct ++ newline.

(** Lines 222-284: the results are collected, the workers reaped and the
    total printed.  The two calls of [free_dataset] leave no trace. *)
Definition gather (fuel : nat) (w : world) (cfg : config) (n : nat) : M Z :=
  total_correct <- collect fuel w n O 0 ;;
  when_verbose cfg (print stdout banner_waiting) ;;
  reap w n O ;;
  when_verbose cfg (print stdout (banner_total total_correct)) ;;
  print stdout (total_line total_correct) ;;
  ret 0.

(** Lines 123-284: the workers, from their creation to the total.  The
    array [from_children] has [num_procs * 2] elements, a number that must
    be positive. *)
Definition coordinate (fuel : nat) (w : world) (cfg : config) (m : metric)
    (testing : Dataset) : M Z :=
  when_verbose cfg (print stdout banner_creating) ;;
  (if 0 <? CInt.mul (num_procs cfg) 2 then ret tt else stop Undefined) ;;
  boundary <- lift (CInt.rem (num_items testing) (num_procs cfg)) ;;
  let n := Z.to_nat (num_procs cfg) in
  dispatch w cfg m (num_items testing) boundary n O 0 ;;
  gather fuel w cfg n.

Definition metric_message : string :=
  "Expected any initial substring of " ++ quoted "euclidean" ++ " or "
    ++ quoted "cosine" ++ " as argument for -d" ++ newline.

Definition files_message : string :=
  "Expecting training images file and test images file" ++ newline.

(** Lines 75-284, once the options are read. *)
Definition run_config (fuel : nat) (w : world) (argv : list string)
    (cfg : config) (optind : nat) : M Z :=
  if (List.length argv <=? optind)%nat then
    print stderr files_message ;; exit 1
  else
    let training_file := nth_error argv optind in
    let testing_file := nth_error argv (S optind) in
    match select_metric (dist_metric cfg) with
    | None => print stderr metric_message ;; exit 1
    | Some m =>
        when_verbose cfg (print stderr banner_loading) ;;
        training <- load w training_file ;;
        testing <- load w testing_file ;;
        coordinate fuel w cfg m testing
    end.

Definition finish (m : M Z) : list event * outcome :=
  match m with
  | (t, inl v) => (t, Exit v)
  | (t, inr o) => (t, o)
  end.

Definition main (fuel : nat) (w : world) (argv : list string)
  : list event * outcome :=
  finish
    (r <- read_options argv ;;
     run_config fuel w argv (fst r) (snd r)).

(** ** Reading a trace *)

Definition stdout_of (tr : list event) : list string :=
  flat_map (fun e => match e with EvPrint stdout t => [t] | _ => [] end) tr.

Definition stderr_of (tr : list event) : list string :=
  flat_map (fun e => match e with EvPrint stderr t => [t] | _ => [] end) tr.

(** The integers that arrived whole, in the order they were read. *)
Definition counts_of (tr : list event) : list Z :=
  flat_map
    (fun e =>
       match e with
       | EvRead _ r => if num_read r =? 4 then [count r] else []
       | _ => []
       end) tr.

Definition sum_int (l : list Z) : Z := fold_left CInt.add l 0.

Definition is_dispatch (e : event) : bool :=
  match e with
  | EvPipe _ _ | EvWrite _ _ | EvFork _ _ _ _ => true
  | _ => false
  end.

Definition is_read (e : event) : bool :=
  match e with
  | EvRead _ _ => true
  | _ => false
  end.

Definition is_load (e : event) : bool :=
  match e with
  | EvLoad _ => true
  | _ => false
  end.

(** A worker that [wait] reports as having called [exit(1)]. *)
Definition exited_with_1 (r : wait_ret) : bool :=
  WIFEXITED (status r) && (WEXITSTATUS (status r) =? 1).

(** ** The partition planner as the design words it

    [base = floor(test_count / num_workers)], [remainder = test_count mod
    num_workers]; the first [remainder] partitions hold [base + 1] items,
    the others [base]; the start indices accumulate from [0]. *)

Definition planner_len (test_count num_workers i : Z) : Z :=
  if i <? test_count mod num_workers then test_count / num_workers + 1
  else test_count / num_workers.

Definition planner_start (test_count num_workers i : Z) : Z :=
  i * (test_count / num_workers) + Z.min i (test_count mod num_workers).

Definition planner (test_count num_workers : Z) : list (Z * Z) :=
  map (fun i => (planner_start test_count num_workers (Z.of_nat i),
                 planner_len test_count num_workers (Z.of_nat i)))
    (seq O (Z.to_nat num_workers)).

(** Letter case, for metric names compared without it. *)
Definition tolower (c : ascii) : ascii :=
  let n := code c in
  if (65 <=? n) && (n <=? 90) then ascii_of_N (Z.to_N (n + 32)) else c.

Fixpoint lower (s : string) : string :=
  match s with
  | EmptyString => EmptyString
  | String c s' => String (tolower c) (lower s')
  end.

(** ** Sample worlds

    Every call succeeds and both datasets load, the test set holding [T]
    items; [reads] and [waits] say what the workers send and how they
    end. *)

Definition world_with (T : Z) (reads : nat -> nat -> read_ret)
    (waits : nat -> wait_ret) : world :=
  {| load_dataset :=
       fun path =>
         match path with
         | Some _ => Some {| num_items := T |}
         | None => None
         end;
     sys_ok := fun _ _ => true;
     sys_read := reads;
     sys_wait := waits |}.

(** Each worker sends [c] at once. *)
Definition delivers (c : Z) : nat -> nat -> read_ret :=
  fun _ _ => {| num_read := 4; count := c |}.

(** The result pipe is at end of file: the worker is gone and wrote
    nothing. *)
Definition end_of_file : nat -> nat -> read_ret :=
  fun _ _ => {| num_read := 0; count := 0 |}.

(** Every worker ends with the wait status [st]. *)
Definition ends_with (st : Z) : nat -> wait_ret :=
  fun i => {| wait_pid := 1000 + Z.of_nat i; status := st |}.

Definition calm_world (T c : Z) : world := world_with T (delivers c) (ends_with 0).

(** ** Classes of events and of outcomes *)

Definition is_perror (e : event) : bool :=
  match e with
  | EvPerror _ => true
  | _ => false
  end.

(** Every event of the trace of [m] is of class [P]. *)
Definition traced {A : Type} (P : event -> bool) (m : M A) : Prop :=
  Forall (fun e => P e = true) (fst m).

(** When [m] ends the run, it is with an outcome of class [Q]. *)
Definition stops_in {A : Type} (Q : outcome -> bool) (m : M A) : Prop :=
  forall o, snd m = inr o -> Q o = true.

(** When [m] goes through, [perror] was not called. *)
Definition clean {A : Type} (m : M A) : Prop :=
  forall a, snd m = inl a -> Forall (fun e => is_perror e = false) (fst m).

(** The ways a run ends early: [exit(1)], undefined behaviour, or a read
    loop that is still turning. *)
Definition bad_end (o : outcome) : bool :=
  match o with
  | Exit c => c =? 1
  | Undefined | Spinning => true
  end.

(** No end at all: a computation of that class goes through. *)
Definition never (o : outcome) : bool := false.

(** Any end but the read loop still turning. *)
Definition is_ending (o : outcome) : bool :=
  match o with
  | Spinning => false
  | _ => true
  end.

(** Any end but undefined behaviour. *)
Definition is_defined (o : outcome) : bool :=
  match o with
  | Undefined => false
  | _ => true
  end.

(** The events of each phase: creating a worker, collecting the results,
    reaping the workers, and the three together with the report. *)
Definition spawn_event (e : event) : bool :=
  match e with
  | EvPipe _ _ | EvWrite _ _ | EvClose _ p_to_c _ | EvClose _ c_to_p write_end
  | EvFork _ _ _ _ | EvPerror _ => true
  | _ => false
  end.

Definition collect_event (e : event) : bool :=
  match e with
  | EvRead _ _ | EvClose _ c_to_p read_end | EvPerror _ => true
  | _ => false
  end.

Definition reap_event (e : event) : bool :=
  match e with
  | EvWait _ | EvPerror _ | EvPrint stderr _ => true
  | _ => false
  end.

Definition gather_event (e : event) : bool :=
  collect_event e || reap_event e
  || match e with EvPrint stdout _ => true | _ => false end.

(** The trace of [spawn_worker] when every call succeeds. *)
Definition worker_events (cfg : config) (m : metric) (i : nat) (start_idx N : Z)
  : list event :=
  [EvPipe i c_to_p; EvPipe i p_to_c; EvWrite i start_idx; EvWrite i N;
   EvClose i p_to_c write_end;
   EvFork i (K cfg) m {| buffered := [start_idx; N]; write_open := false |};
   EvClose i p_to_c read_end; EvClose i c_to_p write_end].

(** What a message under [if (verbose)] leaves in the trace. *)
Definition verbose_ev (cfg : config) (f : stream) (text : string) : list event :=
  if verbose cfg =? 0 then [] else [EvPrint f text].

(** The events that precede the creation of the workers. *)
Definition early_event (e : event) : bool :=
  match e with
  | EvPrint stderr _ | EvLoad _ => true
  | _ => false
  end.

(** The events that print nothing and read nothing. *)
Definition silent (e : event) : bool :=
  match e with
  | EvPrint _ _ | EvRead _ _ => false
  | _ => true
  end.

Definition is_fork (e : event) : bool :=
  match e with
  | EvFork _ _ _ _ => true
  | _ => false
  end.

(** ** Further readings of a trace and of the options *)

(** The argument of the last occurrence of option [c] among the values
    [getopt] returned. *)
Fixpoint last_arg (c : ascii) (rets : list getopt_ret) : option string :=
  match rets with
  | [] => None
  | r :: rest =>
      match last_arg c rest with
      | Some a => Some a
      | None =>
          match r with
          | OptArg c' a => if Ascii.eqb c' c then Some a else None
          | _ => None
          end
      end
  end.

Definition is_flag (c : ascii) (r : getopt_ret) : bool :=
  match r with
  | OptFlag c' => Ascii.eqb c' c
  | _ => false
  end.

(** The workers for which [fork] was called, in the order of the calls. *)
Definition forks_of (tr : list event) : list nat :=
  flat_map (fun e => match e with EvFork i _ _ _ => [i] | _ => [] end) tr.

(** The workers whose integer arrived whole, in the order of arrival. *)
Definition readers_of (tr : list event) : list nat :=
  flat_map
    (fun e =>
       match e with
       | EvRead i r => if num_read r =? 4 then [i] else []
       | _ => []
       end) tr.

Definition is_wait (e : event) : bool :=
  match e with
  | EvWait _ => true
  | _ => false
  end.

Definition channel_eqb (a b : channel) : bool :=
  match a, b with
  | c_to_p, c_to_p | p_to_c, p_to_c => true
  | _, _ => false
  end.

Definition pipe_end_eqb (a b : pipe_end) : bool :=
  match a, b with
  | read_end, read_end | write_end, write_end => true
  | _, _ => false
  end.

(** How many times the coordinator closed end [e] of pipe [ch] of worker
    [i]. *)
Definition closes_of (tr : list event) (i : nat) (ch : channel) (e : pipe_end) : nat :=
  List.length
    (filter
       (fun ev =>
          match ev with
          | EvClose i' ch' e' => Nat.eqb i' i && channel_eqb ch' ch && pipe_end_eqb e' e
          | _ => false
          end) tr).

(** The calls made while a worker is created: all but the [close] of the
    collection loop. *)
Definition is_spawn_call (c : call) : bool :=
  match c with
  | CallClose c_to_p read_end => false
  | _ => true
  end.

(** The events that are not messages. *)
Definition is_action (e : event) : bool :=
  match e with
  | EvPrint _ _ => false
  | _ => true
  end.


(** ** The buffer of standard output

    [printf] leaves its text in the buffer of the calling process.  When
    standard output is a terminal the buffer is written out at each
    newline; when it is a pipe or a file, when the process leaves through
    [exit] or by returning from [main] (the coordinator prints less than a
    hundred bytes, which fill no buffer).  [fork] copies the buffer, with
    the text in it, into the worker.  The error stream is not buffered. *)

Inductive buffering : Type := line_buffered | fully_buffered.

Fixpoint ends_in_newline (s : string) : bool :=
  match s with
  | EmptyString => false
  | String c rest =>
      match rest with
      | EmptyString => Ascii.eqb c (ascii_of_nat 10)
      | String _ _ => ends_in_newline rest
      end
  end.

(** [printf] writes the buffer out at once. *)
Definition written_at_once (mode : buffering) (text : string) : bool :=
  match mode with
  | line_buffered => ends_in_newline text
  | fully_buffered => false
  end.

(** The text left in the buffer after the calls of [tr], by a process that
    started with [buf] in it. *)
Fixpoint pending (mode : buffering) (tr : list event) (buf : list string)
  : list string :=
  match tr with
  | [] => buf
  | EvPrint stdout text :: tr' =>
      pending mode tr' (if written_at_once mode text then [] else buf ++ [text])
  | _ :: tr' => pending mode tr' buf
  end.

(** The text written out during the calls of [tr]. *)
Fixpoint flushed (mode : buffering) (tr : list event) (buf : list string)
  : list string :=
  match tr with
  | [] => []
  | EvPrint stdout text :: tr' =>
      if written_at_once mode text then (buf ++ [text]) ++ flushed mode tr' []
      else flushed mode tr' (buf ++ [text])
  | _ :: tr' => flushed mode tr' buf
  end.

(** [exit] and the return from [main] write the buffers out. *)
Definition flushes (o : outcome) : bool :=
  match o with
  | Exit _ => true
  | Undefined | Spinning => false
  end.

(** What reaches standard output from a process that starts with [buf] in
    its buffer, makes the calls of [fst run] and ends as [snd run] says. *)
Definition arrives (mode : buffering) (run : list event * outcome)
    (buf : list string) : list string :=
  flushed mode (fst run) buf
    ++ (if flushes (snd run) then pending mode (fst run) buf else []).

(** What reaches standard output from the workers, worker after worker:
    each starts with a copy of the buffer the coordinator has at its
    [fork]; [workers i] is what worker [i] then does and how it ends. *)
Fixpoint inherited (mode : buffering) (w : world)
    (workers : nat -> list event * outcome) (tr : list event) (buf : list string)
  : list string :=
  match tr with
  | [] => []
  | EvPrint stdout text :: tr' =>
      inherited mode w workers tr'
        (if written_at_once mode text then [] else buf ++ [text])
  | EvFork i _ _ _ :: tr' =>
      (if sys_ok w i CallFork then arrives mode (workers i) buf else [])
        ++ inherited mode w workers tr' buf
  | _ :: tr' => inherited mode w workers tr' buf
  end.

(** ** The descriptor table

    The pipe ends a process holds after the calls of [tr], when it held
    [fds] before: [pipe] adds two, [close] takes one away.  (A call that
    fails ends the run: in a trace that goes on, the calls succeeded.)
    [fork] hands the worker a copy of the table. *)

Definition pipe_end_id : Type := nat * channel * pipe_end.

Definition same_end (a b : pipe_end_id) : bool :=
  Nat.eqb (fst (fst a)) (fst (fst b))
  && channel_eqb (snd (fst a)) (snd (fst b))
  && pipe_end_eqb (snd a) (snd b).

Fixpoint held (tr : list event) (fds : list pipe_end_id) : list pipe_end_id :=
  match tr with
  | [] => fds
  | EvPipe i ch :: tr' => held tr' (fds ++ [(i, ch, read_end); (i, ch, write_end)])
  | EvClose i ch e :: tr' =>
      held tr' (filter (fun x => negb (same_end x (i, ch, e))) fds)
  | _ :: tr' => held tr' fds
  end.

(** * Properties *)

Open Scope string_scope.
Open Scope Z_scope.
Open Scope list_scope.

(** ** C integers *)

Lemma wrap_small z : CInt.INT_MIN <= z <= CInt.INT_MAX -> CInt.wrap z = z.
Proof.
  unfold CInt.wrap, CInt.INT_MIN, CInt.INT_MAX. intros H.
  rewrite Z.mod_small by lia. lia.
Qed.

Lemma wrap_range z : CInt.INT_MIN <= CInt.wrap z <= CInt.INT_MAX.
Proof.
  unfold CInt.wrap, CInt.INT_MIN, CInt.INT_MAX.
  pose proof (Z.mod_pos_bound (z + 2147483648) 4294967296 ltac:(lia)). lia.
Qed.

Lemma rem_nonneg (a b : Z) : 0 <= a -> 0 < b -> CInt.rem a b = Some (a mod b).
Proof.
  intros Ha Hb. unfold CInt.rem.
  destruct (Z.eqb_spec b 0); [lia | ].
  destruct (Z.eqb_spec b (-1)); [lia | ].
  rewrite andb_false_r. f_equal. apply Z.rem_mod_nonneg; lia.
Qed.

Example atoi_12 : atoi "12" = 12.
Proof. reflexivity. Qed.

Example atoi_neg : atoi "  -7x" = -7.
Proof. reflexivity. Qed.

Example atoi_word : atoi "four" = 0.
Proof. reflexivity. Qed.

Example atoi_wraps : atoi "4294967297" = 1.
Proof. reflexivity. Qed.

(** ** Binary64 division of two [int]s

    The quotient of two converted [int]s is computed with 53 bits, far more
    than the distance [1/p] that separates an inexact quotient [T/p] from
    the nearest integers: rounding never carries it across one. *)

Lemma digits2_pos_bounds (n : positive) :
  2 ^ (Zpos (digits2_pos n) - 1) <= Zpos n < 2 ^ Zpos (digits2_pos n).
Proof.
  induction n as [n IH | n IH | ]; cbn [digits2_pos].
  - rewrite Pos2Z.inj_succ.
    replace (Z.succ (Zpos (digits2_pos n)) - 1)
      with (Z.succ (Zpos (digits2_pos n) - 1)) by lia.
    rewrite !Z.pow_succ_r by lia. lia.
  - rewrite Pos2Z.inj_succ.
    replace (Z.succ (Zpos (digits2_pos n)) - 1)
      with (Z.succ (Zpos (digits2_pos n) - 1)) by lia.
    rewrite !Z.pow_succ_r by lia. lia.
  - cbn. lia.
Qed.

Lemma digits2_pos_unique (n : positive) (d : Z) :
  2 ^ (d - 1) <= Zpos n < 2 ^ d -> Zpos (digits2_pos n) = d.
Proof.
  intros [Hlo Hhi].
  pose proof (digits2_pos_bounds n) as [Blo Bhi].
  assert (0 < d).
  { destruct (Z.ltb_spec 0 d); auto.
    assert (2 ^ d <= 1).
    { destruct (Z.eqb_spec d 0); [subst; cbn; lia | ].
      rewrite Z.pow_neg_r by lia. lia. }
    lia. }
  destruct (Z.lt_trichotomy (Zpos (digits2_pos n)) d) as [L | [E | G]]; auto.
  - assert (2 ^ Zpos (digits2_pos n) <= 2 ^ (d - 1)) by (apply Z.pow_le_mono_r; lia).
    lia.
  - assert (2 ^ d <= 2 ^ (Zpos (digits2_pos n) - 1)) by (apply Z.pow_le_mono_r; lia).
    lia.
Qed.

Lemma digits_Z_unique (q d : Z) :
  2 ^ (d - 1) <= q < 2 ^ d -> 0 < d -> Zdigits2 q = d.
Proof.
  intros H Hd.
  assert (0 < 2 ^ (d - 1)) by (apply Z.pow_pos_nonneg; lia).
  destruct q as [ | q | q ]; try lia.
  cbn. apply digits2_pos_unique; assumption.
Qed.

Lemma digits_of_int31 (n : positive) :
  Zpos n < 2 ^ 31 -> 1 <= Zpos (digits2_pos n) <= 31.
Proof.
  intros Hn. pose proof (digits2_pos_bounds n) as [Blo _].
  split; [lia | ].
  destruct (Z.leb_spec (Zpos (digits2_pos n)) 31); auto.
  assert (2 ^ 31 <= 2 ^ (Zpos (digits2_pos n) - 1)) by (apply Z.pow_le_mono_r; lia).
  lia.
Qed.

Lemma iter_xO_mul (n k : positive) : Zpos (Pos.iter xO n k) = Zpos n * 2 ^ Zpos k.
Proof.
  induction k as [ | k IH] using Pos.peano_ind.
  - cbn. lia.
  - rewrite Pos.iter_succ, Pos2Z.inj_succ, Z.pow_succ_r by lia.
    rewrite Pos2Z.inj_xO, IH. lia.
Qed.

Lemma fexp_small (d : Z) : -1021 <= d -> fexp 53 1024 d = d - 53.
Proof. unfold fexp, emin. lia. Qed.

(** Converting a positive [int] is exact and gives a normal number. *)
Lemma of_int_pos (n : positive) :
  Zpos n < 2 ^ 31 ->
  exists m e,
    CDouble.of_int (Zpos n) = S754_finite false m e /\
    Zpos (digits2_pos m) = 53 /\
    e = Zpos (digits2_pos n) - 53 /\
    Zpos m = Zpos n * 2 ^ (- e).
Proof.
  intros Hn.
  pose proof (digits2_pos_bounds n) as [Blo Bhi].
  pose proof (digits_of_int31 n Hn) as Hd.
  set (d := digits2_pos n) in *.
  unfold CDouble.of_int, CDouble.prec, CDouble.emax, binary_normalize, binary_round.
  fold d. rewrite Z.add_0_r, fexp_small by lia.
  unfold shl_align.
  destruct (Zpos d - 53 - 0) as [ | k | k] eqn:Ek; try lia.
  set (m := Pos.iter xO n k).
  assert (Hm : Zpos m = Zpos n * 2 ^ Zpos k) by apply iter_xO_mul.
  assert (Hk : Zpos k = 53 - Zpos d) by lia.
  assert (Hdm : Zpos (digits2_pos m) = 53).
  { apply digits2_pos_unique. rewrite Hm, Hk.
    assert (E1 : 2 ^ (53 - 1) = 2 ^ (Zpos d - 1) * 2 ^ (53 - Zpos d)).
    { rewrite <- Z.pow_add_r by lia. f_equal. lia. }
    assert (E2 : 2 ^ 53 = 2 ^ Zpos d * 2 ^ (53 - Zpos d)).
    { rewrite <- Z.pow_add_r by lia. f_equal. lia. }
    rewrite E1, E2.
    assert (0 < 2 ^ (53 - Zpos d)) by (apply Z.pow_pos_nonneg; lia).
    split.
    - apply Z.mul_le_mono_nonneg_r; lia.
    - apply Z.mul_lt_mono_pos_r; lia. }
  exists m, (Zpos d - 53).
  split; [ | split; [exact Hdm | split; [reflexivity | ] ] ].
  - unfold binary_round_aux, shr_fexp, Zdigits2.
    rewrite Hdm.
    replace (53 + (Zpos d - 53)) with (Zpos d) by lia.
    rewrite fexp_small by lia.
    rewrite Z.sub_diag. cbn [shr shr_record_of_loc].
    cbn [shr_m loc_of_shr_record round_nearest_even].
    unfold Zdigits2. rewrite Hdm.
    replace (53 + (Zpos d - 53)) with (Zpos d) by lia.
    rewrite fexp_small by lia.
    rewrite Z.sub_diag. cbn [shr shr_m].
    destruct (Z.leb_spec (Zpos d - 53) (1024 - 53)); [reflexivity | lia].
  - rewrite Hm. f_equal. f_equal. lia.
Qed.

Lemma div_core (mx my : positive) (ex ey : Z) :
  Zpos (digits2_pos mx) = 53 -> Zpos (digits2_pos my) = 53 ->
  -1000 <= ex - ey ->
  SFdiv_core_binary 53 1024 (Zpos mx) ex (Zpos my) ey =
    (Zpos mx * 2 ^ 53 / Zpos my, ex - ey - 53,
     new_location (Zpos my) ((Zpos mx * 2 ^ 53) mod Zpos my)).
Proof.
  intros Hx Hy He. unfold SFdiv_core_binary. cbn [Zdigits2]. rewrite Hx, Hy.
  assert (E : Z.min (fexp 53 1024 (53 + ex - (53 + ey))) (ex - ey) = ex - ey - 53).
  { rewrite fexp_small by lia. lia. }
  change IntDef.Z.min with Z.min. rewrite E.
  replace (ex - ey - (ex - ey - 53)) with 53 by lia.
  change (IntDef.Z.shiftl (Zpos mx) 53) with (Z.shiftl (Zpos mx) 53).
  rewrite Z.shiftl_mul_pow2 by lia.
  change IntDef.Z.div_eucl with Z.div_eucl.
  unfold Z.div, Z.modulo.
  destruct (Z.div_eucl (Zpos mx * 2 ^ 53) (Zpos my)) as [q r]. reflexivity.
Qed.
Lemma loc_of_shr_record_of_loc (m : Z) (l : location) :
  loc_of_shr_record (shr_record_of_loc m l) = l.
Proof. destruct l as [ | [ | | ] ]; reflexivity. Qed.

Lemma shr_m_of_loc (m : Z) (l : location) : shr_m (shr_record_of_loc m l) = m.
Proof. destruct l as [ | [ | | ] ]; reflexivity. Qed.

Lemma round_nearest_even_cases (m : Z) (l : location) :
  round_nearest_even m l = m \/ round_nearest_even m l = m + 1.
Proof.
  destruct l as [ | [ | | ] ]; cbn; auto.
  destruct (Z.even m); auto.
Qed.

Lemma shr_m_shr_1 (mrs : shr_record) :
  0 <= shr_m mrs -> shr_m (shr_1 mrs) = shr_m mrs / 2.
Proof.
  destruct mrs as [m r s]. cbn [shr_m]. intros Hm.
  destruct m as [ | [p | p | ] | p ]; cbn [shr_1 shr_m]; try lia.
  - reflexivity.
  - rewrite Pos2Z.inj_xI. apply Z.div_unique with (r := 1); lia.
  - rewrite Pos2Z.inj_xO. apply Z.div_unique with (r := 0); lia.
  - reflexivity.
Qed.

(** The last step of [binary_round_aux] on a mantissa of 53 bits, or on
    [2^53] after a carry. *)
Lemma renormalise (m' e : Z) :
  2 ^ 52 <= m' <= 2 ^ 53 -> -1000 <= e <= 900 ->
  exists m e2,
    (let '(mrs, e'') := shr_fexp 53 1024 m' e loc_Exact in
     match shr_m mrs with
     | Z0 => S754_zero false
     | Zpos m => if e'' <=? 1024 - 53 then S754_finite false m e'' else S754_infinity false
     | Zneg _ => S754_nan
     end) = S754_finite false m e2 /\
    ((e2 = e /\ Zpos m = m') \/ (e2 = e + 1 /\ m' = 2 ^ 53 /\ Zpos m = 2 ^ 52)).
Proof.
  intros Hm He. unfold shr_fexp.
  destruct (Z.eq_dec m' (2 ^ 53)) as [E | NE].
  - subst m'. rewrite (digits_Z_unique (2 ^ 53) 54) by (cbn; lia).
    rewrite fexp_small by lia.
    replace (54 + e - 53 - e) with 1 by lia.
    cbn [shr shr_record_of_loc iter_pos].
    exists (4503599627370496%positive), (e + 1). split.
    + cbn. destruct (Z.leb_spec (e + 1) 971); [reflexivity | lia].
    + right. cbn. lia.
  - rewrite (digits_Z_unique m' 53) by lia.
    rewrite fexp_small by lia.
    replace (53 + e - 53 - e) with 0 by lia.
    cbn [shr shr_record_of_loc shr_m].
    destruct m' as [ | m | m ]; try (cbn in Hm; lia).
    exists m, e. split.
    + destruct (Z.leb_spec e (1024 - 53)); [reflexivity | lia].
    + left. auto.
Qed.

Lemma round_aux_cases (q e : Z) (l : location) :
  2 ^ 52 <= q < 2 ^ 54 -> -1000 <= e <= 800 ->
  exists m k,
    binary_round_aux 53 1024 false q e l = S754_finite false m (e + k) /\
    0 <= k <= 2 /\
    (Zpos m = q / 2 ^ k \/ Zpos m = q / 2 ^ k + 1).
Proof.
  intros Hq He. unfold binary_round_aux.
  destruct (Z.ltb_spec q (2 ^ 53)) as [Hlt | Hge].
  - unfold shr_fexp at 1.
    rewrite (digits_Z_unique q 53) by lia.
    rewrite fexp_small by lia.
    replace (53 + e - 53 - e) with 0 by lia.
    cbn [shr]. rewrite shr_m_of_loc, loc_of_shr_record_of_loc.
    destruct (renormalise (round_nearest_even q l) e) as (m & e2 & Hr & Hc).
    { destruct (round_nearest_even_cases q l) as [-> | ->]; lia. }
    { lia. }
    rewrite Hr.
    destruct Hc as [[-> Hm] | (-> & Hm' & Hm)].
    + exists m, 0. rewrite Z.add_0_r, Z.div_1_r. split; [reflexivity | split; [lia | ] ].
      rewrite Hm. apply round_nearest_even_cases.
    + exists m, 1. split; [reflexivity | split; [lia | ] ].
      right. rewrite Hm.
      destruct (round_nearest_even_cases q l) as [R | R]; rewrite R in Hm'; [lia | ].
      assert (q = 2 ^ 53 - 1) by lia. subst q. reflexivity.
  - unfold shr_fexp at 1.
    rewrite (digits_Z_unique q 54) by lia.
    rewrite fexp_small by lia.
    replace (54 + e - 53 - e) with 1 by lia.
    cbn [shr iter_pos].
    set (mrs := shr_1 (shr_record_of_loc q l)).
    assert (Hh : shr_m mrs = q / 2).
    { unfold mrs. rewrite shr_m_shr_1; rewrite shr_m_of_loc; [reflexivity | lia]. }
    rewrite Hh.
    assert (B : 2 ^ 52 <= q / 2 < 2 ^ 53).
    { split; [apply Z.div_le_lower_bound | apply Z.div_lt_upper_bound]; lia. }
    destruct (renormalise (round_nearest_even (q / 2) (loc_of_shr_record mrs)) (e + 1))
      as (m & e2 & Hr & Hc).
    { destruct (round_nearest_even_cases (q / 2) (loc_of_shr_record mrs)) as [-> | ->]; lia. }
    { lia. }
    rewrite Hr.
    destruct Hc as [[-> Hm] | (-> & Hm' & Hm)].
    + exists m, 1. split; [reflexivity | split; [lia | ] ].
      rewrite Hm. change (2 ^ 1) with 2. apply round_nearest_even_cases.
    + exists m, 2. split; [f_equal; lia | split; [lia | ] ].
      right. rewrite Hm.
      destruct (round_nearest_even_cases (q / 2) (loc_of_shr_record mrs)) as [R | R];
        rewrite R in Hm'; [lia | ].
      change (2 ^ 2) with (2 * 2). rewrite <- Z.div_div by lia.
      replace (q / 2) with (2 ^ 53 - 1) by lia. reflexivity.
Qed.

Lemma scaled_bounds (T p F : Z) :
  0 <= T -> 0 < p < 2 ^ F -> 0 <= F ->
  (T / p) * 2 ^ F <= T * 2 ^ F / p /\
  T * 2 ^ F / p + 1 < (T / p + 1) * 2 ^ F /\
  (T mod p <> 0 -> (T / p) * 2 ^ F < T * 2 ^ F / p).
Proof.
  intros HT Hp HF.
  set (P := 2 ^ F) in *.
  pose proof (Z.div_mod T p ltac:(lia)) as HD.
  pose proof (Z.mod_pos_bound T p ltac:(lia)) as HM.
  set (q0 := T / p) in *. set (t := T mod p) in *.
  pose proof (Z.div_mod (T * P) p ltac:(lia)) as HD2.
  pose proof (Z.mod_pos_bound (T * P) p ltac:(lia)) as HM2.
  set (Q := T * P / p) in *. set (r := (T * P) mod p) in *.
  assert (E : p * Q + r = p * (q0 * P) + t * P) by (rewrite <- HD2, HD; ring).
  repeat split.
  - assert (p * (q0 * P) < p * (Q + 1)) by nia. nia.
  - assert (p * (Q + 1) < p * ((q0 + 1) * P)) by nia. nia.
  - intros Ht. assert (p * (q0 * P + 1) <= p * Q + r) by nia. nia.
Qed.

Lemma div_of_int_pos (t pp : positive) :
  Zpos t < 2 ^ 31 -> Zpos pp < 2 ^ 31 ->
  exists m F,
    CDouble.div (CDouble.of_int (Zpos t)) (CDouble.of_int (Zpos pp)) =
      S754_finite false m (- F) /\
    0 < F /\ Zpos pp < 2 ^ F /\
    (Zpos m = Zpos t * 2 ^ F / Zpos pp \/ Zpos m = Zpos t * 2 ^ F / Zpos pp + 1).
Proof.
  intros Ht Hp.
  destruct (of_int_pos t Ht) as (mx & ex & -> & Dx & Ex & Vx).
  destruct (of_int_pos pp Hp) as (my & ey & -> & Dy & Ey & Vy).
  pose proof (digits2_pos_bounds t) as Bt. pose proof (digits2_pos_bounds pp) as Bp.
  pose proof (digits2_pos_bounds mx) as Bx. pose proof (digits2_pos_bounds my) as By.
  rewrite Dx in Bx. rewrite Dy in By.
  set (dt := Zpos (digits2_pos t)) in *. set (dp := Zpos (digits2_pos pp)) in *.
  assert (Hdt : 1 <= dt <= 31).
  { split; [unfold dt; lia | ].
    destruct (Z.leb_spec dt 31); auto.
    assert (2 ^ 31 <= 2 ^ (dt - 1)) by (apply Z.pow_le_mono_r; lia). lia. }
  assert (Hdp : 1 <= dp <= 31).
  { split; [unfold dp; lia | ].
    destruct (Z.leb_spec dp 31); auto.
    assert (2 ^ 31 <= 2 ^ (dp - 1)) by (apply Z.pow_le_mono_r; lia). lia. }
  unfold CDouble.div, CDouble.prec, CDouble.emax, SFdiv.
  rewrite div_core by (auto; lia).
  cbn [xorb].
  set (q := Zpos mx * 2 ^ 53 / Zpos my).
  assert (Hq : 2 ^ 52 <= q < 2 ^ 54).
  { unfold q. split.
    - apply Z.div_le_lower_bound; [lia | ].
      change (2 ^ 53 - 1) with 9007199254740991 in *. change (2 ^ 53) with 9007199254740992 in *.
      change (2 ^ 52) with 4503599627370496 in *. nia.
    - apply Z.div_lt_upper_bound; [lia | ].
      change (2 ^ 53 - 1) with 9007199254740991 in *. change (2 ^ 53) with 9007199254740992 in *.
      change (2 ^ 54) with 18014398509481984 in *. nia. }
  destruct (round_aux_cases q (ex - ey - 53) (new_location (Zpos my) ((Zpos mx * 2 ^ 53) mod Zpos my)) Hq)
    as (m & k & Hr & Hk & Hm); [lia | ].
  rewrite Hr.
  set (F := 53 - k - dt + dp).
  exists m, F.
  assert (HF : 0 < F) by (unfold F; lia).
  split; [f_equal; unfold F; lia | split; [exact HF | split] ].
  - assert (2 ^ dp <= 2 ^ F) by (apply Z.pow_le_mono_r; unfold F; lia). lia.
  - assert (Eq : q / 2 ^ k = Zpos t * 2 ^ F / Zpos pp).
    { unfold q. rewrite Z.div_div by (try apply Z.pow_pos_nonneg; lia).
      rewrite Vx, Vy.
      assert (0 < 2 ^ (- ey + k)) by (apply Z.pow_pos_nonneg; lia).
      rewrite <- (Z.div_mul_cancel_r (Zpos t * 2 ^ F) (Zpos pp) (2 ^ (- ey + k))) by lia.
      f_equal.
      - rewrite <- !Z.mul_assoc, <- !Z.pow_add_r by lia.
        f_equal. f_equal. unfold F. lia.
      - rewrite <- !Z.mul_assoc, <- !Z.pow_add_r by lia. reflexivity. }
    rewrite <- Eq. exact Hm.
Qed.

Lemma floor_div_int (T p : Z) :
  0 <= T < 2 ^ 31 -> 0 < p < 2 ^ 31 ->
  CDouble.floor (CDouble.div (CDouble.of_int T) (CDouble.of_int p)) = Some (T / p).
Proof.
  intros HT Hp.
  destruct p as [ | pp | pp ]; try lia.
  destruct T as [ | t | t ]; try lia.
  - destruct (of_int_pos pp) as (my & ey & -> & _); [lia | reflexivity].
  - destruct (div_of_int_pos t pp) as (m & F & -> & HF & HpF & Hm); try lia.
    cbn [CDouble.floor cond_Zopp]. f_equal.
    rewrite Z.shiftl_div_pow2 by lia. rewrite Z.opp_involutive.
    destruct (scaled_bounds (Zpos t) (Zpos pp) F) as (B1 & B2 & _); try lia.
    assert (0 < 2 ^ F) by (apply Z.pow_pos_nonneg; lia).
    symmetry. apply Z.div_unique with (r := Zpos m - Zpos t / Zpos pp * 2 ^ F); lia.
Qed.

Lemma ceil_div_int (T p : Z) :
  0 <= T < 2 ^ 31 -> 0 < p < 2 ^ 31 -> T mod p <> 0 ->
  CDouble.ceil (CDouble.div (CDouble.of_int T) (CDouble.of_int p)) = Some (T / p + 1).
Proof.
  intros HT Hp Hr.
  destruct p as [ | pp | pp ]; try lia.
  destruct T as [ | t | t ]; try lia.
  - rewrite Z.mod_0_l in Hr by lia. lia.
  - destruct (div_of_int_pos t pp) as (m & F & -> & HF & HpF & Hm); try lia.
    unfold CDouble.ceil. cbn [SFopp CDouble.floor cond_Zopp negb option_map]. f_equal.
    rewrite Z.shiftl_div_pow2 by lia. rewrite Z.opp_involutive.
    destruct (scaled_bounds (Zpos t) (Zpos pp) F) as (B1 & B2 & B3); try lia.
    specialize (B3 Hr).
    assert (0 < 2 ^ F) by (apply Z.pow_pos_nonneg; lia).
    assert (E : - Zpos m / 2 ^ F = - (Zpos t / Zpos pp + 1)).
    { symmetry.
      apply Z.div_unique with (r := (Zpos t / Zpos pp + 1) * 2 ^ F - Zpos m); lia. }
    change (Z.neg m) with (- Zpos m). rewrite E. lia.
Qed.

(** ** The partition sizes and start indices *)

Lemma partition_len_planner (T p i : Z) :
  0 <= T <= CInt.INT_MAX -> 1 <= p <= CInt.INT_MAX -> 0 <= i ->
  partition_len T p (T mod p) i = Some (planner_len T p i).
Proof.
  intros HT Hp Hi. unfold partition_len, planner_len, CInt.INT_MAX in *.
  pose proof (Z.mod_pos_bound T p ltac:(lia)) as HM.
  pose proof (Z.div_mod T p ltac:(lia)) as HD.
  assert (Hq : 0 <= T / p <= T).
  { split; [apply Z.div_pos; lia | ]. apply Z.div_le_upper_bound; nia. }
  destruct (Z.ltb_spec i (T mod p)) as [Hlt | Hge].
  - rewrite ceil_div_int by (change (2 ^ 31) with 2147483648; lia).
    unfold CDouble.to_int, CInt.in_int, CInt.INT_MIN, CInt.INT_MAX.
    assert (T / p + 1 <= T) by nia.
    destruct (Z.leb_spec (-2147483648) (T / p + 1)); [ | lia].
    destruct (Z.leb_spec (T / p + 1) 2147483647); [reflexivity | lia].
  - rewrite floor_div_int by (change (2 ^ 31) with 2147483648; lia).
    unfold CDouble.to_int, CInt.in_int, CInt.INT_MIN, CInt.INT_MAX.
    destruct (Z.leb_spec (-2147483648) (T / p)); [ | lia].
    destruct (Z.leb_spec (T / p) 2147483647); [reflexivity | lia].
Qed.

Lemma planner_start_succ (T p i : Z) :
  planner_start T p (i + 1) = planner_start T p i + planner_len T p i.
Proof.
  unfold planner_start, planner_len.
  destruct (Z.ltb_spec i (T mod p)); lia.
Qed.

Lemma planner_start_bounds (T p i : Z) :
  0 <= T -> 0 < p -> 0 <= i <= p -> 0 <= planner_start T p i <= T.
Proof.
  intros HT Hp Hi. unfold planner_start.
  pose proof (Z.mod_pos_bound T p ltac:(lia)) as HM.
  pose proof (Z.div_mod T p ltac:(lia)) as HD.
  assert (0 <= T / p) by (apply Z.div_pos; lia).
  split; [nia | ].
  assert (i * (T / p) <= p * (T / p)) by nia. lia.
Qed.




(** ** Metric selection *)

Lemma code_inj (c1 c2 : ascii) : code c1 = code c2 -> c1 = c2.
Proof.
  unfold code. intros H. apply N2Z.inj in H.
  rewrite <- (ascii_N_embedding c1), <- (ascii_N_embedding c2). congruence.
Qed.

(** With [n = strlen s], [strncmp s t n == 0] says that [s] is an initial
    substring of [t]. *)
Lemma strncmp_prefix (s t : string) :
  nul_free s = true ->
  (strncmp s t (strlen s) =? 0) = String.prefix s t.
Proof.
  revert t. induction s as [ | c s IH]; intros t Hs.
  - destruct t; reflexivity.
  - cbn in Hs. apply andb_true_iff in Hs. destruct Hs as [Hc Hs].
    apply negb_true_iff in Hc.
    cbn [strlen]. rewrite Hc. cbn [strncmp head tail].
    destruct t as [ | d t]; cbn [head tail String.prefix].
    + rewrite Hc. cbn [negb].
      apply Z.eqb_neq. intros E.
      assert (c = NUL) by (apply code_inj; lia).
      subst c. discriminate.
    + destruct (ascii_dec c d) as [-> | Hne].
      * rewrite Ascii.eqb_refl. cbn [negb]. rewrite Hc. apply IH, Hs.
      * destruct (Ascii.eqb_spec c d) as [ | _ ]; [contradiction | ].
        cbn [negb]. apply Z.eqb_neq. intros E. apply Hne, code_inj. lia.
Qed.

Lemma select_metric_prefix (s : string) :
  nul_free s = true ->
  select_metric s =
    if String.prefix s "euclidean" then Some distance_euclidean
    else if String.prefix s "cosine" then Some distance_cosine
    else None.
Proof.
  intros Hs. unfold select_metric. rewrite !strncmp_prefix by assumption.
  reflexivity.
Qed.

Example select_eucl : select_metric "eucl" = Some distance_euclidean.
Proof. reflexivity. Qed.

Example select_cos : select_metric "cos" = Some distance_cosine.
Proof. reflexivity. Qed.

Example select_manhattan : select_metric "manhattan" = None.
Proof. reflexivity. Qed.

Example select_too_long : select_metric "euclideans" = None.
Proof. reflexivity. Qed.

(** ** Runs and their traces *)

Lemma bind_eq {A B : Type} (m : M A) (k : A -> M B) (tr : list event) (r : B + outcome) :
  bind m k = (tr, r) ->
  (exists t1 a t2, m = (t1, inl a) /\ k a = (t2, r) /\ tr = t1 ++ t2) \/
  (exists o, m = (tr, inr o) /\ r = inr o).
Proof.
  destruct m as [t1 [a | o] ]; cbn [bind].
  - destruct (k a) as [t2 r2] eqn:Ek. intros H. inversion H; subst.
    left. exists t1, a, t2. auto.
  - intros H. inversion H; subst. right. exists o. auto.
Qed.

Section Classes.

Context {A B : Type}.
Variable P : event -> bool.
Variable Q : outcome -> bool.

Lemma traced_bind (m : M A) (k : A -> M B) :
  traced P m -> (forall a, traced P (k a)) -> traced P (bind m k).
Proof.
  unfold traced. destruct m as [t1 [a | o] ]; cbn [bind fst]; intros H1 H2.
  - specialize (H2 a). destruct (k a) as [t2 r2]. cbn [fst] in *.
    apply Forall_app. auto.
  - exact H1.
Qed.

Lemma stops_in_bind (m : M A) (k : A -> M B) :
  stops_in Q m -> (forall a, stops_in Q (k a)) -> stops_in Q (bind m k).
Proof.
  unfold stops_in. destruct m as [t1 [a | o] ]; cbn [bind snd]; intros H1 H2.
  - specialize (H2 a). destruct (k a) as [t2 r2]. exact H2.
  - intros o' E. inversion E; subst. apply H1. reflexivity.
Qed.

Lemma traced_ret (a : A) : traced P (ret a).
Proof. constructor. Qed.

Lemma traced_stop (o : outcome) : traced P (@stop A o).
Proof. constructor. Qed.

Lemma traced_lift (v : option A) : traced P (lift v).
Proof. destruct v; constructor. Qed.

Lemma traced_perror (what : string) :
  P (EvPerror what) = true -> traced P (@perror_exit A what).
Proof. intros H. repeat constructor. exact H. Qed.

Lemma stops_in_ret (a : A) : stops_in Q (ret a).
Proof. intros o H. discriminate. Qed.

Lemma stops_in_stop (o : outcome) : Q o = true -> stops_in Q (@stop A o).
Proof. intros Ho o' H. cbn in H. inversion H; subst. exact Ho. Qed.

Lemma stops_in_perror (what : string) :
  Q (Exit 1) = true -> stops_in Q (@perror_exit A what).
Proof. intros HQ o H. cbn in H. inversion H. exact HQ. Qed.

Lemma stops_in_lift (v : option A) : Q Undefined = true -> stops_in Q (lift v).
Proof. intros HQ. destruct v; [apply stops_in_ret | apply stops_in_stop, HQ]. Qed.

End Classes.

Lemma traced_emit (P : event -> bool) (e : event) : P e = true -> traced P (emit e).
Proof. intros H. repeat constructor. exact H. Qed.

Lemma stops_in_emit (Q : outcome -> bool) (e : event) : stops_in Q (emit e).
Proof. intros o H. discriminate. Qed.

Lemma traced_checked (P : event -> bool) w i c e what :
  P e = true -> P (EvPerror what) = true -> traced P (checked w i c e what).
Proof.
  intros He Hp. unfold checked. apply traced_bind; [apply traced_emit, He | intros _].
  destruct (sys_ok w i c); [apply traced_ret | apply traced_perror, Hp].
Qed.

Lemma stops_in_checked (Q : outcome -> bool) w i c e what :
  Q (Exit 1) = true -> stops_in Q (checked w i c e what).
Proof.
  intros HQ. unfold checked. apply stops_in_bind; [apply stops_in_emit | intros _].
  destruct (sys_ok w i c); [apply stops_in_ret | apply stops_in_perror, HQ].
Qed.

Lemma traced_when_verbose (P : event -> bool) cfg (m : M unit) :
  traced P m -> traced P (when_verbose cfg m).
Proof.
  unfold when_verbose. destruct (verbose cfg =? 0); [intros _; apply traced_ret | auto].
Qed.

Lemma stops_in_when_verbose (Q : outcome -> bool) cfg (m : M unit) :
  stops_in Q m -> stops_in Q (when_verbose cfg m).
Proof.
  unfold when_verbose. destruct (verbose cfg =? 0); [intros _; apply stops_in_ret | auto].
Qed.

(** A projection of the trace that is empty on every event of a class is
    empty on the whole trace. *)
Lemma flat_map_class {X : Type} (P : event -> bool) (f : event -> list X) (tr : list event) :
  (forall e, P e = true -> f e = []) ->
  Forall (fun e => P e = true) tr -> flat_map f tr = [].
Proof.
  intros Hf H. induction H as [ | e tr He _ IH]; cbn; [reflexivity | ].
  rewrite (Hf e He), IH. reflexivity.
Qed.

Lemma Forall_class (P P' : event -> bool) (tr : list event) :
  (forall e, P e = true -> P' e = true) ->
  Forall (fun e => P e = true) tr -> Forall (fun e => P' e = true) tr.
Proof. intros Himp H. eapply Forall_impl; [ | exact H]. exact Himp. Qed.

Ltac walk :=
  repeat (first [ apply traced_checked; reflexivity
                | apply stops_in_checked; reflexivity
                | apply traced_ret
                | apply stops_in_ret
                | apply traced_emit; reflexivity
                | apply stops_in_emit
                | apply traced_perror; reflexivity
                | apply stops_in_perror; reflexivity
                | apply traced_stop
                | apply stops_in_stop; reflexivity
                | apply traced_lift
                | apply traced_when_verbose
                | apply stops_in_when_verbose
                | apply traced_bind; [ | intros ? ]
                | apply stops_in_bind; [ | intros ? ] ]).

Lemma spawn_worker_traced w cfg m i s N : traced spawn_event (spawn_worker w cfg m i s N).
Proof. unfold spawn_worker, write_int. walk. Qed.

Lemma dispatch_traced w cfg m T b n :
  forall i s, traced spawn_event (dispatch w cfg m T b n i s).
Proof.
  induction n as [ | n IH]; intros i s; cbn [dispatch].
  - apply traced_ret.
  - apply traced_bind; [apply traced_lift | intros N].
    apply traced_bind; [apply spawn_worker_traced | intros _]. apply IH.
Qed.

Lemma read_count_traced fuel w i : forall j, traced collect_event (read_count fuel w i j).
Proof.
  induction fuel as [ | fuel IH]; intros j; cbn [read_count].
  - apply traced_stop.
  - apply traced_bind; [apply traced_emit; reflexivity | intros _].
    destruct (num_read (sys_read w i j) =? 4); [apply traced_ret | ].
    destruct (num_read (sys_read w i j) =? -1); [apply traced_perror; reflexivity | apply IH].
Qed.

Lemma collect_traced fuel w n : forall i acc, traced collect_event (collect fuel w n i acc).
Proof.
  induction n as [ | n IH]; intros i acc; cbn [collect].
  - apply traced_ret.
  - apply traced_bind; [apply read_count_traced | intros c].
    apply traced_bind; [apply traced_checked; reflexivity | intros _]. apply IH.
Qed.

Lemma reap_traced w n : forall i, traced reap_event (reap w n i).
Proof.
  induction n as [ | n IH]; intros i; cbn [reap].
  - apply traced_ret.
  - apply traced_bind; [apply traced_emit; reflexivity | intros _].
    destruct (wait_pid (sys_wait w i) <? 0); [apply traced_perror; reflexivity | ].
    destruct (WIFEXITED _ && _); [ | apply IH].
    unfold print. walk.
Qed.

Lemma gather_traced fuel w cfg n : traced gather_event (gather fuel w cfg n).
Proof.
  unfold gather, print.
  apply traced_bind.
  { eapply Forall_class; [ | apply collect_traced].
    intros e He. unfold gather_event. rewrite He. reflexivity. }
  intros total. apply traced_bind; [walk | intros _ ].
  apply traced_bind; [ | intros _; walk ].
  eapply Forall_class; [ | apply reap_traced].
  intros e He. unfold gather_event. rewrite He, orb_true_r. reflexivity.
Qed.

(** Before its last line, [main] leaves only by [exit(1)], by undefined
    behaviour, or not at all. *)
Lemma spawn_worker_stops Q w cfg m i s N :
  Q (Exit 1) = true -> stops_in Q (spawn_worker w cfg m i s N).
Proof. intros HQ. unfold spawn_worker, write_int. repeat (first [ apply stops_in_checked; exact HQ | apply stops_in_ret | apply stops_in_bind; [ | intros ? ] ]). Qed.

Lemma dispatch_stops w cfg m T b n :
  forall i s, stops_in bad_end (dispatch w cfg m T b n i s).
Proof.
  induction n as [ | n IH]; intros i s; cbn [dispatch].
  - apply stops_in_ret.
  - apply stops_in_bind; [apply stops_in_lift; reflexivity | intros N].
    apply stops_in_bind; [apply spawn_worker_stops; reflexivity | intros _; apply IH].
Qed.

Lemma read_count_stops Q fuel w i :
  Q (Exit 1) = true -> Q Spinning = true ->
  forall j, stops_in Q (read_count fuel w i j).
Proof.
  intros Q1 Q2.
  induction fuel as [ | fuel IH]; intros j; cbn [read_count].
  - apply stops_in_stop, Q2.
  - apply stops_in_bind; [apply stops_in_emit | intros _].
    destruct (num_read (sys_read w i j) =? 4); [apply stops_in_ret | ].
    destruct (num_read (sys_read w i j) =? -1); [apply stops_in_perror, Q1 | apply IH].
Qed.

Lemma collect_stops Q fuel w n :
  Q (Exit 1) = true -> Q Spinning = true ->
  forall i acc, stops_in Q (collect fuel w n i acc).
Proof.
  intros Q1 Q2.
  induction n as [ | n IH]; intros i acc; cbn [collect].
  - apply stops_in_ret.
  - apply stops_in_bind; [apply read_count_stops; assumption | intros c].
    apply stops_in_bind; [apply stops_in_checked, Q1 | intros _; apply IH].
Qed.

Lemma reap_stops Q w n :
  Q (Exit 1) = true -> forall i, stops_in Q (reap w n i).
Proof.
  intros Q1.
  induction n as [ | n IH]; intros i; cbn [reap].
  - apply stops_in_ret.
  - apply stops_in_bind; [apply stops_in_emit | intros _].
    destruct (wait_pid (sys_wait w i) <? 0); [apply stops_in_perror, Q1 | ].
    destruct (WIFEXITED _ && _); [ | apply IH].
    apply stops_in_bind; [apply stops_in_emit | intros _].
    apply stops_in_stop, Q1.
Qed.

Lemma gather_stops Q fuel w cfg n :
  Q (Exit 1) = true -> Q Spinning = true -> stops_in Q (gather fuel w cfg n).
Proof.
  intros Q1 Q2. unfold gather, print.
  apply stops_in_bind; [apply collect_stops; assumption | intros total].
  apply stops_in_bind; [apply stops_in_when_verbose, stops_in_emit | intros _].
  apply stops_in_bind; [apply reap_stops, Q1 | intros _].
  apply stops_in_bind; [apply stops_in_when_verbose, stops_in_emit | intros _].
  apply stops_in_bind; [apply stops_in_emit | intros _; apply stops_in_ret].
Qed.

Lemma load_stops Q w path : Q (Exit 1) = true -> stops_in Q (load w path).
Proof.
  intros Q1. unfold load, print.
  apply stops_in_bind; [apply stops_in_emit | intros _].
  destruct (load_dataset w path); [apply stops_in_ret | ].
  apply stops_in_bind; [apply stops_in_emit | intros _; apply stops_in_stop, Q1].
Qed.

Lemma coordinate_stops fuel w cfg m testing :
  stops_in bad_end (coordinate fuel w cfg m testing).
Proof.
  unfold coordinate, print.
  apply stops_in_bind; [apply stops_in_when_verbose, stops_in_emit | intros _].
  apply stops_in_bind.
  { destruct (0 <? CInt.mul (num_procs cfg) 2);
      [apply stops_in_ret | apply stops_in_stop; reflexivity]. }
  intros _. apply stops_in_bind; [apply stops_in_lift; reflexivity | intros boundary].
  apply stops_in_bind; [apply dispatch_stops | intros _].
  apply gather_stops; reflexivity.
Qed.

(** ** What [getopt] returns *)

Lemma lookup_opt_cases (c : ascii) :
  (lookup_opt c = Some false /\ c = "v"%char) \/
  (lookup_opt c = Some true /\ (c = "K"%char \/ c = "d"%char \/ c = "p"%char)) \/
  lookup_opt c = None.
Proof.
  unfold lookup_opt.
  destruct (Ascii.eqb_spec c ":") as [-> | Hc]; [auto | ].
  change (opt_kind optstring c) with
    (if Ascii.eqb "v" c then Some false
     else if Ascii.eqb "K" c then Some true
     else if Ascii.eqb ":" c then Some false
     else if Ascii.eqb "d" c then Some true
     else if Ascii.eqb ":" c then Some false
     else if Ascii.eqb "p" c then Some true
     else if Ascii.eqb ":" c then Some false
     else None).
  destruct (Ascii.eqb_spec "v" c) as [<- | _]; [left; auto | ].
  destruct (Ascii.eqb_spec "K" c) as [<- | _]; [right; left; auto | ].
  destruct (Ascii.eqb_spec ":" c) as [<- | _]; [contradiction Hc; reflexivity | ].
  destruct (Ascii.eqb_spec "d" c) as [<- | _]; [right; left; auto | ].
  destruct (Ascii.eqb_spec "p" c) as [<- | _]; [right; left; auto | ].
  auto.
Qed.

Lemma scan_cluster_handled (cl : string) :
  Forall (fun r => handled r \/ exists c k, r = OptBad c k) (fst (scan_cluster cl)) /\
  (snd (scan_cluster cl) = None \/
   snd (scan_cluster cl) = Some "K"%char \/
   snd (scan_cluster cl) = Some "d"%char \/
   snd (scan_cluster cl) = Some "p"%char).
Proof.
  induction cl as [ | c rest IH]; cbn [scan_cluster].
  - cbn [fst snd]. split; [constructor | left; reflexivity].
  - destruct (lookup_opt_cases c) as [ [-> ->] | [ [-> Hc] | ->] ].
    + destruct (scan_cluster rest) as [rs p]. cbn [fst snd] in *.
      destruct IH as [IH1 IH2]. split; [ | exact IH2].
      constructor; [left; left; reflexivity | exact IH1].
    + destruct rest as [ | c' rest'].
      * cbn [fst snd]. split; [constructor | ]. destruct Hc as [-> | [-> | ->] ]; auto.
      * cbn [fst snd]. split; [ | auto].
        constructor; [ | constructor]. left. right.
        exists (String c' rest'). destruct Hc as [-> | [-> | ->] ]; auto.
    + destruct (scan_cluster rest) as [rs p]. cbn [fst snd] in *.
      destruct IH as [IH1 IH2]. split; [ | exact IH2].
      constructor; [right; eauto | exact IH1].
Qed.

Lemma getopt_all_handled (args : list string) :
  forall optind pending,
    (pending = None \/ pending = Some "K"%char \/
     pending = Some "d"%char \/ pending = Some "p"%char) ->
    Forall (fun r => handled r \/ exists c k, r = OptBad c k)
      (fst (getopt_all args optind pending)).
Proof.
  induction args as [ | a rest IH]; intros optind pending Hp; cbn [getopt_all].
  - destruct pending; cbn [fst]; [ | constructor].
    constructor; [right; eauto | constructor].
  - destruct pending as [c | ].
    + specialize (IH (S optind) None (or_introl eq_refl)).
      destruct (getopt_all rest (S optind) None) as [rs k]. cbn [fst] in *.
      constructor; [ | exact IH]. left. right. exists a.
      destruct Hp as [Hp | [Hp | [Hp | Hp] ] ]; inversion Hp; auto.
    + destruct a as [ | c [ | c' body] ]; try (cbn [fst]; constructor).
      destruct (negb (Ascii.eqb c "-")); [cbn [fst]; constructor | ].
      destruct (String.eqb (String c' body) "-"); [cbn [fst]; constructor | ].
      pose proof (scan_cluster_handled (String c' body)) as [S1 S2].
      destruct (scan_cluster (String c' body)) as [rs1 p]. cbn [fst snd] in *.
      specialize (IH (S optind) p S2).
      destruct (getopt_all rest (S optind) p) as [rs2 k]. cbn [fst] in *.
      apply Forall_app. auto.
Qed.

(** When the loop goes through it has written nothing. *)
Lemma option_loop_quiet (name : string) (rets : list getopt_ret) :
  forall cfg t cfg', option_loop name rets cfg = (t, inl cfg') -> t = [].
Proof.
  induction rets as [ | [opt | opt optarg | opt missing] rets IH]; intros cfg t cfg' H;
    cbn [option_loop] in H.
  - injection H as <- _. reflexivity.
  - destruct (Ascii.eqb opt "v"); [exact (IH _ _ _ H) | discriminate H].
  - destruct (Ascii.eqb opt "K"); [exact (IH _ _ _ H) | ].
    destruct (Ascii.eqb opt "d"); [exact (IH _ _ _ H) | ].
    destruct (Ascii.eqb opt "p"); [exact (IH _ _ _ H) | discriminate H].
  - discriminate H.
Qed.

(** The loop goes through, or it stops at the first ['?'] with the
    diagnostic of [getopt] and the usage on the error stream. *)
Lemma option_loop_cases (name : string) (rets : list getopt_ret) :
  Forall (fun r => handled r \/ exists c k, r = OptBad c k) rets ->
  forall cfg,
    ((forall c k, ~ In (OptBad c k) rets) /\
     exists cfg', option_loop name rets cfg = ([], inl cfg')) \/
    (exists c k,
       In (OptBad c k) rets /\
       option_loop name rets cfg =
         ([EvPrint stderr (getopt_message name c k);
           EvPrint stderr (usage_message name)], inr (Exit 1))).
Proof.
  induction 1 as [ | r rets Hr _ IH]; intros cfg.
  - left. split; [intros c k [] | exists cfg; reflexivity].
  - destruct Hr as [ [-> | (optarg & [-> | [-> | ->] ]) ] | (c & k & ->)];
      cbn [option_loop]; rewrite ?Ascii.eqb_refl; cbn [Ascii.eqb Bool.eqb];
      try (match goal with
           | |- context [option_loop name rets ?cfg2] =>
               destruct (IH cfg2) as [ [Hno (cfg' & E)] | (c & k & Hin & E)];
               [left; split;
                 [intros c k [Ebad | Hin]; [discriminate Ebad | exact (Hno c k Hin)]
                 | exists cfg'; exact E]
               | right; exists c, k; split; [right; exact Hin | exact E] ]
           end).
    right. exists c, k. split; [left; reflexivity | reflexivity].
Qed.

Lemma parse_options_Some (argv : list string) (cfg : config) (optind : nat) :
  parse_options argv = Some (cfg, optind) <->
  read_options argv = ([], inl (cfg, optind)).
Proof.
  unfold parse_options, read_options.
  destruct (getopt_all (List.tl argv) 1 None) as [rets k].
  destruct (option_loop (nth O argv EmptyString) rets default_config)
    as [t [cfg' | o] ] eqn:E; cbn [bind ret snd].
  - apply option_loop_quiet in E. subst t. cbn [app].
    split; intros H; injection H as <- <-; reflexivity.
  - split; intros H; discriminate H.
Qed.

(** What [parse_options] returns, in terms of the loop. *)
Lemma parse_options_loop (argv : list string) (cfg : config) (optind : nat) :
  parse_options argv = Some (cfg, optind) <->
  option_loop (nth O argv EmptyString) (fst (getopt_all (List.tl argv) 1 None))
    default_config = ([], inl cfg) /\
  snd (getopt_all (List.tl argv) 1 None) = optind.
Proof.
  rewrite parse_options_Some. unfold read_options.
  destruct (getopt_all (List.tl argv) 1 None) as [rets k]. cbn [fst snd].
  destruct (option_loop (nth O argv EmptyString) rets default_config)
    as [t [cfg' | o] ] eqn:E; cbn [bind ret].
  - apply option_loop_quiet in E. subst t. cbn [app].
    split.
    + intros H. injection H as <- <-. auto.
    + intros [H <-]. injection H as <-. reflexivity.
  - split; [intros H; discriminate H | intros [H _]; discriminate H].
Qed.

(** Once the options are read the run is the one of [run_config]. *)
Lemma main_parsed fuel w argv cfg optind :
  parse_options argv = Some (cfg, optind) ->
  main fuel w argv = finish (run_config fuel w argv cfg optind).
Proof.
  intros H. apply parse_options_Some in H. unfold main. rewrite H.
  cbn [bind fst snd]. destruct (run_config fuel w argv cfg optind) as [t r].
  reflexivity.
Qed.

(** A run that stops in the option loop does not depend on the fuel or on
    the world. *)
Lemma main_stopped fuel w argv :
  parse_options argv = None ->
  main fuel w argv = finish (r <- read_options argv ;; ret 0).
Proof.
  unfold parse_options, main.
  destruct (read_options argv) as [t [r | o] ]; cbn [snd bind];
    [intros H; discriminate H | reflexivity].
Qed.


(** ** Runs that stop before any dataset is loaded *)

(** A run that stops in the option loop: [getopt] has written its
    diagnostic and [main] the usage. *)
Lemma main_usage fuel w argv :
  parse_options argv = None ->
  exists c k,
    In (OptBad c k) (fst (getopt_all (List.tl argv) 1 None)) /\
    main fuel w argv =
      ([EvPrint stderr (getopt_message (nth O argv EmptyString) c k);
        EvPrint stderr (usage_message (nth O argv EmptyString))], Exit 1).
Proof.
  intros Hp. rewrite (main_stopped fuel w argv Hp).
  pose proof (getopt_all_handled (List.tl argv) 1 None (or_introl eq_refl)) as H.
  unfold parse_options, read_options in *.
  destruct (getopt_all (List.tl argv) 1 None) as [rets k]. cbn [fst] in *.
  destruct (option_loop_cases (nth O argv EmptyString) rets H default_config)
    as [ [Hno (cfg' & E)] | (c & k' & Hin & E)]; rewrite E in *;
    cbn [bind ret snd app] in *.
  - discriminate Hp.
  - exists c, k'. split; [exact Hin | reflexivity].
Qed.

Lemma main_no_files fuel w argv cfg optind :
  parse_options argv = Some (cfg, optind) ->
  (List.length argv <= optind)%nat ->
  main fuel w argv = ([EvPrint stderr files_message], Exit 1).
Proof.
  intros H Hle. rewrite (main_parsed fuel w argv cfg optind H). unfold run_config.
  destruct (Nat.leb_spec (List.length argv) optind); [reflexivity | lia].
Qed.

Lemma main_bad_metric fuel w argv cfg optind :
  parse_options argv = Some (cfg, optind) ->
  (optind < List.length argv)%nat ->
  select_metric (dist_metric cfg) = None ->
  main fuel w argv = ([EvPrint stderr metric_message], Exit 1).
Proof.
  intros H Hlt Hm. rewrite (main_parsed fuel w argv cfg optind H). unfold run_config.
  destruct (Nat.leb_spec (List.length argv) optind); [lia | ].
  rewrite Hm. reflexivity.
Qed.

(** C2, as the code has it.  The comparison is [strncmp] over the length of
    the argument, so it keeps letter case: an initial substring of
    ["euclidean"], the empty string included, selects the Euclidean metric;
    any other initial substring of ["cosine"] selects the cosine metric; for
    every other string no metric is selected, and [main] prints one message
    on the error stream and exits with status 1. *)
Theorem metric_selection (s : string) :
  nul_free s = true ->
  (String.prefix s "euclidean" = true -> select_metric s = Some distance_euclidean) /\
  (String.prefix s "euclidean" = false -> String.prefix s "cosine" = true ->
   select_metric s = Some distance_cosine) /\
  (String.prefix s "euclidean" = false -> String.prefix s "cosine" = false ->
   select_metric s = None /\
   forall fuel w argv cfg optind,
     parse_options argv = Some (cfg, optind) ->
     dist_metric cfg = s ->
     (optind < List.length argv)%nat ->
     main fuel w argv = ([EvPrint stderr metric_message], Exit 1)).
Proof.
  intros Hs. rewrite (select_metric_prefix s Hs).
  split; [intros -> ; reflexivity | split].
  - intros -> ->. reflexivity.
  - intros He Hc. rewrite He, Hc. split; [reflexivity | ].
    intros fuel w argv cfg optind Hp Hd Hlt.
    apply (main_bad_metric fuel w argv cfg optind Hp Hlt).
    rewrite Hd, (select_metric_prefix s Hs), He, Hc. reflexivity.
Qed.

Lemma metric_selection_witness :
  nul_free "cos" = true /\
  select_metric "cos" = Some distance_cosine /\
  main 1 (calm_world 4 1) ["classifier"; "-d"; "manhattan"; "train"; "test"]
    = ([EvPrint stderr metric_message], Exit 1).
Proof.
  split; [reflexivity | split].
  - apply (metric_selection "cos"); reflexivity.
  - apply (metric_selection "manhattan") with
      (cfg := {| K := 1; dist_metric := "manhattan"; num_procs := 1; verbose := 0 |})
      (optind := 3%nat); try reflexivity.
    cbn. lia.
Defined.

(** C2 as worded fails twice: the upper-case ["EUCL"] is an initial substring
    of ["euclidean"] up to letter case and is rejected, and the empty string
    is accepted as the Euclidean metric, the run going on to load the
    datasets. *)
Lemma metric_selection_keeps_case :
  String.prefix (lower "EUCL") "euclidean" = true /\
  select_metric "EUCL" = None /\
  main 1 (calm_world 4 1) ["classifier"; "-d"; "EUCL"; "train"; "test"]
    = ([EvPrint stderr metric_message], Exit 1) /\
  select_metric EmptyString = Some distance_euclidean /\
  snd (main 1 (calm_world 4 1) ["classifier"; "-d"; EmptyString; "train"; "test"])
    = Exit 0.
Proof. repeat split; reflexivity. Qed.




(** C7.  When the argument of [-d] is an initial substring of neither
    ["euclidean"] nor ["cosine"], [main] exits with status 1 after one
    message on the error stream, and [load_dataset] has not been called. *)
Theorem unmatched_metric_precedes_load (fuel : nat) (w : world) (argv : list string)
    (cfg : config) (optind : nat) :
  parse_options argv = Some (cfg, optind) ->
  nul_free (dist_metric cfg) = true ->
  String.prefix (dist_metric cfg) "euclidean" = false ->
  String.prefix (dist_metric cfg) "cosine" = false ->
  exists message,
    main fuel w argv = ([EvPrint stderr message], Exit 1) /\
    Forall (fun e => is_load e = false) (fst (main fuel w argv)) /\
    stdout_of (fst (main fuel w argv)) = [].
Proof.
  intros Hp Hn He Hc.
  assert (Hm : select_metric (dist_metric cfg) = None).
  { rewrite (select_metric_prefix _ Hn), He, Hc. reflexivity. }
  destruct (Nat.leb_spec (List.length argv) optind) as [Hle | Hlt].
  - exists files_message.
    rewrite (main_no_files fuel w argv cfg optind Hp Hle). cbn. repeat constructor.
  - exists metric_message.
    rewrite (main_bad_metric fuel w argv cfg optind Hp Hlt Hm). cbn. repeat constructor.
Qed.

Lemma unmatched_metric_precedes_load_witness :
  main 1 (calm_world 4 1) ["classifier"; "-d"; "manhattan"; "train"; "test"]
    = ([EvPrint stderr metric_message], Exit 1).
Proof.
  destruct (unmatched_metric_precedes_load 1 (calm_world 4 1)
              ["classifier"; "-d"; "manhattan"; "train"; "test"]
              {| K := 1; dist_metric := "manhattan"; num_procs := 1; verbose := 0 |} 3%nat)
    as (message & H & _); try reflexivity.
Defined.

(** ** Where an event sits in a trace *)

Lemma split_nil {X : Type} (x : X) (pre post : list X) : [] = pre ++ x :: post -> False.
Proof. destruct pre; discriminate. Qed.

Lemma split_cons {X : Type} (a x : X) (l pre post : list X) :
  a :: l = pre ++ x :: post ->
  (pre = [] /\ a = x /\ l = post) \/
  (exists pre', pre = a :: pre' /\ l = pre' ++ x :: post).
Proof.
  destruct pre as [ | b pre]; cbn; intros H; inversion H; subst.
  - left. auto.
  - right. exists pre. auto.
Qed.

Lemma split_app {X : Type} (x : X) (l1 l2 pre post : list X) :
  l1 ++ l2 = pre ++ x :: post ->
  (exists post1, l1 = pre ++ x :: post1 /\ post = post1 ++ l2) \/
  (exists pre2, pre = l1 ++ pre2 /\ l2 = pre2 ++ x :: post).
Proof.
  revert pre. induction l1 as [ | a l1 IH]; intros pre H; cbn in H.
  - right. exists pre. auto.
  - apply split_cons in H. destruct H as [(-> & -> & <-) | (pre' & -> & H)].
    + left. exists l1. auto.
    + destruct (IH pre' H) as [(post1 & -> & ->) | (pre2 & -> & ->)].
      * left. exists post1. auto.
      * right. exists pre2. auto.
Qed.

(** An event of class [P] inside [l1 ++ l2], when nothing in [l1] is of
    that class, sits in [l2]. *)
Lemma split_app_class {X : Type} (P : X -> bool) (x : X) (l1 l2 pre post : list X) :
  Forall (fun e => P e = false) l1 -> P x = true ->
  l1 ++ l2 = pre ++ x :: post ->
  exists pre2, pre = l1 ++ pre2 /\ l2 = pre2 ++ x :: post.
Proof.
  intros Hl1 Hx H. apply split_app in H.
  destruct H as [(post1 & -> & ->) | H]; [ | exact H].
  destruct (proj1 (Forall_app _ _ _) Hl1) as [_ Hl1']. inversion Hl1'; subst. congruence.
Qed.

Ltac find_event H :=
  repeat (apply split_cons in H;
          destruct H as [(-> & H & <-) | (? & -> & H)];
          [ try discriminate H | ]);
  try (apply split_nil in H; contradiction).

(** ** One worker *)

Lemma spawn_worker_ok w cfg m i s N t :
  spawn_worker w cfg m i s N = (t, inl tt) -> t = worker_events cfg m i s N.
Proof.
  unfold spawn_worker, write_int, checked, perror_exit, exit, stop, emit, ret.
  cbn [bind app].
  repeat (match goal with
          | |- context [sys_ok w i ?c] => destruct (sys_ok w i c); cbn [bind app]
          end);
    intros H; inversion H; reflexivity.
Qed.

Lemma spawn_worker_fork w cfg m i s N t r pre j K0 m0 inbox post :
  spawn_worker w cfg m i s N = (t, r) ->
  t = pre ++ EvFork j K0 m0 inbox :: post ->
  j = i /\ K0 = K cfg /\ m0 = m /\
  inbox = {| buffered := [s; N]; write_open := false |} /\
  pre = [EvPipe i c_to_p; EvPipe i p_to_c;
         EvWrite i s; EvWrite i N; EvClose i p_to_c write_end].
Proof.
  unfold spawn_worker, write_int, checked, perror_exit, exit, stop, emit, ret.
  cbn [bind app].
  repeat (match goal with
          | |- context [sys_ok w i ?c] => destruct (sys_ok w i c); cbn [bind app]
          end);
    intros H E; rewrite E in H; clear E; injection H as E _;
    find_event E; inversion E; subst; auto.
Qed.

(** ** The dispatch loop *)

Lemma lift_eq {A : Type} (v : option A) (t : list event) (r : A + outcome) :
  lift v = (t, r) ->
  t = [] /\ ((exists a, v = Some a /\ r = inl a) \/ (v = None /\ r = inr Undefined)).
Proof.
  destruct v as [a | ]; cbn; intros H; inversion H; subst; split; auto.
  left. exists a. auto.
Qed.

(** When the loop completes, every worker from [i] on was forked with its
    two integers in its pipe. *)
Lemma dispatch_ok w cfg m T b n :
  forall i s td,
    dispatch w cfg m T b n i s = (td, inl tt) ->
    forall j, (i <= j < i + n)%nat ->
    exists start N,
      In (EvWrite j start) td /\ In (EvWrite j N) td /\
      In (EvFork j (K cfg) m {| buffered := [start; N]; write_open := false |}) td.
Proof.
  induction n as [ | n IH]; intros i s td H j Hj; [lia | ].
  cbn [dispatch] in H.
  apply bind_eq in H.
  destruct H as [(t1 & N & t2 & Hm & H & ->) | (o & _ & Hr)]; [ | discriminate].
  apply lift_eq in Hm. destruct Hm as (-> & [(N' & HN & E) | (_ & E)]); [ | discriminate].
  injection E as ->.
  apply bind_eq in H.
  destruct H as [(t1 & [] & t3 & Hm & H & ->) | (o & _ & Hr)]; [ | discriminate].
  apply spawn_worker_ok in Hm. subst t1.
  destruct (Nat.eq_dec j i) as [-> | Hne].
  - exists s, N'. cbn. repeat split; auto 10.
  - destruct (IH (S i) (CInt.add s N') t3 H j ltac:(lia)) as (start & N2 & H1 & H2 & H3).
    exists start, N2. cbn [app].
    repeat split; apply in_or_app; right; assumption.
Qed.

(** Whenever [fork] is called, for worker [j], two integers have just been
    written to its pipe and the write end closed. *)
Lemma dispatch_fork w cfg m T b n :
  forall i s td rd pre j K0 m0 inbox post,
    dispatch w cfg m T b n i s = (td, rd) ->
    td = pre ++ EvFork j K0 m0 inbox :: post ->
    exists start N pre',
      pre = pre' ++ [EvWrite j start; EvWrite j N; EvClose j p_to_c write_end] /\
      inbox = {| buffered := [start; N]; write_open := false |} /\
      K0 = K cfg /\ m0 = m /\ (i <= j < i + n)%nat.
Proof.
  induction n as [ | n IH]; intros i s td rd pre j K0 m0 inbox post H E.
  - cbn in H. injection H as Ht _. rewrite E in Ht. apply split_nil in Ht. contradiction.
  - cbn [dispatch] in H.
    apply bind_eq in H.
    destruct H as [(t1 & N & t2 & Hm & H & Ht) | (o & Hm & _)].
    2:{ apply lift_eq in Hm. destruct Hm as (Hnil & _). rewrite Hnil in E.
        apply split_nil in E. contradiction. }
    apply lift_eq in Hm. destruct Hm as (-> & _). cbn [app] in Ht. subst t2.
    assert (First :
      forall t r post1, spawn_worker w cfg m i s N = (t, r) ->
        t = pre ++ EvFork j K0 m0 inbox :: post1 ->
        exists start N pre',
          pre = pre' ++ [EvWrite j start; EvWrite j N; EvClose j p_to_c write_end] /\
          inbox = {| buffered := [start; N]; write_open := false |} /\
          K0 = K cfg /\ m0 = m /\ (i <= j < i + S n)%nat).
    { intros t r post1 Hs Et.
      destruct (spawn_worker_fork _ _ _ _ _ _ _ _ _ _ _ _ _ _ Hs Et)
        as (-> & -> & -> & -> & ->).
      exists s, N, [EvPipe i c_to_p; EvPipe i p_to_c].
      repeat split; auto; lia. }
    apply bind_eq in H.
    destruct H as [(t1 & [] & t3 & Hm & H & Ht) | (o & Hm & _)].
    + rewrite Ht in E. apply split_app in E.
      destruct E as [(post1 & E & _) | (pre2 & -> & E)].
      * exact (First _ _ _ Hm E).
      * destruct (IH _ _ _ _ _ _ _ _ _ _ H E)
          as (start & N2 & pre' & -> & -> & -> & -> & Hj).
        exists start, N2, (t1 ++ pre').
        rewrite app_assoc.
        repeat split; auto; lia.
    + exact (First _ _ _ Hm E).
Qed.

(** For a number of workers and of test items in range, the two integers
    are those of the planner for worker [j]. *)
Lemma dispatch_fork_planner w cfg m T n :
  0 <= T <= CInt.INT_MAX -> 1 <= num_procs cfg <= CInt.INT_MAX ->
  forall i td rd pre j K0 m0 inbox post,
    Z.of_nat (i + n) <= num_procs cfg ->
    dispatch w cfg m T (T mod num_procs cfg) n i
      (planner_start T (num_procs cfg) (Z.of_nat i)) = (td, rd) ->
    td = pre ++ EvFork j K0 m0 inbox :: post ->
    inbox = {| buffered := [planner_start T (num_procs cfg) (Z.of_nat j);
                            planner_len T (num_procs cfg) (Z.of_nat j)];
               write_open := false |}.
Proof.
  intros HT Hp.
  induction n as [ | n IH]; intros i td rd pre j K0 m0 inbox post Hin H E.
  - cbn in H. injection H as Ht _. rewrite E in Ht. apply split_nil in Ht. contradiction.
  - cbn [dispatch] in H. rewrite partition_len_planner in H by lia.
    cbn [lift] in H. unfold ret in H. cbn [bind] in H.
    destruct (spawn_worker w cfg m i (planner_start T (num_procs cfg) (Z.of_nat i))
                (planner_len T (num_procs cfg) (Z.of_nat i))) as [t1 r1] eqn:Hs.
    assert (First : forall post1, t1 = pre ++ EvFork j K0 m0 inbox :: post1 ->
              inbox = {| buffered := [planner_start T (num_procs cfg) (Z.of_nat j);
                                      planner_len T (num_procs cfg) (Z.of_nat j)];
                         write_open := false |}).
    { intros post1 Et.
      destruct (spawn_worker_fork _ _ _ _ _ _ _ _ _ _ _ _ _ _ Hs Et)
        as (-> & _ & _ & -> & _). reflexivity. }
    destruct r1 as [ [] | o1]; cbn [bind] in H.
    + assert (Hnext : CInt.add (planner_start T (num_procs cfg) (Z.of_nat i))
                        (planner_len T (num_procs cfg) (Z.of_nat i))
                      = planner_start T (num_procs cfg) (Z.of_nat (S i))).
      { unfold CInt.add. rewrite <- planner_start_succ.
        replace (Z.of_nat i + 1) with (Z.of_nat (S i)) by lia.
        apply wrap_small.
        pose proof (planner_start_bounds T (num_procs cfg) (Z.of_nat (S i))).
        unfold CInt.INT_MIN, CInt.INT_MAX in *. lia. }
      rewrite Hnext in H.
      destruct (dispatch w cfg m T (T mod num_procs cfg) n (S i)
                  (planner_start T (num_procs cfg) (Z.of_nat (S i)))) as [t3 r3] eqn:Hd.
      injection H as Ht _. cbn [app] in Ht. rewrite <- Ht in E.
      apply split_app in E.
      destruct E as [(post1 & E & _) | (pre2 & -> & E)].
      * exact (First _ E).
      * apply (IH (S i) t3 r3 pre2 j K0 m0 inbox post); [lia | exact Hd | exact E].
    + injection H as Ht _. cbn [app] in Ht. rewrite <- Ht in E. exact (First _ E).
Qed.

(** ** Collection, reaping and the report *)

Lemma when_verbose_print cfg f text :
  when_verbose cfg (print f text) = (verbose_ev cfg f text, inl tt).
Proof. unfold when_verbose, verbose_ev. destruct (verbose cfg =? 0); reflexivity. Qed.

(** The read loop returns the one integer that arrived whole. *)
Lemma read_count_ok fuel w i :
  forall j t c, read_count fuel w i j = (t, inl c) -> counts_of t = [c].
Proof.
  induction fuel as [ | fuel IH]; intros j t c H; cbn [read_count] in H.
  - discriminate.
  - unfold emit in H. cbn [bind] in H.
    destruct (num_read (sys_read w i j) =? 4) eqn:E4.
    + cbn in H. injection H as <- <-. cbn. rewrite E4. reflexivity.
    + destruct (num_read (sys_read w i j) =? -1).
      * cbn in H. discriminate.
      * destruct (read_count fuel w i (S j)) as [t' r'] eqn:Er.
        injection H as <- ->. cbn. rewrite E4. cbn. exact (IH _ _ _ Er).
Qed.

Lemma counts_of_app t1 t2 : counts_of (t1 ++ t2) = counts_of t1 ++ counts_of t2.
Proof. apply flat_map_app. Qed.

Lemma stdout_of_app t1 t2 : stdout_of (t1 ++ t2) = stdout_of t1 ++ stdout_of t2.
Proof. apply flat_map_app. Qed.

Lemma stderr_of_app t1 t2 : stderr_of (t1 ++ t2) = stderr_of t1 ++ stderr_of t2.
Proof. apply flat_map_app. Qed.

Lemma checked_ok w i c e what t :
  checked w i c e what = (t, inl tt) -> t = [e].
Proof.
  unfold checked, emit. cbn [bind]. destruct (sys_ok w i c); cbn; intros H; inversion H.
  reflexivity.
Qed.

(** The total is the sum, in [int] arithmetic, of the integers read. *)
Lemma collect_total fuel w n :
  forall i acc tc total,
    collect fuel w n i acc = (tc, inl total) ->
    total = fold_left CInt.add (counts_of tc) acc /\
    List.length (counts_of tc) = n.
Proof.
  induction n as [ | n IH]; intros i acc tc total H; cbn [collect] in H.
  - injection H as <- <-. split; reflexivity.
  - apply bind_eq in H.
    destruct H as [(t1 & c & t2 & Hm & H & ->) | (o & _ & Hr)]; [ | discriminate].
    apply bind_eq in H.
    destruct H as [(t3 & [] & t4 & Hc & H & ->) | (o & _ & Hr)]; [ | discriminate].
    apply read_count_ok in Hm. apply checked_ok in Hc. subst t3.
    destruct (IH _ _ _ _ H) as [-> Hlen].
    rewrite !counts_of_app, Hm. cbn. split; [reflexivity | lia].
Qed.

(** When the reaping loop completes, [wait] never failed and reported no
    worker as having exited with status 1. *)
Lemma reap_ok w n :
  forall i tw,
    reap w n i = (tw, inl tt) ->
    (forall j, (i <= j < i + n)%nat ->
       0 <= wait_pid (sys_wait w j) /\ exited_with_1 (sys_wait w j) = false) /\
    tw = map (fun j => EvWait (sys_wait w j)) (seq i n).
Proof.
  induction n as [ | n IH]; intros i tw H; cbn [reap] in H.
  - injection H as <-. split; [intros j Hj; lia | reflexivity].
  - unfold emit in H. cbn [bind] in H.
    destruct (Z.ltb_spec (wait_pid (sys_wait w i)) 0) as [Hneg | Hpos].
    { cbn in H. discriminate. }
    fold (exited_with_1 (sys_wait w i)) in H.
    destruct (exited_with_1 (sys_wait w i)) eqn:Ex.
    { cbn in H. discriminate. }
    destruct (reap w n (S i)) as [t' r'] eqn:Er.
    injection H as <- ->.
    destruct (IH _ _ Er) as [Hall ->].
    split; [ | reflexivity].
    intros j Hj. destruct (Nat.eq_dec j i) as [-> | Hne]; [auto | apply Hall; lia].
Qed.

Lemma gather_ok fuel w cfg n t v :
  gather fuel w cfg n = (t, inl v) ->
  v = 0 /\
  exists tc total tw,
    collect fuel w n O 0 = (tc, inl total) /\
    reap w n O = (tw, inl tt) /\
    t = tc ++ verbose_ev cfg stdout banner_waiting ++ tw
          ++ verbose_ev cfg stdout (banner_total total)
          ++ [EvPrint stdout (total_line total)].
Proof.
  unfold gather. intros H.
  apply bind_eq in H.
  destruct H as [(tc & total & t2 & Hc & H & ->) | (o & _ & Hr)]; [ | discriminate].
  rewrite when_verbose_print in H. cbn [bind] in H.
  destruct (reap w n O) as [tw [ [] | o] ] eqn:Er; cbn [bind] in H; [ | discriminate].
  rewrite when_verbose_print in H. cbn [bind print emit ret] in H.
  injection H as <- <-.
  split; [reflexivity | ].
  exists tc, total, tw. repeat split; auto.
Qed.

(** A run that fails while gathering has printed no total. *)
Lemma gather_failed fuel w cfg n t o :
  gather fuel w cfg n = (t, inr o) -> incl (stdout_of t) [banner_waiting].
Proof.
  unfold gather. intros H.
  apply bind_eq in H.
  destruct H as [(tc & total & t2 & Hc & H & ->) | (o' & Hc & _)].
  - pose proof (collect_traced fuel w n O 0) as Tc. unfold traced in Tc.
    rewrite Hc in Tc. cbn [fst] in Tc.
    rewrite when_verbose_print in H. cbn [bind] in H.
    destruct (reap w n O) as [tw [ [] | o'] ] eqn:Er; cbn [bind] in H.
    + rewrite when_verbose_print in H. cbn [bind print emit ret] in H. discriminate.
    + injection H as <- _.
      pose proof (reap_traced w n O) as Tw. unfold traced in Tw.
      rewrite Er in Tw. cbn [fst] in Tw.
      rewrite !stdout_of_app.
      unfold stdout_of at 1. rewrite (flat_map_class collect_event) by
        (auto; intros [ ] He; try discriminate He; reflexivity).
      unfold stdout_of at 2. rewrite (flat_map_class reap_event) by
        (auto; intros [ [] | | | | | | | | ] He; try discriminate He; reflexivity).
      rewrite app_nil_r. cbn [app]. unfold verbose_ev.
      destruct (verbose cfg =? 0); cbn; intros x Hx; [contradiction | exact Hx].
  - pose proof (collect_traced fuel w n O 0) as Tc. unfold traced in Tc.
    rewrite Hc in Tc. cbn [fst] in Tc.
    unfold stdout_of. rewrite (flat_map_class collect_event) by
      (auto; intros [ ] He; try discriminate He; reflexivity).
    intros x Hx. contradiction.
Qed.

(** ** The phases of a run *)

(** The trace of [coordinate] is the trace of the dispatch loop followed,
    when that loop completes, by the trace of [gather]. *)
Lemma coordinate_shape fuel w cfg m testing tr r :
  coordinate fuel w cfg m testing = (tr, r) ->
  exists td rest,
    tr = verbose_ev cfg stdout banner_creating ++ td ++ rest /\
    ((td = [] /\ rest = [] /\ r = inr Undefined /\
      (CInt.mul (num_procs cfg) 2 <= 0 \/
       CInt.rem (num_items testing) (num_procs cfg) = None)) \/
     (exists boundary rd,
        0 < CInt.mul (num_procs cfg) 2 /\
        CInt.rem (num_items testing) (num_procs cfg) = Some boundary /\
        dispatch w cfg m (num_items testing) boundary
          (Z.to_nat (num_procs cfg)) O 0 = (td, rd) /\
        ((exists o, rd = inr o /\ rest = [] /\ r = inr o) \/
         (rd = inl tt /\ gather fuel w cfg (Z.to_nat (num_procs cfg)) = (rest, r))))).
Proof.
  unfold coordinate. rewrite when_verbose_print. cbn [bind]. intros H.
  destruct (Z.ltb_spec 0 (CInt.mul (num_procs cfg) 2)) as [Hpos | Hneg].
  2:{ cbn in H. injection H as <- <-. exists [], []. split; [reflexivity | ].
      left. auto. }
  cbn [bind ret app] in H.
  destruct (CInt.rem (num_items testing) (num_procs cfg)) as [boundary | ] eqn:Eb.
  2:{ cbn in H. injection H as <- <-. exists [], []. split; [reflexivity | ].
      left. auto. }
  cbn [lift bind ret app] in H.
  destruct (dispatch w cfg m (num_items testing) boundary (Z.to_nat (num_procs cfg)) O 0)
    as [td [ [] | o] ] eqn:Ed; cbn [bind] in H.
  - destruct (gather fuel w cfg (Z.to_nat (num_procs cfg))) as [rest r'] eqn:Eg.
    injection H as <- <-.
    exists td, rest. split; [cbn [app]; rewrite ?app_nil_r; reflexivity | ].
    right. exists boundary, (inl tt). auto 10.
  - injection H as <- <-.
    exists td, []. split; [cbn [app]; rewrite ?app_nil_r; reflexivity | ].
    right. exists boundary, (inr o). repeat split; auto. left. exists o. auto.
Qed.

Lemma load_eq w path t r :
  load w path = (t, r) ->
  (exists d, load_dataset w path = Some d /\ t = [EvLoad path] /\ r = inl d) \/
  (load_dataset w path = None /\
   t = [EvLoad path; EvPrint stderr (load_message path)] /\ r = inr (Exit 1)).
Proof.
  unfold load, print, emit. cbn [bind].
  destruct (load_dataset w path) as [d | ]; cbn; intros H; injection H as <- <-.
  - left. exists d. auto.
  - right. auto.
Qed.

(** A run stops with status 1 before any worker exists, or loads both
    datasets and goes on with [coordinate]. *)
Lemma main_shape fuel w argv tr o :
  main fuel w argv = (tr, o) ->
  (o = Exit 1 /\ Forall (fun e => early_event e = true) tr) \/
  (exists cfg optind m training testing tq r,
     parse_options argv = Some (cfg, optind) /\
     (optind < List.length argv)%nat /\
     select_metric (dist_metric cfg) = Some m /\
     load_dataset w (nth_error argv optind) = Some training /\
     load_dataset w (nth_error argv (S optind)) = Some testing /\
     coordinate fuel w cfg m testing = (tq, r) /\
     tr = (verbose_ev cfg stderr banner_loading
             ++ [EvLoad (nth_error argv optind); EvLoad (nth_error argv (S optind))])
          ++ tq /\
     o = match r with inl v => Exit v | inr o' => o' end).
Proof.
  destruct (parse_options argv) as [ [cfg optind] | ] eqn:Ep.
  2:{ destruct (main_usage fuel w argv Ep) as (c & k & _ & E). rewrite E.
      intros H. injection H as <- <-. left. repeat constructor. }
  rewrite (main_parsed fuel w argv cfg optind Ep). unfold run_config.
  destruct (Nat.leb_spec (List.length argv) optind) as [Hle | Hlt].
  { cbn. intros H. injection H as <- <-. left. repeat constructor. }
  destruct (select_metric (dist_metric cfg)) as [m | ] eqn:Em.
  2:{ cbn. intros H. injection H as <- <-. left. repeat constructor. }
  rewrite when_verbose_print. cbn [bind].
  destruct (load w (nth_error argv optind)) as [t1 r1] eqn:E1.
  apply load_eq in E1.
  destruct E1 as [(training & L1 & -> & ->) | (L1 & -> & ->)].
  2:{ cbn. intros H. injection H as <- <-. left. split; [reflexivity | ].
      apply Forall_app. split; [ | repeat constructor].
      unfold verbose_ev. destruct (verbose cfg =? 0); repeat constructor. }
  cbn [bind].
  destruct (load w (nth_error argv (S optind))) as [t2 r2] eqn:E2.
  apply load_eq in E2.
  destruct E2 as [(testing & L2 & -> & ->) | (L2 & -> & ->)].
  2:{ cbn. intros H. injection H as <- <-. left. split; [reflexivity | ].
      apply Forall_app. split; [ | repeat constructor].
      unfold verbose_ev. destruct (verbose cfg =? 0); repeat constructor. }
  cbn [bind].
  destruct (coordinate fuel w cfg m testing) as [tq r] eqn:Ec.
  intros H. right.
  exists cfg, optind, m, training, testing, tq, r.
  repeat split; auto.
  - destruct r; cbn in H; injection H as <- _; rewrite <- !app_assoc; reflexivity.
  - destruct r; cbn in H; injection H as _ <-; reflexivity.
Qed.

(** ** The report (C3) *)

Lemma clean_bind {A B : Type} (m : M A) (k : A -> M B) :
  clean m -> (forall a, clean (k a)) -> clean (bind m k).
Proof.
  unfold clean. destruct m as [t1 [a | o] ]; cbn [bind fst snd]; intros H1 H2.
  - specialize (H2 a). destruct (k a) as [t2 r2]. cbn [fst snd] in *.
    intros b Hb. apply Forall_app. split; [apply (H1 a); reflexivity | apply (H2 b Hb)].
  - intros b Hb. discriminate.
Qed.

Lemma clean_ret {A : Type} (a : A) : clean (ret a).
Proof. intros b _. constructor. Qed.

Lemma clean_checked w i c e what : is_perror e = false -> clean (checked w i c e what).
Proof.
  intros He. unfold checked, emit. cbn [bind]. destruct (sys_ok w i c); cbn.
  - intros b _. repeat constructor. exact He.
  - intros b Hb. discriminate.
Qed.

Lemma spawn_worker_clean w cfg m i s N : clean (spawn_worker w cfg m i s N).
Proof.
  unfold spawn_worker, write_int.
  repeat (first [ apply clean_checked; reflexivity
                | apply clean_ret
                | apply clean_bind; [ | intros ? ] ]).
Qed.

Lemma dispatch_clean w cfg m T b n : forall i s, clean (dispatch w cfg m T b n i s).
Proof.
  induction n as [ | n IH]; intros i s; cbn [dispatch].
  - apply clean_ret.
  - apply clean_bind.
    + destruct (partition_len T (num_procs cfg) b (Z.of_nat i)); [apply clean_ret | ].
      intros a Ha. discriminate.
    + intros N. apply clean_bind; [apply spawn_worker_clean | intros _; apply IH].
Qed.

Lemma read_count_clean fuel w i : forall j, clean (read_count fuel w i j).
Proof.
  induction fuel as [ | fuel IH]; intros j; cbn [read_count].
  - intros a Ha. discriminate.
  - apply clean_bind; [intros a _; repeat constructor | intros _].
    destruct (num_read (sys_read w i j) =? 4); [apply clean_ret | ].
    destruct (num_read (sys_read w i j) =? -1); [intros a Ha; discriminate | apply IH].
Qed.

Lemma collect_clean fuel w n : forall i acc, clean (collect fuel w n i acc).
Proof.
  induction n as [ | n IH]; intros i acc; cbn [collect].
  - apply clean_ret.
  - apply clean_bind; [apply read_count_clean | intros c].
    apply clean_bind; [apply clean_checked; reflexivity | intros _; apply IH].
Qed.

Lemma silent_trace (t : list event) :
  Forall (fun e => silent e = true) t ->
  stdout_of t = [] /\ stderr_of t = [] /\ counts_of t = [].
Proof.
  intros H. repeat split.
  - apply (flat_map_class silent); [ | exact H].
    intros [ ] He; try discriminate He; reflexivity.
  - apply (flat_map_class silent); [ | exact H].
    intros [ ] He; try discriminate He; reflexivity.
  - apply (flat_map_class silent); [ | exact H].
    intros [ ] He; try discriminate He; reflexivity.
Qed.

Lemma unprinted_trace (t : list event) :
  Forall (fun e => collect_event e = true) t ->
  stdout_of t = [] /\ stderr_of t = [].
Proof.
  intros H. split.
  - apply (flat_map_class collect_event); [ | exact H].
    intros [ ] He; try discriminate He; reflexivity.
  - apply (flat_map_class collect_event); [ | exact H].
    intros [ ] He; try discriminate He; reflexivity.
Qed.

Lemma waits_silent w l :
  Forall (fun e => silent e = true) (map (fun j => EvWait (sys_wait w j)) l).
Proof. induction l; cbn; constructor; auto. Qed.

(** A run that ends with status 0 went through every phase. *)
Lemma main_success fuel w argv tr :
  main fuel w argv = (tr, Exit 0) ->
  exists cfg optind td tc tw total,
    parse_options argv = Some (cfg, optind) /\
    Forall (fun e => spawn_event e = true) td /\
    Forall (fun e => collect_event e = true) tc /\
    Forall (fun e => is_perror e = false) (td ++ tc) /\
    collect fuel w (Z.to_nat (num_procs cfg)) O 0 = (tc, inl total) /\
    reap w (Z.to_nat (num_procs cfg)) O = (tw, inl tt) /\
    tr = (verbose_ev cfg stderr banner_loading
            ++ [EvLoad (nth_error argv optind); EvLoad (nth_error argv (S optind))])
         ++ verbose_ev cfg stdout banner_creating ++ td
         ++ tc ++ verbose_ev cfg stdout banner_waiting ++ tw
         ++ verbose_ev cfg stdout (banner_total total)
         ++ [EvPrint stdout (total_line total)].
Proof.
  intros H. apply main_shape in H.
  destruct H as [ [H _] | (cfg & optind & m & training & testing & tq & r &
                            Hp & Hlt & Hm & L1 & L2 & Hc & -> & Ho) ]; [discriminate | ].
  pose proof (coordinate_stops fuel w cfg m testing) as Hs.
  unfold stops_in in Hs. rewrite Hc in Hs. cbn [snd] in Hs.
  destruct r as [v | o'].
  2:{ subst o'. specialize (Hs (Exit 0) eq_refl). discriminate. }
  apply coordinate_shape in Hc.
  destruct Hc as (td & rest & -> & [ (_ & _ & E & _) | (b & rd & Hpos & Hb & Hd & Hg) ]);
    [discriminate | ].
  destruct Hg as [ (o' & _ & _ & E) | (-> & Hg) ]; [discriminate | ].
  apply gather_ok in Hg. destruct Hg as (_ & tc & total & tw & Hcol & Hreap & ->).
  exists cfg, optind, td, tc, tw, total.
  repeat split; auto.
  - pose proof (dispatch_traced w cfg m (num_items testing) b (Z.to_nat (num_procs cfg)) O 0) as T.
    unfold traced in T. rewrite Hd in T. exact T.
  - pose proof (collect_traced fuel w (Z.to_nat (num_procs cfg)) O 0) as T.
    unfold traced in T. rewrite Hcol in T. exact T.
  - apply Forall_app. split.
    + pose proof (dispatch_clean w cfg m (num_items testing) b
                    (Z.to_nat (num_procs cfg)) O 0) as T.
      unfold clean in T. rewrite Hd in T. exact (T tt eq_refl).
    + pose proof (collect_clean fuel w (Z.to_nat (num_procs cfg)) O 0) as T.
      unfold clean in T. rewrite Hcol in T. exact (T total eq_refl).
Qed.

(** ** A result pipe at end of file (C4) *)

(** As long as [read] returns neither 4 nor -1 the loop of lines 230-239
    goes on: no amount of fuel brings it to an end. *)
Lemma read_count_spins fuel w i :
  (forall j, num_read (sys_read w i j) <> 4 /\ num_read (sys_read w i j) <> -1) ->
  forall j,
    read_count fuel w i j =
      (map (fun k => EvRead i (sys_read w i k)) (seq j fuel), inr Spinning).
Proof.
  intros Hr. induction fuel as [ | fuel IH]; intros j; cbn [read_count seq map].
  - reflexivity.
  - destruct (Hr j) as [H4 H1].
    apply Z.eqb_neq in H4. apply Z.eqb_neq in H1.
    unfold emit. cbn [bind]. rewrite H4, H1, IH. reflexivity.
Qed.

(** How a run goes on once both datasets are loaded. *)
Lemma main_loaded fuel w argv cfg optind m training testing :
  parse_options argv = Some (cfg, optind) ->
  (optind < List.length argv)%nat ->
  select_metric (dist_metric cfg) = Some m ->
  load_dataset w (nth_error argv optind) = Some training ->
  load_dataset w (nth_error argv (S optind)) = Some testing ->
  main fuel w argv =
    ((verbose_ev cfg stderr banner_loading
        ++ [EvLoad (nth_error argv optind); EvLoad (nth_error argv (S optind))])
       ++ fst (coordinate fuel w cfg m testing),
     match snd (coordinate fuel w cfg m testing) with
     | inl v => Exit v
     | inr o => o
     end).
Proof.
  intros Hp Hlt Hm L1 L2. rewrite (main_parsed fuel w argv cfg optind Hp).
  unfold run_config.
  destruct (Nat.leb_spec (List.length argv) optind); [lia | ].
  rewrite Hm, when_verbose_print. unfold load, emit. rewrite L1, L2. cbn [bind ret app].
  destruct (coordinate fuel w cfg m testing) as [tq [v | o] ]; cbn [finish fst snd];
    rewrite <- !app_assoc; reflexivity.
Qed.

(** How [coordinate] goes on once every worker is forked. *)
Lemma coordinate_dispatched fuel w cfg m testing boundary td :
  0 < CInt.mul (num_procs cfg) 2 ->
  CInt.rem (num_items testing) (num_procs cfg) = Some boundary ->
  dispatch w cfg m (num_items testing) boundary (Z.to_nat (num_procs cfg)) O 0
    = (td, inl tt) ->
  coordinate fuel w cfg m testing =
    (verbose_ev cfg stdout banner_creating ++ td
       ++ fst (gather fuel w cfg (Z.to_nat (num_procs cfg))),
     snd (gather fuel w cfg (Z.to_nat (num_procs cfg)))).
Proof.
  intros Hpos Hb Hd. unfold coordinate. rewrite when_verbose_print. cbn [bind].
  destruct (Z.ltb_spec 0 (CInt.mul (num_procs cfg) 2)); [ | lia].
  rewrite Hb. cbn [lift bind ret app]. rewrite Hd. cbn [bind].
  destruct (gather fuel w cfg (Z.to_nat (num_procs cfg))) as [rest r]. reflexivity.
Qed.

(** The first worker whose pipe never delivers keeps [gather] in its read
    loop. *)
Lemma gather_spins fuel w cfg n :
  (forall j, num_read (sys_read w O j) <> 4 /\ num_read (sys_read w O j) <> -1) ->
  gather fuel w cfg (S n) =
    (map (fun k => EvRead O (sys_read w O k)) (seq O fuel), inr Spinning).
Proof.
  intros Hr. unfold gather. cbn [collect].
  rewrite (read_count_spins fuel w O Hr). reflexivity.
Qed.

(** C4 at a worker that ended without writing its result: every [read] on
    its pipe returns 0, and the coordinator reads again, for ever.  It never
    exits, whatever the fuel, and [wait], which would report the worker's
    [exit(1)], is never called. *)
Theorem end_of_file_is_read_for_ever (fuel : nat) :
  main fuel (world_with 4 end_of_file (ends_with 256)) ["classifier"; "train"; "test"] =
    ([EvLoad (Some "train"); EvLoad (Some "test");
      EvPipe 0 c_to_p; EvPipe 0 p_to_c; EvWrite 0 0; EvWrite 0 4;
      EvClose 0 p_to_c write_end;
      EvFork 0 1 distance_euclidean {| buffered := [0; 4]; write_open := false |};
      EvClose 0 p_to_c read_end; EvClose 0 c_to_p write_end]
       ++ map (fun k => EvRead 0 {| num_read := 0; count := 0 |}) (seq O fuel),
     Spinning).
Proof.
  rewrite (main_loaded fuel _ _ default_config 1%nat distance_euclidean
             {| num_items := 4 |} {| num_items := 4 |});
    try reflexivity; [ | cbn; lia].
  rewrite (coordinate_dispatched fuel _ default_config distance_euclidean
             {| num_items := 4 |} 0
             [EvPipe 0 c_to_p; EvPipe 0 p_to_c; EvWrite 0 0; EvWrite 0 4;
              EvClose 0 p_to_c write_end;
              EvFork 0 1 distance_euclidean {| buffered := [0; 4]; write_open := false |};
              EvClose 0 p_to_c read_end; EvClose 0 c_to_p write_end]);
    try reflexivity.
  change (Z.to_nat (num_procs default_config)) with 1%nat.
  rewrite gather_spins by (intros j; cbn; lia).
  reflexivity.
Qed.

(** ** Workers that end badly (C5) *)

Lemma early_trace_stdout (t : list event) :
  Forall (fun e => early_event e = true) t -> stdout_of t = [].
Proof.
  intros H. apply (flat_map_class early_event); [ | exact H].
  intros [ [] | | | | | | | | ] He; try discriminate He; reflexivity.
Qed.

Lemma verbose_ev_stdout cfg text :
  incl (stdout_of (verbose_ev cfg stdout text)) [text].
Proof.
  unfold verbose_ev. destruct (verbose cfg =? 0); cbn; intros x Hx; [contradiction | exact Hx].
Qed.

Lemma verbose_ev_stderr_quiet cfg text : stdout_of (verbose_ev cfg stderr text) = [].
Proof. unfold verbose_ev. destruct (verbose cfg =? 0); reflexivity. Qed.

(** C5, as the code has it.  When [wait] reports, for one of the
    [num_procs] workers, a normal exit with status 1, the run does not end
    with status 0 and prints no total: if it exits at all, it is with
    status 1. *)
Theorem worker_exit_1_is_fatal (fuel : nat) (w : world) (argv : list string)
    (cfg : config) (optind : nat) (tr : list event) (o : outcome) (i : nat) :
  parse_options argv = Some (cfg, optind) ->
  (i < Z.to_nat (num_procs cfg))%nat ->
  exited_with_1 (sys_wait w i) = true ->
  main fuel w argv = (tr, o) ->
  bad_end o = true /\ incl (stdout_of tr) [banner_creating; banner_waiting].
Proof.
  intros Hp Hi Hx H. apply main_shape in H.
  destruct H as [ [-> Ht] | (cfg' & optind' & m & training & testing & tq & r &
                            Hp' & Hlt & Hm & L1 & L2 & Hc & -> & ->) ].
  { split; [reflexivity | ]. rewrite (early_trace_stdout tr Ht). intros x Hx'. contradiction. }
  rewrite Hp in Hp'. injection Hp' as <- <-.
  pose proof (coordinate_stops fuel w cfg m testing) as Hs.
  unfold stops_in in Hs. rewrite Hc in Hs. cbn [snd] in Hs.
  apply coordinate_shape in Hc.
  rewrite !stdout_of_app, verbose_ev_stderr_quiet. cbn [app stdout_of flat_map].
  destruct Hc as (td & rest & -> & [ (-> & -> & -> & _) | (b & rd & Hpos & Hb & Hd & Hg) ]).
  { split; [reflexivity | ]. rewrite !stdout_of_app. cbn. rewrite !app_nil_r.
    intros x Hx'. apply verbose_ev_stdout in Hx'. destruct Hx' as [<- | [] ]. left; auto. }
  assert (Sd : stdout_of td = []).
  { pose proof (dispatch_traced w cfg m (num_items testing) b (Z.to_nat (num_procs cfg)) O 0) as T.
    unfold traced in T. rewrite Hd in T. cbn [fst] in T.
    apply (flat_map_class spawn_event); [ | exact T].
    intros [ ] He; try discriminate He; reflexivity. }
  rewrite !stdout_of_app, Sd. cbn [app].
  destruct Hg as [ (o' & -> & -> & ->) | (-> & Hg) ].
  { split; [apply Hs; reflexivity | ]. cbn. rewrite app_nil_r.
    intros x Hx'. apply verbose_ev_stdout in Hx'. destruct Hx' as [<- | [] ]. left; auto. }
  destruct r as [v | o'].
  - apply gather_ok in Hg. destruct Hg as (_ & tc & total & tw & _ & Hw & _).
    apply reap_ok in Hw. destruct Hw as [Hall _].
    destruct (Hall i ltac:(lia)) as [_ Hno]. congruence.
  - split; [apply Hs; reflexivity | ].
    apply gather_failed in Hg.
    intros x Hx'. apply in_app_or in Hx'. destruct Hx' as [Hx' | Hx'].
    + apply verbose_ev_stdout in Hx'. destruct Hx' as [<- | [] ]. left; auto.
    + apply Hg in Hx'. destruct Hx' as [<- | [] ]. right; left; auto.
Qed.

Lemma worker_exit_1_is_fatal_witness :
  snd (main 1 (world_with 4 (delivers 1) (ends_with 256)) ["classifier"; "train"; "test"])
    = Exit 1.
Proof.
  destruct (worker_exit_1_is_fatal 1 (world_with 4 (delivers 1) (ends_with 256))
              ["classifier"; "train"; "test"] default_config 1%nat
              (fst (main 1 (world_with 4 (delivers 1) (ends_with 256))
                      ["classifier"; "train"; "test"]))
              (snd (main 1 (world_with 4 (delivers 1) (ends_with 256))
                      ["classifier"; "train"; "test"]))
              O) as [Hbad _].
  - reflexivity.
  - cbn. lia.
  - reflexivity.
  - reflexivity.
  - reflexivity.
Defined.

(** C5 as worded fails: a worker killed by a signal (status 9) or leaving
    with [exit(2)] (status 512) after it sent its result goes unnoticed, and
    the run ends with status 0 and a total. *)
Lemma killed_worker_goes_unnoticed :
  WIFEXITED 9 = false /\
  main 1 (world_with 4 (delivers 1) (ends_with 9)) ["classifier"; "train"; "test"]
    = ([EvLoad (Some "train"); EvLoad (Some "test");
        EvPipe 0 c_to_p; EvPipe 0 p_to_c; EvWrite 0 0; EvWrite 0 4;
        EvClose 0 p_to_c write_end;
        EvFork 0 1 distance_euclidean {| buffered := [0; 4]; write_open := false |};
        EvClose 0 p_to_c read_end; EvClose 0 c_to_p write_end;
        EvRead 0 {| num_read := 4; count := 1 |}; EvClose 0 c_to_p read_end;
        EvWait {| wait_pid := 1000; status := 9 |};
        EvPrint stdout (total_line 1)], Exit 0) /\
  WIFEXITED 512 = true /\ WEXITSTATUS 512 = 2 /\
  snd (main 1 (world_with 4 (delivers 1) (ends_with 512)) ["classifier"; "train"; "test"])
    = Exit 0.
Proof. repeat split; reflexivity. Qed.

(** ** Dispatch before collection (C8) *)

Lemma gather_event_not_dispatch (e : event) : gather_event e = true -> is_dispatch e = false.
Proof. destruct e as [ [] | | | | | ? [] [] | | | ]; cbn; intros H; try discriminate H; reflexivity. Qed.

Lemma spawn_event_not_read (e : event) : spawn_event e = true -> is_read e = false.
Proof. destruct e; cbn; intros H; try discriminate H; reflexivity. Qed.

Lemma verbose_ev_not_read cfg f text :
  Forall (fun e => is_read e = false) (verbose_ev cfg f text).
Proof. unfold verbose_ev. destruct (verbose cfg =? 0); repeat constructor. Qed.

(** C8.  In every run, when the coordinator calls [read] on a result pipe,
    each of the [num_procs] workers has already been sent its two integers
    and been forked, and from then on the coordinator creates no pipe,
    writes no partition and forks no worker. *)
Theorem dispatch_precedes_collection (fuel : nat) (w : world) (argv : list string)
    (cfg : config) (optind : nat) (tr : list event) (o : outcome)
    (pre post : list event) (i : nat) (r : read_ret) :
  parse_options argv = Some (cfg, optind) ->
  main fuel w argv = (tr, o) ->
  tr = pre ++ EvRead i r :: post ->
  Forall (fun e => is_dispatch e = false) post /\
  forall j, (j < Z.to_nat (num_procs cfg))%nat ->
    exists m start N,
      In (EvWrite j start) pre /\ In (EvWrite j N) pre /\
      In (EvFork j (K cfg) m {| buffered := [start; N]; write_open := false |}) pre.
Proof.
  intros Hp H E. apply main_shape in H.
  destruct H as [ [_ Ht] | (cfg' & optind' & m & training & testing & tq & rq &
                            Hp' & Hlt & Hm & L1 & L2 & Hc & Htr & _) ].
  { rewrite E in Ht. apply Forall_app in Ht. destruct Ht as [_ Ht].
    inversion Ht; subst. discriminate. }
  rewrite Hp in Hp'. injection Hp' as <- <-.
  apply coordinate_shape in Hc.
  destruct Hc as (td & rest & -> & Hcases).
  rewrite Htr in E. clear Htr.
  rewrite app_assoc, app_assoc in E.
  apply (split_app_class is_read) in E; [ | | reflexivity].
  2:{ repeat (apply Forall_app; split).
      - apply verbose_ev_not_read.
      - repeat constructor.
      - apply verbose_ev_not_read.
      - destruct Hcases as [ (-> & _) | (b & rd & _ & _ & Hd & _) ]; [constructor | ].
        pose proof (dispatch_traced w cfg m (num_items testing) b
                      (Z.to_nat (num_procs cfg)) O 0) as T.
        unfold traced in T. rewrite Hd in T. cbn [fst] in T.
        eapply Forall_impl; [ | exact T]. exact spawn_event_not_read. }
  destruct E as (pre2 & -> & Er).
  destruct Hcases as [ (_ & -> & _) | (b & rd & _ & _ & Hd & Hg) ].
  { apply split_nil in Er. contradiction. }
  destruct Hg as [ (o' & _ & -> & _) | (-> & Hg) ].
  { apply split_nil in Er. contradiction. }
  split.
  - pose proof (gather_traced fuel w cfg (Z.to_nat (num_procs cfg))) as T.
    unfold traced in T. rewrite Hg in T. cbn [fst] in T.
    rewrite Er in T. apply Forall_app in T. destruct T as [_ T].
    inversion T; subst.
    eapply Forall_impl; [ | eassumption]. exact gather_event_not_dispatch.
  - intros j Hj.
    destruct (dispatch_ok _ _ _ _ _ _ _ _ _ Hd j ltac:(lia)) as (start & N & H1 & H2 & H3).
    exists m, start, N.
    repeat split; apply in_or_app; left; apply in_or_app; right; assumption.
Qed.

Lemma dispatch_precedes_collection_witness :
  Forall (fun e => is_dispatch e = false)
    [EvClose 0 c_to_p read_end; EvRead 1 {| num_read := 4; count := 3 |};
     EvClose 1 c_to_p read_end;
     EvWait {| wait_pid := 1000; status := 0 |};
     EvWait {| wait_pid := 1001; status := 0 |};
     EvPrint stdout (total_line 6)].
Proof.
  apply (dispatch_precedes_collection 1 (calm_world 5 3)
           ["classifier"; "-p"; "2"; "train"; "test"]
           {| K := 1; dist_metric := "euclidean"; num_procs := 2; verbose := 0 |} 3%nat
           (fst (main 1 (calm_world 5 3) ["classifier"; "-p"; "2"; "train"; "test"]))
           (Exit 0)
           [EvLoad (Some "train"); EvLoad (Some "test");
            EvPipe 0 c_to_p; EvPipe 0 p_to_c; EvWrite 0 0; EvWrite 0 3;
            EvClose 0 p_to_c write_end;
            EvFork 0 1 distance_euclidean {| buffered := [0; 3]; write_open := false |};
            EvClose 0 p_to_c read_end; EvClose 0 c_to_p write_end;
            EvPipe 1 c_to_p; EvPipe 1 p_to_c; EvWrite 1 3; EvWrite 1 2;
            EvClose 1 p_to_c write_end;
            EvFork 1 1 distance_euclidean {| buffered := [3; 2]; write_open := false |};
            EvClose 1 p_to_c read_end; EvClose 1 c_to_p write_end]
           _ O {| num_read := 4; count := 3 |}); reflexivity.
Defined.

(** ** The partition message and [fork] (C9) *)

Lemma option_loop_int (name : string) (rets : list getopt_ret) :
  forall cfg t cfg',
    CInt.INT_MIN <= num_procs cfg <= CInt.INT_MAX ->
    option_loop name rets cfg = (t, inl cfg') ->
    CInt.INT_MIN <= num_procs cfg' <= CInt.INT_MAX.
Proof.
  induction rets as [ | [opt | opt optarg | opt missing] rets IH]; intros cfg t cfg' Hc H;
    cbn [option_loop] in H.
  - injection H as _ <-. exact Hc.
  - destruct (Ascii.eqb opt "v"); [ | discriminate H].
    apply (IH (set_verbose cfg 1) t cfg'); [exact Hc | exact H].
  - destruct (Ascii.eqb opt "K");
      [apply (IH (set_K cfg (atoi optarg)) t cfg'); [exact Hc | exact H] | ].
    destruct (Ascii.eqb opt "d");
      [apply (IH (set_dist_metric cfg optarg) t cfg'); [exact Hc | exact H] | ].
    destruct (Ascii.eqb opt "p"); [ | discriminate H].
    apply (IH (set_num_procs cfg (atoi optarg)) t cfg'); [apply wrap_range | exact H].
  - discriminate H.
Qed.

(** [num_procs] is an [int]: the default or a value of [atoi]. *)
Lemma parse_options_int argv cfg optind :
  parse_options argv = Some (cfg, optind) ->
  CInt.INT_MIN <= num_procs cfg <= CInt.INT_MAX.
Proof.
  intros H. apply parse_options_loop in H. destruct H as [E _].
  apply (option_loop_int _ _ default_config [] cfg ltac:(unfold CInt.INT_MIN, CInt.INT_MAX; cbn; lia) E).
Qed.

Lemma verbose_ev_not_fork cfg f text :
  Forall (fun e => is_fork e = false) (verbose_ev cfg f text).
Proof. unfold verbose_ev. destruct (verbose cfg =? 0); repeat constructor. Qed.

(** C9.  In every run, when [fork] is called for worker [i], the two
    integers of partition [i], [start_idx] then [N], have just been written
    to the pipe [p_to_c] and its write end closed: the worker inherits a pipe
    that holds exactly this pair, the pair the planner gives worker [i], and
    then reports end of file. *)
Theorem partition_message_precedes_fork (fuel : nat) (w : world) (argv : list string)
    (cfg : config) (optind : nat) (testing : Dataset) (tr : list event) (o : outcome)
    (pre post : list event) (i : nat) (K0 : Z) (m : metric) (inbox : pipe_state) :
  parse_options argv = Some (cfg, optind) ->
  load_dataset w (nth_error argv (S optind)) = Some testing ->
  0 <= num_items testing <= CInt.INT_MAX ->
  main fuel w argv = (tr, o) ->
  tr = pre ++ EvFork i K0 m inbox :: post ->
  exists start N pre',
    pre = pre' ++ [EvWrite i start; EvWrite i N; EvClose i p_to_c write_end] /\
    inbox = {| buffered := [start; N]; write_open := false |} /\
    K0 = K cfg /\
    nth_error (planner (num_items testing) (num_procs cfg)) i = Some (start, N) /\
    pipe_read inbox = (ReadInt start, {| buffered := [N]; write_open := false |}) /\
    pipe_read {| buffered := [N]; write_open := false |}
      = (ReadInt N, {| buffered := []; write_open := false |}) /\
    fst (pipe_read {| buffered := []; write_open := false |}) = ReadEOF.
Proof.
  intros Hp Hl HT H E. apply main_shape in H.
  destruct H as [ [_ Ht] | (cfg' & optind' & m' & training & testing' & tq & rq &
                            Hp' & Hlt & Hm & L1 & L2 & Hc & Htr & _) ].
  { rewrite E in Ht. apply Forall_app in Ht. destruct Ht as [_ Ht].
    inversion Ht; subst. discriminate. }
  rewrite Hp in Hp'. injection Hp' as <- <-.
  rewrite Hl in L2. injection L2 as <-.
  pose proof (parse_options_int _ _ _ Hp) as Hint.
  apply coordinate_shape in Hc.
  destruct Hc as (td & rest & -> & Hcases).
  rewrite Htr in E. clear Htr.
  rewrite app_assoc in E.
  apply (split_app_class is_fork) in E; [ | | reflexivity].
  2:{ repeat (apply Forall_app; split).
      - apply verbose_ev_not_fork.
      - repeat constructor.
      - apply verbose_ev_not_fork. }
  destruct E as (pre2 & -> & E).
  destruct Hcases as [ (-> & -> & _) | (b & rd & Hpos & Hb & Hd & Hg) ].
  { apply split_nil in E. contradiction. }
  assert (Ed : exists post1, td = pre2 ++ EvFork i K0 m inbox :: post1).
  { apply split_app in E. destruct E as [(post1 & E & _) | (pre3 & -> & E)].
    - exists post1. exact E.
    - exfalso. destruct Hg as [ (o' & _ & -> & _) | (_ & Hg) ].
      + apply split_nil in E. contradiction.
      + pose proof (gather_traced fuel w cfg (Z.to_nat (num_procs cfg))) as T.
        unfold traced in T. rewrite Hg in T. cbn [fst] in T.
        rewrite E in T. apply Forall_app in T. destruct T as [_ T].
        inversion T; subst. discriminate. }
  destruct Ed as (post1 & Ed).
  destruct (dispatch_fork _ _ _ _ _ _ _ _ _ _ _ _ _ _ _ _ Hd Ed)
    as (start & N & pre' & -> & Hin & -> & -> & Hi).
  assert (Hnp : 1 <= num_procs cfg <= CInt.INT_MAX) by lia.
  rewrite rem_nonneg in Hb by lia. injection Hb as <-.
  assert (E0 : planner_start (num_items testing) (num_procs cfg) (Z.of_nat O) = 0).
  { pose proof (Z.mod_pos_bound (num_items testing) (num_procs cfg) ltac:(lia)).
    unfold planner_start. cbn. lia. }
  rewrite <- E0 in Hd.
  pose proof (dispatch_fork_planner w cfg m' (num_items testing) (Z.to_nat (num_procs cfg))
                HT Hnp O td rd _ i _ _ inbox post1 ltac:(lia) Hd Ed) as Hpl.
  rewrite Hpl in Hin. injection Hin as <- <-.
  exists (planner_start (num_items testing) (num_procs cfg) (Z.of_nat i)),
         (planner_len (num_items testing) (num_procs cfg) (Z.of_nat i)),
         (((verbose_ev cfg stderr banner_loading
              ++ [EvLoad (nth_error argv optind); EvLoad (nth_error argv (S optind))])
             ++ verbose_ev cfg stdout banner_creating) ++ pre').
  split; [rewrite <- !app_assoc; reflexivity | ].
  split; [exact Hpl | ]. split; [reflexivity | ].
  split; [ | rewrite Hpl; repeat split].
  unfold planner. rewrite nth_error_map, nth_error_seq.
  destruct (Nat.ltb_spec i (Z.to_nat (num_procs cfg))); [reflexivity | lia].
Qed.

Lemma partition_message_precedes_fork_witness :
  nth_error (planner 5 2) 1 = Some (3, 2).
Proof.
  destruct (partition_message_precedes_fork 1 (calm_world 5 3)
           ["classifier"; "-p"; "2"; "train"; "test"]
           {| K := 1; dist_metric := "euclidean"; num_procs := 2; verbose := 0 |} 3%nat
           {| num_items := 5 |}
           (fst (main 1 (calm_world 5 3) ["classifier"; "-p"; "2"; "train"; "test"]))
           (Exit 0)
           [EvLoad (Some "train"); EvLoad (Some "test");
            EvPipe 0 c_to_p; EvPipe 0 p_to_c; EvWrite 0 0; EvWrite 0 3;
            EvClose 0 p_to_c write_end;
            EvFork 0 1 distance_euclidean {| buffered := [0; 3]; write_open := false |};
            EvClose 0 p_to_c read_end; EvClose 0 c_to_p write_end;
            EvPipe 1 c_to_p; EvPipe 1 p_to_c; EvWrite 1 3; EvWrite 1 2;
            EvClose 1 p_to_c write_end]
           [EvClose 1 p_to_c read_end; EvClose 1 c_to_p write_end;
            EvRead 0 {| num_read := 4; count := 3 |};
            EvClose 0 c_to_p read_end; EvRead 1 {| num_read := 4; count := 3 |};
            EvClose 1 c_to_p read_end;
            EvWait {| wait_pid := 1000; status := 0 |};
            EvWait {| wait_pid := 1001; status := 0 |};
            EvPrint stdout (total_line 6)]
           1%nat 1 distance_euclidean {| buffered := [3; 2]; write_open := false |})
    as (start & N & pre' & _ & Hin & _ & Hnth & _).
  - reflexivity.
  - reflexivity.
  - unfold CInt.INT_MAX. cbn. lia.
  - reflexivity.
  - reflexivity.
  - injection Hin as <- <-. exact Hnth.
Defined.

(** ** The number of workers (C10) *)

Lemma dispatch_defined w cfg m T n :
  0 <= T <= CInt.INT_MAX -> 1 <= num_procs cfg <= CInt.INT_MAX ->
  forall i s,
    stops_in is_defined (dispatch w cfg m T (T mod num_procs cfg) n i s).
Proof.
  intros HT Hp. induction n as [ | n IH]; intros i s; cbn [dispatch].
  - apply stops_in_ret.
  - rewrite partition_len_planner by lia. cbn [lift].
    apply stops_in_bind; [apply stops_in_ret | intros N].
    apply stops_in_bind; [apply spawn_worker_stops; reflexivity | intros _; apply IH].
Qed.

(** C10, as the code has it.  For a test set of [0 <= T <= INT_MAX] items
    and [1 <= num_procs <= 1073741823], the array length [num_procs * 2] is
    computed without overflow and is positive, the divisor of [%] and of the
    two divisions is not zero, every partition size is defined, and no run
    meets undefined behaviour.  Nothing checks the argument of [-p]: the
    value of [atoi] is used as it is. *)
Theorem worker_count_precondition (T p : Z) :
  0 <= T <= CInt.INT_MAX -> 1 <= p <= 1073741823 ->
  CInt.mul p 2 = p * 2 /\ 0 < CInt.mul p 2 /\
  p <> 0 /\ CInt.rem T p = Some (T mod p) /\
  (forall i, 0 <= i -> partition_len T p (T mod p) i = Some (planner_len T p i)) /\
  (forall fuel w argv cfg optind testing tr o,
     parse_options argv = Some (cfg, optind) ->
     num_procs cfg = p ->
     load_dataset w (nth_error argv (S optind)) = Some testing ->
     num_items testing = T ->
     main fuel w argv = (tr, o) -> o <> Undefined) /\
  (forall a train test,
     Ascii.eqb (head train) "-" = false ->
     exists cfg,
       parse_options ["classifier"; "-p"; a; train; test] = Some (cfg, 3%nat) /\
       num_procs cfg = atoi a).
Proof.
  intros HT Hp.
  assert (Hmul : CInt.mul p 2 = p * 2).
  { unfold CInt.mul. apply wrap_small. unfold CInt.INT_MIN, CInt.INT_MAX. lia. }
  assert (Hp' : 1 <= p <= CInt.INT_MAX) by (unfold CInt.INT_MAX; lia).
  split; [exact Hmul | ]. split; [lia | ]. split; [lia | ].
  split; [apply rem_nonneg; lia | ].
  split; [intros i Hi; apply partition_len_planner; assumption | ].
  split.
  - intros fuel w argv cfg optind testing tr o Hparse Hnp Hl HnT H.
    apply main_shape in H.
    destruct H as [ [-> _] | (cfg' & optind' & m & training & testing' & tq & r &
                              Hp2 & Hlt & Hm & L1 & L2 & Hc & _ & ->) ]; [discriminate | ].
    rewrite Hparse in Hp2. injection Hp2 as <- <-.
    rewrite Hl in L2. injection L2 as <-.
    destruct r as [v | o]; [discriminate | ].
    apply coordinate_shape in Hc.
    destruct Hc as (td & rest & _ & [ (_ & _ & _ & [Hneg | Hnone]) | (b & rd & _ & Hb & Hd & Hg) ]).
    + rewrite Hnp in Hneg. lia.
    + rewrite Hnp, HnT, rem_nonneg in Hnone by lia. discriminate.
    + rewrite Hnp, HnT, rem_nonneg in Hb by lia. injection Hb as <-.
      destruct Hg as [ (o' & -> & _ & E) | (_ & Hg) ].
      * injection E as ->.
        pose proof (dispatch_defined w cfg m (num_items testing) (Z.to_nat (num_procs cfg))
                      ltac:(lia) ltac:(lia) O 0) as D.
        unfold stops_in in D. rewrite HnT, Hnp in D. rewrite Hnp, HnT in Hd.
        rewrite Hd in D. specialize (D o' eq_refl).
        intros ->. discriminate.
      * pose proof (gather_stops is_defined fuel w cfg (Z.to_nat (num_procs cfg))
                      eq_refl eq_refl) as G.
        unfold stops_in in G. rewrite Hg in G. specialize (G o eq_refl).
        intros ->. discriminate.
  - intros a train test Htrain.
    exists (set_num_procs default_config (atoi a)).
    split; [ | reflexivity].
    unfold parse_options, read_options. cbn [List.tl getopt_all scan_cluster lookup_opt].
    destruct train as [ | c [ | c' train] ]; try reflexivity.
    cbn [head] in Htrain. rewrite Htrain. reflexivity.
Qed.

Lemma worker_count_precondition_witness :
  CInt.mul 3 2 = 6 /\ CInt.rem 10 3 = Some 1 /\
  snd (main 1 (calm_world 10 3) ["classifier"; "-p"; "3"; "train"; "test"]) <> Undefined.
Proof.
  destruct (worker_count_precondition 10 3) as (Hm & _ & _ & Hr & _ & Hrun & _).
  - unfold CInt.INT_MAX. lia.
  - lia.
  - split; [exact Hm | split; [exact Hr | ] ].
    apply (Hrun 1%nat (calm_world 10 3) ["classifier"; "-p"; "3"; "train"; "test"]
             {| K := 1; dist_metric := "euclidean"; num_procs := 3; verbose := 0 |} 3%nat
             {| num_items := 10 |}
             (fst (main 1 (calm_world 10 3) ["classifier"; "-p"; "3"; "train"; "test"])));
      reflexivity.
Defined.

(** C10 as worded fails at [num_procs = 1073741824]: it is at least 1, but
    [num_procs * 2] does not fit an [int]; it wraps to [INT_MIN], which is
    not a positive array length.  And [-p 0] is accepted: the run reaches the
    zero-length array and the division by zero. *)
Lemma worker_count_overflow :
  1 <= 1073741824 <= CInt.INT_MAX /\
  CInt.mul 1073741824 2 = CInt.INT_MIN /\
  main 1 (calm_world 4 1) ["classifier"; "-p"; "1073741824"; "train"; "test"]
    = ([EvLoad (Some "train"); EvLoad (Some "test")], Undefined) /\
  CInt.rem 4 0 = None /\
  main 1 (calm_world 4 1) ["classifier"; "-p"; "0"; "train"; "test"]
    = ([EvLoad (Some "train"); EvLoad (Some "test")], Undefined).
Proof. unfold CInt.INT_MAX. repeat split; try reflexivity; lia. Qed.


(** ** Enough fuel

    The fuel only bounds the read loop.  When every result pipe delivers
    four bytes or fails within [fuel] reads, the run comes to an end, and
    more fuel does not change it. *)

Lemma read_count_ends fuel w i :
  forall j d,
    (d < fuel)%nat ->
    num_read (sys_read w i (j + d)) = 4 \/ num_read (sys_read w i (j + d)) = -1 ->
    stops_in is_ending (read_count fuel w i j).
Proof.
  induction fuel as [ | fuel IH]; intros j d Hd Hr; [lia | ].
  cbn [read_count].
  apply stops_in_bind; [apply stops_in_emit | intros _].
  destruct (Z.eqb_spec (num_read (sys_read w i j)) 4); [apply stops_in_ret | ].
  destruct (Z.eqb_spec (num_read (sys_read w i j)) (-1));
    [apply stops_in_perror; reflexivity | ].
  destruct d as [ | d].
  - rewrite Nat.add_0_r in Hr. lia.
  - apply (IH (S j) d); [lia | ].
    replace (S j + d)%nat with (j + S d)%nat by lia. exact Hr.
Qed.

Lemma collect_ends fuel w n :
  (forall i, exists d, (d < fuel)%nat /\
     (num_read (sys_read w i d) = 4 \/ num_read (sys_read w i d) = -1)) ->
  forall i acc, stops_in is_ending (collect fuel w n i acc).
Proof.
  intros Hw. induction n as [ | n IH]; intros i acc; cbn [collect].
  - apply stops_in_ret.
  - apply stops_in_bind.
    + destruct (Hw i) as (d & Hd & Hr). apply (read_count_ends fuel w i O d Hd Hr).
    + intros c. apply stops_in_bind; [apply stops_in_checked; reflexivity | intros _; apply IH].
Qed.

Lemma dispatch_never_spins w cfg m T b n i s td :
  dispatch w cfg m T b n i s = (td, inr Spinning) -> False.
Proof.
  intros H.
  assert (D : stops_in is_ending (dispatch w cfg m T b n i s)).
  { clear H. revert i s. induction n as [ | n IH]; intros i s; cbn [dispatch].
    - apply stops_in_ret.
    - apply stops_in_bind; [apply stops_in_lift; reflexivity | intros N].
      apply stops_in_bind; [apply spawn_worker_stops; reflexivity | intros _; apply IH]. }
  unfold stops_in in D. rewrite H in D. specialize (D Spinning eq_refl). discriminate.
Qed.

Lemma main_ends fuel w argv :
  (forall i, exists d, (d < fuel)%nat /\
     (num_read (sys_read w i d) = 4 \/ num_read (sys_read w i d) = -1)) ->
  snd (main fuel w argv) <> Spinning.
Proof.
  intros Hw.
  destruct (main fuel w argv) as [tr o] eqn:H. cbn [snd].
  apply main_shape in H.
  destruct H as [ [-> _] | (cfg & optind & m & training & testing & tq & r &
                            _ & _ & _ & _ & _ & Hc & _ & ->) ]; [discriminate | ].
  destruct r as [v | o]; [discriminate | ].
  apply coordinate_shape in Hc.
  destruct Hc as (td & rest & _ & [ (_ & _ & E & _) | (b & rd & _ & _ & Hd & Hg) ]).
  { injection E as ->. discriminate. }
  destruct Hg as [ (o' & -> & _ & E) | (_ & Hg) ].
  - injection E as ->.
    intros ->. apply (dispatch_never_spins _ _ _ _ _ _ _ _ _ Hd).
  - unfold gather in Hg.
    apply bind_eq in Hg.
    destruct Hg as [(tc & total & t2 & _ & Hg & _) | (o' & Hcol & E)].
    + rewrite when_verbose_print in Hg. cbn [bind] in Hg.
      pose proof (reap_stops is_ending w (Z.to_nat (num_procs cfg)) eq_refl O) as R.
      unfold stops_in in R.
      destruct (reap w (Z.to_nat (num_procs cfg)) O) as [tw [ [] | o'] ]; cbn [bind] in Hg.
      * rewrite when_verbose_print in Hg. cbn in Hg. discriminate.
      * injection Hg as _ <-. specialize (R o' eq_refl). intros ->. discriminate.
    + injection E as ->.
      pose proof (collect_ends fuel w (Z.to_nat (num_procs cfg)) Hw O 0) as C.
      unfold stops_in in C. rewrite Hcol in C. specialize (C o' eq_refl).
      intros ->. discriminate.
Qed.

Lemma read_count_more_fuel fuel w i :
  forall j t r,
    read_count fuel w i j = (t, r) -> r <> inr Spinning ->
    forall fuel', (fuel <= fuel')%nat -> read_count fuel' w i j = (t, r).
Proof.
  induction fuel as [ | fuel IH]; intros j t r H Hr fuel' Hle; cbn [read_count] in H.
  - injection H as _ <-. contradiction.
  - destruct fuel' as [ | fuel']; [lia | ]. cbn [read_count].
    unfold emit in *. cbn [bind] in *.
    destruct (num_read (sys_read w i j) =? 4); [exact H | ].
    destruct (num_read (sys_read w i j) =? -1); [exact H | ].
    destruct (read_count fuel w i (S j)) as [t' r'] eqn:E.
    injection H as <- <-.
    rewrite (IH (S j) t' r' E Hr fuel' ltac:(lia)). reflexivity.
Qed.

Lemma collect_more_fuel fuel fuel' w n :
  (fuel <= fuel')%nat ->
  forall i acc t r,
    collect fuel w n i acc = (t, r) -> r <> inr Spinning ->
    collect fuel' w n i acc = (t, r).
Proof.
  intros Hle. induction n as [ | n IH]; intros i acc t r H Hr; cbn [collect] in *.
  - exact H.
  - destruct (read_count fuel w i O) as [t1 [c | o] ] eqn:E1; cbn [bind] in H.
    + rewrite (read_count_more_fuel fuel w i O t1 (inl c) E1 ltac:(discriminate) fuel' Hle).
      cbn [bind].
      destruct (checked w i (CallClose c_to_p read_end) (EvClose i c_to_p read_end) "close")
        as [t2 [ [] | o] ]; cbn [bind] in *; [ | exact H].
      destruct (collect fuel w n (S i) (CInt.add acc c)) as [t3 r3] eqn:E3.
      injection H as <- <-.
      rewrite (IH _ _ _ _ E3 Hr). reflexivity.
    + injection H as <- <-.
      rewrite (read_count_more_fuel fuel w i O t1 (inr o) E1 Hr fuel' Hle). reflexivity.
Qed.

(** A run that has come to an end is the same run with more fuel. *)
Lemma main_more_fuel fuel fuel' w argv tr o :
  (fuel <= fuel')%nat ->
  main fuel w argv = (tr, o) -> o <> Spinning ->
  main fuel' w argv = (tr, o).
Proof.
  intros Hle.
  destruct (parse_options argv) as [ [cfg optind] | ] eqn:Ep.
  2:{ rewrite !(main_stopped _ _ _ Ep). auto. }
  rewrite !(main_parsed _ _ _ _ _ Ep).
  unfold run_config.
  destruct (List.length argv <=? optind)%nat; [auto | ].
  destruct (select_metric (dist_metric cfg)) as [m | ]; [ | auto].
  destruct (when_verbose cfg (print stderr banner_loading)) as [t0 [ [] | o0] ];
    cbn [bind]; [ | auto].
  destruct (load w (nth_error argv optind)) as [t1 [training | o1] ]; cbn [bind]; [ | auto].
  destruct (load w (nth_error argv (S optind))) as [t2 [testing | o2] ]; cbn [bind]; [ | auto].
  unfold coordinate.
  destruct (when_verbose cfg (print stdout banner_creating)) as [t3 [ [] | o3] ];
    cbn [bind]; [ | auto].
  destruct (if 0 <? CInt.mul (num_procs cfg) 2 then ret tt else stop Undefined)
    as [t4 [ [] | o4] ]; cbn [bind]; [ | auto].
  destruct (lift (CInt.rem (num_items testing) (num_procs cfg))) as [t5 [b | o5] ];
    cbn [bind]; [ | auto].
  destruct (dispatch w cfg m (num_items testing) b (Z.to_nat (num_procs cfg)) O 0)
    as [t6 [ [] | o6] ]; cbn [bind]; [ | auto].
  unfold gather.
  destruct (collect fuel w (Z.to_nat (num_procs cfg)) O 0) as [t7 r7] eqn:E7.
  destruct r7 as [total | o7]; cbn [bind].
  - rewrite (collect_more_fuel fuel fuel' w _ Hle O 0 t7 (inl total) E7 ltac:(discriminate)).
    cbn [bind]. auto.
  - intros H Ho.
    assert (o7 <> Spinning).
    { intros ->. cbn in H. injection H as _ <-. contradiction. }
    rewrite (collect_more_fuel fuel fuel' w _ Hle O 0 t7 (inr o7) E7 ltac:(congruence)).
    exact H.
Qed.


(** ** Runs that go through *)

Lemma bind_ret {A B : Type} (a : A) (k : A -> M B) : bind (ret a) k = k a.
Proof. unfold bind, ret. destruct (k a). reflexivity. Qed.

Lemma checked_goes_on w i c e what :
  sys_ok w i c = true -> stops_in never (checked w i c e what).
Proof.
  intros Hok. unfold checked. rewrite Hok.
  apply stops_in_bind; [apply stops_in_emit | intros _; apply stops_in_ret].
Qed.

Lemma dispatch_goes_on w cfg m T n :
  0 <= T <= CInt.INT_MAX -> 1 <= num_procs cfg <= CInt.INT_MAX ->
  (forall i c, sys_ok w i c = true) ->
  forall i s, stops_in never (dispatch w cfg m T (T mod num_procs cfg) n i s).
Proof.
  intros HT Hp Hok. induction n as [ | n IH]; intros i s; cbn [dispatch].
  - apply stops_in_ret.
  - rewrite partition_len_planner by lia. cbn [lift].
    apply stops_in_bind; [apply stops_in_ret | intros N].
    apply stops_in_bind; [ | intros _; apply IH].
    unfold spawn_worker, write_int.
    repeat (first [ apply checked_goes_on; apply Hok
                  | apply stops_in_ret
                  | apply stops_in_bind; [ | intros ? ] ]).
Qed.

Lemma collect_goes_on fuel w n :
  (0 < fuel)%nat ->
  (forall i c, sys_ok w i c = true) ->
  (forall i, num_read (sys_read w i O) = 4) ->
  forall i acc, stops_in never (collect fuel w n i acc).
Proof.
  intros Hf Hok Hr. induction n as [ | n IH]; intros i acc; cbn [collect].
  - apply stops_in_ret.
  - apply stops_in_bind; [ | intros c].
    + destruct fuel as [ | fuel]; [lia | ]. cbn [read_count].
      apply stops_in_bind; [apply stops_in_emit | intros _].
      rewrite Hr. apply stops_in_ret.
    + apply stops_in_bind; [apply checked_goes_on, Hok | intros _; apply IH].
Qed.

Lemma reap_goes_on w n :
  (forall i, 0 <= wait_pid (sys_wait w i) /\ exited_with_1 (sys_wait w i) = false) ->
  forall i, stops_in never (reap w n i).
Proof.
  intros Hw. induction n as [ | n IH]; intros i; cbn [reap].
  - apply stops_in_ret.
  - apply stops_in_bind; [apply stops_in_emit | intros _].
    destruct (Hw i) as [Hpid Hx].
    destruct (Z.ltb_spec (wait_pid (sys_wait w i)) 0); [lia | ].
    fold (exited_with_1 (sys_wait w i)). rewrite Hx. apply IH.
Qed.

(** With a positive [num_procs] whose double fits an [int], when every call
    succeeds, every worker delivers its integer at the first [read] and no
    [wait] reports an exit with status 1, the run ends with status 0,
    whatever else the wait statuses say. *)
Lemma main_completes fuel w argv cfg optind m training testing :
  parse_options argv = Some (cfg, optind) ->
  (optind < List.length argv)%nat ->
  select_metric (dist_metric cfg) = Some m ->
  load_dataset w (nth_error argv optind) = Some training ->
  load_dataset w (nth_error argv (S optind)) = Some testing ->
  0 <= num_items testing <= CInt.INT_MAX ->
  1 <= num_procs cfg <= 1073741823 ->
  (0 < fuel)%nat ->
  (forall i c, sys_ok w i c = true) ->
  (forall i, num_read (sys_read w i O) = 4) ->
  (forall i, 0 <= wait_pid (sys_wait w i) /\ exited_with_1 (sys_wait w i) = false) ->
  snd (main fuel w argv) = Exit 0.
Proof.
  intros Hp Hlt Hm L1 L2 HT Hn Hf Hok Hr Hw.
  rewrite (main_loaded fuel w argv cfg optind m training testing Hp Hlt Hm L1 L2).
  cbn [snd].
  assert (Hmul : CInt.mul (num_procs cfg) 2 = num_procs cfg * 2).
  { unfold CInt.mul. apply wrap_small. unfold CInt.INT_MIN, CInt.INT_MAX. lia. }
  assert (Hn' : 1 <= num_procs cfg <= CInt.INT_MAX) by (unfold CInt.INT_MAX; lia).
  assert (C : stops_in never (coordinate fuel w cfg m testing)).
  { unfold coordinate, print.
    apply stops_in_bind; [apply stops_in_when_verbose, stops_in_emit | intros _].
    apply stops_in_bind.
    { destruct (Z.ltb_spec 0 (CInt.mul (num_procs cfg) 2)); [apply stops_in_ret | lia]. }
    intros _. rewrite rem_nonneg by lia. cbn [lift]. rewrite bind_ret.
    apply stops_in_bind; [apply dispatch_goes_on; assumption | intros _].
    unfold gather, print.
    apply stops_in_bind; [apply collect_goes_on; assumption | intros total].
    apply stops_in_bind; [apply stops_in_when_verbose, stops_in_emit | intros _].
    apply stops_in_bind; [apply reap_goes_on; assumption | intros _].
    apply stops_in_bind; [apply stops_in_when_verbose, stops_in_emit | intros _].
    apply stops_in_bind; [apply stops_in_emit | intros _; apply stops_in_ret]. }
  destruct (coordinate fuel w cfg m testing) as [tq [v | o] ] eqn:Ec.
  - apply coordinate_shape in Ec.
    destruct Ec as (td & rest & _ & [ (_ & _ & E & _) | (b & rd & _ & _ & _ & Hg) ]);
      [discriminate | ].
    destruct Hg as [ (o' & _ & _ & E) | (_ & Hg) ]; [discriminate | ].
    apply gather_ok in Hg. destruct Hg as [-> _]. reflexivity.
  - specialize (C o eq_refl). discriminate.
Qed.


(** ** The worker's branch *)

(** The worker never comes back into the loop of [main]: it leaves with
    [exit(0)], or with [exit(1)] when a [close] fails, or the way
    [child_handler] makes it leave. *)
Lemma worker_branch_leaves w handler cfg m i inbox t r :
  (forall k m' p, stops_in bad_end (handler k m' p)) ->
  worker_branch w handler cfg m i inbox = (t, r) ->
  exists o, r = inr o /\ (o = Exit 0 \/ bad_end o = true).
Proof.
  intros Hh H. unfold worker_branch in H.
  apply bind_eq in H. destruct H as [(t1 & [] & t2 & _ & H & _) | (o & Hm & ->)].
  2:{ exists o. split; [reflexivity | right].
      apply (stops_in_checked bad_end w i (CallClose c_to_p read_end)
               (EvClose i c_to_p read_end) "close" eq_refl o).
      rewrite Hm. reflexivity. }
  apply bind_eq in H. destruct H as [(t3 & [] & t4 & _ & H & _) | (o & Hm & ->)].
  2:{ exists o. split; [reflexivity | right].
      apply (Hh (K cfg) m inbox o). rewrite Hm. reflexivity. }
  apply bind_eq in H. destruct H as [(t5 & [] & t6 & _ & H & _) | (o & Hm & ->)].
  2:{ exists o. split; [reflexivity | right].
      apply (stops_in_checked bad_end w i (CallClose p_to_c read_end)
               (EvClose i p_to_c read_end) "close" eq_refl o).
      rewrite Hm. reflexivity. }
  apply bind_eq in H. destruct H as [(t7 & [] & t8 & _ & H & _) | (o & Hm & ->)].
  2:{ exists o. split; [reflexivity | right].
      apply (stops_in_checked bad_end w i (CallClose c_to_p write_end)
               (EvClose i c_to_p write_end) "close" eq_refl o).
      rewrite Hm. reflexivity. }
  cbn in H. injection H as _ <-. exists (Exit 0). auto.
Qed.


(** * Further properties of [main] *)

(** ** The options (lines 55-73) *)

Lemma last_arg_cons (c : ascii) (r : getopt_ret) (rest : list getopt_ret) :
  last_arg c (r :: rest) =
    match last_arg c rest with
    | Some a => Some a
    | None =>
        match r with
        | OptArg c' a => if Ascii.eqb c' c then Some a else None
        | _ => None
        end
    end.
Proof. reflexivity. Qed.

Lemma eqb_true (a b : ascii) : Ascii.eqb a b = true -> a = b.
Proof. apply Ascii.eqb_eq. Qed.

(** Each variable holds its previous value until the last occurrence of
    its option overwrites it. *)
Lemma option_loop_last (name : string) (rets : list getopt_ret) :
  forall cfg t cfg',
    option_loop name rets cfg = (t, inl cfg') ->
    K cfg' = match last_arg "K" rets with Some a => atoi a | None => K cfg end /\
    dist_metric cfg' =
      match last_arg "d" rets with Some a => a | None => dist_metric cfg end /\
    num_procs cfg' =
      match last_arg "p" rets with Some a => atoi a | None => num_procs cfg end /\
    verbose cfg' = if existsb (is_flag "v") rets then 1 else verbose cfg.
Proof.
  induction rets as [ | [opt | opt optarg | opt missing] rets IH]; intros cfg t cfg' H;
    cbn [option_loop] in H.
  - injection H as _ <-. cbn. auto.
  - destruct (Ascii.eqb opt "v") eqn:Ev; [ | discriminate H].
    destruct (IH _ _ _ H) as (HK & Hd & Hp & Hv).
    rewrite !last_arg_cons. cbn [existsb is_flag]. rewrite Ev. cbn [orb].
    cbn [set_verbose K dist_metric num_procs verbose] in *.
    repeat split.
    + rewrite HK. destruct (last_arg "K" rets); reflexivity.
    + rewrite Hd. destruct (last_arg "d" rets); reflexivity.
    + rewrite Hp. destruct (last_arg "p" rets); reflexivity.
    + rewrite Hv. destruct (existsb (is_flag "v") rets); reflexivity.
  - rewrite !last_arg_cons. cbn [existsb is_flag orb].
    destruct (Ascii.eqb opt "K") eqn:EK.
    { apply eqb_true in EK. subst opt.
      destruct (IH _ _ _ H) as (HK & Hd & Hp & Hv).
      cbn [set_K K dist_metric num_procs verbose] in *.
      change (Ascii.eqb "K" "K") with true. change (Ascii.eqb "K" "d") with false.
      change (Ascii.eqb "K" "p") with false.
      repeat split.
      + rewrite HK. destruct (last_arg "K" rets); reflexivity.
      + rewrite Hd. destruct (last_arg "d" rets); reflexivity.
      + rewrite Hp. destruct (last_arg "p" rets); reflexivity.
      + exact Hv. }
    destruct (Ascii.eqb opt "d") eqn:Ed.
    { apply eqb_true in Ed. subst opt.
      destruct (IH _ _ _ H) as (HK & Hd & Hp & Hv).
      cbn [set_dist_metric K dist_metric num_procs verbose] in *.
      change (Ascii.eqb "d" "K") with false. change (Ascii.eqb "d" "d") with true.
      change (Ascii.eqb "d" "p") with false.
      repeat split.
      + rewrite HK. destruct (last_arg "K" rets); reflexivity.
      + rewrite Hd. destruct (last_arg "d" rets); reflexivity.
      + rewrite Hp. destruct (last_arg "p" rets); reflexivity.
      + exact Hv. }
    destruct (Ascii.eqb opt "p") eqn:Ep; [ | discriminate H].
    destruct (IH _ _ _ H) as (HK & Hd & Hp & Hv).
    cbn [set_num_procs K dist_metric num_procs verbose] in *.
    repeat split.
    + rewrite HK. destruct (last_arg "K" rets); reflexivity.
    + rewrite Hd. destruct (last_arg "d" rets); reflexivity.
    + rewrite Hp. destruct (last_arg "p" rets); reflexivity.
    + exact Hv.
  - discriminate H.
Qed.

(** X1.  When the option loop of lines 55-73 completes, each of [K],
    [dist_metric] and [num_procs] holds the argument of the last occurrence
    of its option on the command line ([atoi] of it for [-K] and [-p]), or
    its default (1, "euclidean", 1) when the option does not occur, whatever
    the order of the options; [verbose] is 1 when [-v] occurs and 0
    otherwise. *)
Theorem options_last_wins (argv : list string) (cfg : config) (optind : nat) :
  parse_options argv = Some (cfg, optind) ->
  K cfg =
    match last_arg "K" (fst (getopt_all (List.tl argv) 1 None)) with
    | Some a => atoi a
    | None => 1
    end /\
  dist_metric cfg =
    match last_arg "d" (fst (getopt_all (List.tl argv) 1 None)) with
    | Some a => a
    | None => "euclidean"
    end /\
  num_procs cfg =
    match last_arg "p" (fst (getopt_all (List.tl argv) 1 None)) with
    | Some a => atoi a
    | None => 1
    end /\
  verbose cfg =
    if existsb (is_flag "v") (fst (getopt_all (List.tl argv) 1 None)) then 1 else 0.
Proof.
  intros H. apply parse_options_loop in H. destruct H as [E _].
  exact (option_loop_last _ _ default_config [] cfg E).
Qed.

Lemma options_last_wins_witness :
  K {| K := 5; dist_metric := "cos"; num_procs := 2; verbose := 0 |} = atoi "5" /\
  num_procs {| K := 5; dist_metric := "cos"; num_procs := 2; verbose := 0 |} = atoi "2".
Proof.
  destruct (options_last_wins
              ["classifier"; "-K"; "3"; "-d"; "cos"; "-p"; "2"; "-K5"; "train"; "test"]
              {| K := 5; dist_metric := "cos"; num_procs := 2; verbose := 0 |} 8%nat)
    as (HK & _ & Hp & _).
  - reflexivity.
  - split; [exact HK | exact Hp].
Defined.

(** ** The datasets (lines 75-121) *)

(** X2.  Once the options are read, a file name follows them and the
    metric is recognised, a dataset that cannot be loaded ends the run with
    status 1 and a message that names its file, on the error stream.  The
    training set is loaded first; when it fails, the testing set is not
    looked at.  No worker exists yet and standard output is empty. *)
Theorem load_failure_stops_the_run (fuel : nat) (w : world) (argv : list string)
    (cfg : config) (optind : nat) (m : metric) :
  parse_options argv = Some (cfg, optind) ->
  (optind < List.length argv)%nat ->
  select_metric (dist_metric cfg) = Some m ->
  load_dataset w (nth_error argv optind) = None \/
  load_dataset w (nth_error argv (S optind)) = None ->
  main fuel w argv =
    (verbose_ev cfg stderr banner_loading ++
       match load_dataset w (nth_error argv optind) with
       | None =>
           [EvLoad (nth_error argv optind);
            EvPrint stderr (load_message (nth_error argv optind))]
       | Some _ =>
           [EvLoad (nth_error argv optind); EvLoad (nth_error argv (S optind));
            EvPrint stderr (load_message (nth_error argv (S optind)))]
       end, Exit 1) /\
  stdout_of (fst (main fuel w argv)) = [] /\
  forks_of (fst (main fuel w argv)) = [].
Proof.
  intros Hp Hlt Hm Hl.
  assert (E : main fuel w argv =
    (verbose_ev cfg stderr banner_loading ++
       match load_dataset w (nth_error argv optind) with
       | None =>
           [EvLoad (nth_error argv optind);
            EvPrint stderr (load_message (nth_error argv optind))]
       | Some _ =>
           [EvLoad (nth_error argv optind); EvLoad (nth_error argv (S optind));
            EvPrint stderr (load_message (nth_error argv (S optind)))]
       end, Exit 1)).
  { rewrite (main_parsed fuel w argv cfg optind Hp). unfold run_config.
    destruct (Nat.leb_spec (List.length argv) optind); [lia | ].
    rewrite Hm, when_verbose_print. unfold load, print, emit. cbn [bind].
    destruct (load_dataset w (nth_error argv optind)) as [training | ] eqn:L1.
    - destruct Hl as [Hl | Hl]; [discriminate | ]. rewrite Hl. reflexivity.
    - reflexivity. }
  rewrite E. cbn [fst]. split; [reflexivity | ].
  unfold forks_of, stdout_of. rewrite !flat_map_app. unfold verbose_ev.
  destruct (verbose cfg =? 0), (load_dataset w (nth_error argv optind)); split; reflexivity.
Qed.

Lemma load_failure_stops_the_run_witness :
  main 1 (calm_world 4 1) ["classifier"; "train"] =
    ([EvLoad (Some "train"); EvLoad None; EvPrint stderr (load_message None)], Exit 1).
Proof.
  destruct (load_failure_stops_the_run 1 (calm_world 4 1) ["classifier"; "train"]
              default_config 1%nat distance_euclidean) as (E & _).
  - reflexivity.
  - cbn. lia.
  - reflexivity.
  - right. reflexivity.
  - exact E.
Defined.

(** ** A number of workers that is not positive (lines 131-134) *)

(** X3.  Nothing rejects a [num_procs] that is zero or negative.  With
    [-1073741824 <= num_procs <= 0] and both datasets loaded, the run
    reaches the array of [num_procs * 2] elements, whose length is not
    positive: its behaviour is undefined from there on.  No pipe and no
    worker was created. *)
Theorem no_positive_worker_count_is_undefined (fuel : nat) (w : world)
    (argv : list string) (cfg : config) (optind : nat) (m : metric)
    (training testing : Dataset) :
  parse_options argv = Some (cfg, optind) ->
  (optind < List.length argv)%nat ->
  select_metric (dist_metric cfg) = Some m ->
  load_dataset w (nth_error argv optind) = Some training ->
  load_dataset w (nth_error argv (S optind)) = Some testing ->
  -1073741824 <= num_procs cfg <= 0 ->
  main fuel w argv =
    ((verbose_ev cfg stderr banner_loading
        ++ [EvLoad (nth_error argv optind); EvLoad (nth_error argv (S optind))])
       ++ verbose_ev cfg stdout banner_creating, Undefined).
Proof.
  intros Hp Hlt Hm L1 L2 Hn.
  rewrite (main_loaded fuel w argv cfg optind m training testing Hp Hlt Hm L1 L2).
  unfold coordinate. rewrite when_verbose_print. cbn [bind].
  assert (Hmul : CInt.mul (num_procs cfg) 2 = num_procs cfg * 2).
  { unfold CInt.mul. apply wrap_small. unfold CInt.INT_MIN, CInt.INT_MAX. lia. }
  destruct (Z.ltb_spec 0 (CInt.mul (num_procs cfg) 2)); [lia | ].
  cbn. rewrite app_nil_r. reflexivity.
Qed.

Lemma no_positive_worker_count_is_undefined_witness :
  main 1 (calm_world 4 1) ["classifier"; "-p"; "-3"; "train"; "test"] =
    ([EvLoad (Some "train"); EvLoad (Some "test")], Undefined).
Proof.
  apply (no_positive_worker_count_is_undefined 1 (calm_world 4 1)
           ["classifier"; "-p"; "-3"; "train"; "test"]
           {| K := 1; dist_metric := "euclidean"; num_procs := -3; verbose := 0 |}
           3%nat distance_euclidean {| num_items := 4 |} {| num_items := 4 |}).
  - reflexivity.
  - cbn. lia.
  - reflexivity.
  - reflexivity.
  - reflexivity.
  - cbn. lia.
Defined.

(** ** How a run ends (lines 46-284) *)

(** The trace of [gather] is the trace of the collection followed, when it
    completes, by the trace of the reaping and then by the report. *)
Lemma gather_shape fuel w cfg n t r :
  gather fuel w cfg n = (t, r) ->
  exists tc rc,
    collect fuel w n O 0 = (tc, rc) /\
    ((exists o, rc = inr o /\ r = inr o /\ t = tc) \/
     (exists total tw rw,
        rc = inl total /\ reap w n O = (tw, rw) /\
        ((exists o, rw = inr o /\ r = inr o /\
            t = tc ++ verbose_ev cfg stdout banner_waiting ++ tw) \/
         (rw = inl tt /\ r = inl 0 /\
            t = tc ++ verbose_ev cfg stdout banner_waiting ++ tw
                  ++ verbose_ev cfg stdout (banner_total total)
                  ++ [EvPrint stdout (total_line total)])))).
Proof.
  unfold gather. intros H.
  destruct (collect fuel w n O 0) as [tc [total | o] ] eqn:Ec; cbn [bind] in H.
  2:{ injection H as <- <-. exists tc, (inr o). split; [reflexivity | ].
      left. exists o. auto. }
  exists tc, (inl total). split; [reflexivity | ]. right.
  rewrite when_verbose_print in H. cbn [bind] in H.
  destruct (reap w n O) as [tw [ [] | o] ] eqn:Er; cbn [bind] in H.
  - rewrite when_verbose_print in H. cbn [bind print emit ret] in H.
    injection H as <- <-.
    exists total, tw, (inl tt). repeat split; auto.
  - injection H as <- <-.
    exists total, tw, (inr o). repeat split; auto.
    left. exists o. auto.
Qed.

Lemma bad_end_cases (o : outcome) :
  bad_end o = true -> o = Exit 1 \/ o = Undefined \/ o = Spinning.
Proof.
  destruct o as [c | | ]; cbn; auto.
  intros H. apply Z.eqb_eq in H. subst c. auto.
Qed.

(** X4.  A run ends in one of four ways: with status 0, with status 1, in
    undefined behaviour, or not at all (inside the read loop); no other
    exit status is produced.  Unless it ends with status 0, standard output
    holds at most the two banners of [-v]: the total is never printed by a
    run that fails. *)
Theorem exit_status_and_total (fuel : nat) (w : world) (argv : list string)
    (tr : list event) (o : outcome) :
  main fuel w argv = (tr, o) ->
  (o = Exit 0 \/ o = Exit 1 \/ o = Undefined \/ o = Spinning) /\
  (o <> Exit 0 -> incl (stdout_of tr) [banner_creating; banner_waiting]).
Proof.
  intros H. apply main_shape in H.
  destruct H as [ [-> Ht] | (cfg & optind & m & training & testing & tq & r &
                            Hp & Hlt & Hm & L1 & L2 & Hc & -> & ->) ].
  { split; [auto | ]. intros _. rewrite (early_trace_stdout tr Ht).
    intros x Hx. contradiction. }
  pose proof (coordinate_stops fuel w cfg m testing) as Hs.
  unfold stops_in in Hs. rewrite Hc in Hs. cbn [snd] in Hs.
  apply coordinate_shape in Hc.
  rewrite !stdout_of_app, verbose_ev_stderr_quiet. cbn [app stdout_of flat_map].
  destruct Hc as (td & rest & -> & [ (-> & -> & -> & _) | (b & rd & Hpos & Hb & Hd & Hg) ]).
  { split; [auto | ]. intros _. rewrite !stdout_of_app. cbn. rewrite !app_nil_r.
    intros x Hx. apply verbose_ev_stdout in Hx. destruct Hx as [<- | [] ]. left; auto. }
  assert (Sd : stdout_of td = []).
  { pose proof (dispatch_traced w cfg m (num_items testing) b (Z.to_nat (num_procs cfg)) O 0) as T.
    unfold traced in T. rewrite Hd in T. cbn [fst] in T.
    apply (flat_map_class spawn_event); [ | exact T].
    intros [ ] He; try discriminate He; reflexivity. }
  rewrite !stdout_of_app, Sd. cbn [app].
  destruct Hg as [ (o' & -> & -> & ->) | (-> & Hg) ].
  { split; [right; apply bad_end_cases, Hs; reflexivity | ]. intros _. cbn.
    rewrite app_nil_r.
    intros x Hx. apply verbose_ev_stdout in Hx. destruct Hx as [<- | [] ]. left; auto. }
  destruct r as [v | o'].
  - apply gather_ok in Hg. destruct Hg as (-> & _).
    split; [auto | ]. intros Hne. contradiction Hne. reflexivity.
  - split; [right; apply bad_end_cases, Hs; reflexivity | ]. intros _.
    apply gather_failed in Hg.
    intros x Hx. apply in_app_or in Hx. destruct Hx as [Hx | Hx].
    + apply verbose_ev_stdout in Hx. destruct Hx as [<- | [] ]. left; auto.
    + apply Hg in Hx. destruct Hx as [<- | [] ]. right; left; auto.
Qed.

Lemma exit_status_and_total_witness :
  incl (stdout_of (fst (main 1 (world_with 4 (delivers 1) (ends_with 256))
                          ["classifier"; "-v"; "train"; "test"])))
    [banner_creating; banner_waiting].
Proof.
  destruct (exit_status_and_total 1 (world_with 4 (delivers 1) (ends_with 256))
              ["classifier"; "-v"; "train"; "test"]
              (fst (main 1 (world_with 4 (delivers 1) (ends_with 256))
                      ["classifier"; "-v"; "train"; "test"]))
              (Exit 1)) as [_ Hout].
  - reflexivity.
  - apply Hout. discriminate.
Defined.

(** ** The workers, one after the other (lines 137-220) *)

Lemma forks_of_app t1 t2 : forks_of (t1 ++ t2) = forks_of t1 ++ forks_of t2.
Proof. apply flat_map_app. Qed.

Lemma spawn_worker_forks w cfg m i s N t r :
  spawn_worker w cfg m i s N = (t, r) ->
  (forks_of t = [i] \/ forks_of t = []) /\ (r = inl tt -> forks_of t = [i]).
Proof.
  unfold spawn_worker, write_int, checked, perror_exit, exit, stop, emit, ret.
  cbn [bind app].
  repeat (match goal with
          | |- context [sys_ok w i ?c] => destruct (sys_ok w i c); cbn [bind app]
          end);
    intros H; injection H as <- <-; cbn; split; auto; intros E; discriminate E.
Qed.

(** [fork] is called for the workers [i], [i + 1], ... in that order, once
    each, up to the first failure. *)
Lemma dispatch_forks w cfg m T b n :
  forall i s td rd,
    dispatch w cfg m T b n i s = (td, rd) ->
    exists k, (k <= n)%nat /\ forks_of td = seq i k /\ (rd = inl tt -> k = n).
Proof.
  induction n as [ | n IH]; intros i s td rd H; cbn [dispatch] in H.
  - injection H as <- <-. exists O. auto.
  - apply bind_eq in H.
    destruct H as [(t1 & N & t2 & Hm & H & ->) | (o & Hm & ->)].
    2:{ apply lift_eq in Hm. destruct Hm as (-> & _).
        exists O. repeat split; [lia | discriminate]. }
    apply lift_eq in Hm. destruct Hm as (-> & _). cbn [app].
    apply bind_eq in H.
    destruct H as [(t1 & [] & t3 & Hm & H & ->) | (o & Hm & ->)].
    + apply spawn_worker_forks in Hm. destruct Hm as [_ Hm].
      specialize (Hm eq_refl).
      destruct (IH _ _ _ _ H) as (k & Hk & Hf & Hall).
      exists (S k). rewrite forks_of_app, Hm, Hf.
      repeat split; [lia | ]. intros E. rewrite (Hall E). reflexivity.
    + apply spawn_worker_forks in Hm. destruct Hm as [ [Hm | Hm] _]; rewrite Hm.
      * exists 1%nat. repeat split; [lia | discriminate].
      * exists O. repeat split; [lia | discriminate].
Qed.

Lemma early_trace_forks (t : list event) :
  Forall (fun e => early_event e = true) t -> forks_of t = [].
Proof.
  intros H. apply (flat_map_class early_event); [ | exact H].
  intros [ [] | | | | | | | | ] He; try discriminate He; reflexivity.
Qed.

Lemma gather_trace_forks (t : list event) :
  Forall (fun e => gather_event e = true) t -> forks_of t = [].
Proof.
  intros H. apply (flat_map_class gather_event); [ | exact H].
  intros [ [] | | | | | | | | ] He; try discriminate He; reflexivity.
Qed.

Lemma verbose_ev_forks cfg f text : forks_of (verbose_ev cfg f text) = [].
Proof. unfold verbose_ev. destruct (verbose cfg =? 0); reflexivity. Qed.

(** X5.  The coordinator calls [fork] for the workers 0, 1, 2, ... in that
    order and once each: never more than [num_procs] times, and exactly
    [num_procs] times in a run that ends with status 0.  Every worker is
    handed the same [K] and the metric selected from [-d]. *)
Theorem workers_forked_in_order (fuel : nat) (w : world) (argv : list string)
    (cfg : config) (optind : nat) (tr : list event) (o : outcome) :
  parse_options argv = Some (cfg, optind) ->
  main fuel w argv = (tr, o) ->
  (exists k, (k <= Z.to_nat (num_procs cfg))%nat /\ forks_of tr = seq O k /\
             (o = Exit 0 -> k = Z.to_nat (num_procs cfg))) /\
  (forall i K0 m0 inbox,
     In (EvFork i K0 m0 inbox) tr ->
     K0 = K cfg /\ select_metric (dist_metric cfg) = Some m0).
Proof.
  intros Hp H. apply main_shape in H.
  destruct H as [ [-> Ht] | (cfg' & optind' & m & training & testing & tq & r &
                            Hp' & Hlt & Hm & L1 & L2 & Hc & -> & ->) ].
  { split.
    - exists O. rewrite (early_trace_forks tr Ht).
      repeat split; [lia | discriminate].
    - intros i K0 m0 inbox Hin.
      rewrite Forall_forall in Ht. specialize (Ht _ Hin). discriminate. }
  rewrite Hp in Hp'. injection Hp' as <- <-.
  pose proof (coordinate_stops fuel w cfg m testing) as Hs.
  unfold stops_in in Hs. rewrite Hc in Hs. cbn [snd] in Hs.
  apply coordinate_shape in Hc.
  destruct Hc as (td & rest & -> & [ (-> & -> & -> & _) | (b & rd & Hpos & Hb & Hd & Hg) ]).
  { split.
    - exists O. rewrite !forks_of_app, !verbose_ev_forks.
      repeat split; [lia | discriminate].
    - intros i K0 m0 inbox Hin. rewrite app_nil_r in Hin.
      apply in_app_or in Hin. destruct Hin as [Hin | Hin].
      + apply in_app_or in Hin. destruct Hin as [Hin | Hin].
        * unfold verbose_ev in Hin. destruct (verbose cfg =? 0); [contradiction | ].
          destruct Hin as [E | [] ]; discriminate.
        * destruct Hin as [E | [E | [] ] ]; discriminate.
      + unfold verbose_ev in Hin. destruct (verbose cfg =? 0); [contradiction | ].
        destruct Hin as [E | [] ]; discriminate. }
  assert (Fr : forks_of rest = [] /\ Forall (fun e => is_fork e = false) rest).
  { destruct Hg as [ (o' & -> & -> & ->) | (-> & Hg) ]; [split; [reflexivity | constructor] | ].
    pose proof (gather_traced fuel w cfg (Z.to_nat (num_procs cfg))) as T.
    unfold traced in T. rewrite Hg in T. cbn [fst] in T.
    split; [exact (gather_trace_forks rest T) | ].
    eapply Forall_impl; [ | exact T].
    intros [ [] | | | | | | | | ] He; try discriminate He; reflexivity. }
  destruct Fr as [Fr Nr].
  split.
  - destruct (dispatch_forks _ _ _ _ _ _ _ _ _ _ Hd) as (k & Hk & Hf & Hall).
    exists k. rewrite !forks_of_app, !verbose_ev_forks, Hf, Fr, app_nil_r.
    split; [exact Hk | split; [cbn [app]; rewrite ?app_nil_r; reflexivity | ] ].
    intros E. apply Hall.
    destruct Hg as [ (o' & -> & -> & ->) | (-> & Hg) ]; [ | reflexivity].
    subst o'. specialize (Hs (Exit 0) eq_refl). discriminate.
  - intros i K0 m0 inbox Hin.
    apply in_app_or in Hin. destruct Hin as [Hin | Hin].
    { apply in_app_or in Hin. destruct Hin as [Hin | Hin].
      - unfold verbose_ev in Hin. destruct (verbose cfg =? 0); [contradiction | ].
        destruct Hin as [E | [] ]; discriminate.
      - destruct Hin as [E | [E | [] ] ]; discriminate. }
    apply in_app_or in Hin. destruct Hin as [Hin | Hin].
    { unfold verbose_ev in Hin. destruct (verbose cfg =? 0); [contradiction | ].
      destruct Hin as [E | [] ]; discriminate. }
    apply in_app_or in Hin. destruct Hin as [Hin | Hin].
    + apply in_split in Hin. destruct Hin as (pre & post & E).
      destruct (dispatch_fork _ _ _ _ _ _ _ _ _ _ _ _ _ _ _ _ Hd E)
        as (start & N & pre' & _ & _ & -> & -> & _).
      split; [reflexivity | exact Hm].
    + rewrite Forall_forall in Nr. specialize (Nr _ Hin). discriminate.
Qed.

Lemma workers_forked_in_order_witness :
  forks_of (fst (main 1 (calm_world 10 3) ["classifier"; "-p"; "3"; "train"; "test"]))
    = [0; 1; 2]%nat.
Proof.
  destruct (workers_forked_in_order 1 (calm_world 10 3)
              ["classifier"; "-p"; "3"; "train"; "test"]
              {| K := 1; dist_metric := "euclidean"; num_procs := 3; verbose := 0 |} 3%nat
              (fst (main 1 (calm_world 10 3) ["classifier"; "-p"; "3"; "train"; "test"]))
              (Exit 0)) as [(k & _ & Hf & Hall) _].
  - reflexivity.
  - reflexivity.
  - rewrite Hf, (Hall eq_refl). reflexivity.
Defined.

(** ** A system call that fails while a worker is created (lines 147-216) *)

Lemma verbose_ev_Forall (P : event -> Prop) cfg f text :
  P (EvPrint f text) -> Forall P (verbose_ev cfg f text).
Proof. intros H. unfold verbose_ev. destruct (verbose cfg =? 0); repeat constructor. exact H. Qed.

Lemma spawn_worker_calls w cfg m i s N t :
  spawn_worker w cfg m i s N = (t, inl tt) ->
  forall c, is_spawn_call c = true -> sys_ok w i c = true.
Proof.
  unfold spawn_worker, write_int, checked, perror_exit, exit, stop, emit, ret.
  cbn [bind app].
  repeat (match goal with
          | |- context [sys_ok w i ?c] => destruct (sys_ok w i c) eqn:?; cbn [bind app]
          end);
    intros H; try discriminate H;
    intros [ [] | | | [] [] | ] Hc; try discriminate Hc; assumption.
Qed.

(** When the loop completes, every call made for every worker succeeded. *)
Lemma dispatch_calls w cfg m T b n :
  forall i s td,
    dispatch w cfg m T b n i s = (td, inl tt) ->
    forall j c, (i <= j < i + n)%nat -> is_spawn_call c = true -> sys_ok w j c = true.
Proof.
  induction n as [ | n IH]; intros i s td H j c Hj Hc; [lia | ].
  cbn [dispatch] in H.
  apply bind_eq in H.
  destruct H as [(t1 & N & t2 & Hm & H & ->) | (o & _ & Hr)]; [ | discriminate].
  apply bind_eq in H.
  destruct H as [(t3 & [] & t4 & Hs & H & ->) | (o & _ & Hr)]; [ | discriminate].
  destruct (Nat.eq_dec j i) as [-> | Hne].
  - exact (spawn_worker_calls _ _ _ _ _ _ _ Hs c Hc).
  - apply (IH _ _ _ H j c); [lia | exact Hc].
Qed.

(** X6.  [pipe], [write], [close] and [fork] are checked: when one of the
    calls made to create worker [i], [i < num_procs], fails, the run does
    not end with status 0.  It exits with status 1 (or has met undefined
    behaviour before), it has read no result and waited for no worker, and
    it prints no total. *)
Theorem failed_call_stops_dispatch (fuel : nat) (w : world) (argv : list string)
    (cfg : config) (optind : nat) (tr : list event) (o : outcome) (i : nat) (c : call) :
  parse_options argv = Some (cfg, optind) ->
  (i < Z.to_nat (num_procs cfg))%nat ->
  is_spawn_call c = true ->
  sys_ok w i c = false ->
  main fuel w argv = (tr, o) ->
  (o = Exit 1 \/ o = Undefined) /\
  Forall (fun e => is_read e = false /\ is_wait e = false) tr /\
  incl (stdout_of tr) [banner_creating].
Proof.
  intros Hp Hi Hc Hfail H. apply main_shape in H.
  destruct H as [ [-> Ht] | (cfg' & optind' & m & training & testing & tq & r &
                            Hp' & Hlt & Hm & L1 & L2 & Hco & -> & ->) ].
  { split; [auto | split].
    - eapply Forall_impl; [ | exact Ht].
      intros [ [] | | | | | | | | ] He; try discriminate He; auto.
    - rewrite (early_trace_stdout tr Ht). intros x Hx. contradiction. }
  rewrite Hp in Hp'. injection Hp' as <- <-.
  apply coordinate_shape in Hco.
  assert (Pre : Forall (fun e => is_read e = false /\ is_wait e = false)
                  (verbose_ev cfg stderr banner_loading
                     ++ [EvLoad (nth_error argv optind); EvLoad (nth_error argv (S optind))])).
  { apply Forall_app. split; [apply verbose_ev_Forall; auto | repeat constructor]. }
  rewrite !stdout_of_app, verbose_ev_stderr_quiet. cbn [app stdout_of flat_map].
  destruct Hco as (td & rest & -> & [ (-> & -> & -> & _) | (b & rd & Hpos & Hb & Hd & Hg) ]).
  { split; [auto | split].
    - apply Forall_app. split; [exact Pre | ]. rewrite app_nil_r.
      apply verbose_ev_Forall. auto.
    - rewrite !stdout_of_app. cbn. rewrite !app_nil_r. apply verbose_ev_stdout. }
  destruct Hg as [ (o' & -> & -> & ->) | (-> & Hg) ].
  2:{ rewrite (dispatch_calls _ _ _ _ _ _ _ _ _ Hd i c ltac:(lia) Hc) in Hfail.
      discriminate. }
  pose proof (dispatch_stops w cfg m (num_items testing) b (Z.to_nat (num_procs cfg)) O 0) as Hs.
  unfold stops_in in Hs. rewrite Hd in Hs. specialize (Hs o' eq_refl).
  pose proof (dispatch_traced w cfg m (num_items testing) b (Z.to_nat (num_procs cfg)) O 0) as T.
  unfold traced in T. rewrite Hd in T. cbn [fst] in T.
  split; [ | split].
  - apply bad_end_cases in Hs. destruct Hs as [-> | [-> | ->] ]; auto.
    contradiction (dispatch_never_spins _ _ _ _ _ _ _ _ _ Hd).
  - apply Forall_app. split; [exact Pre | ].
    apply Forall_app. split; [apply verbose_ev_Forall; auto | ].
    rewrite app_nil_r. eapply Forall_impl; [ | exact T].
    intros [ ] He; try discriminate He; auto.
  - rewrite !stdout_of_app.
    assert (Sd : stdout_of td = []).
    { apply (flat_map_class spawn_event); [ | exact T].
      intros [ ] He; try discriminate He; reflexivity. }
    rewrite Sd. cbn. rewrite !app_nil_r. apply verbose_ev_stdout.
Qed.

(** [fork] fails for the second of three workers. *)
Lemma failed_call_stops_dispatch_witness :
  snd (main 1
         {| load_dataset := load_dataset (calm_world 10 3);
            sys_ok := fun i c => match i, c with 1%nat, CallFork => false | _, _ => true end;
            sys_read := delivers 3;
            sys_wait := ends_with 0 |}
         ["classifier"; "-p"; "3"; "train"; "test"]) = Exit 1.
Proof.
  destruct (failed_call_stops_dispatch 1
              {| load_dataset := load_dataset (calm_world 10 3);
                 sys_ok := fun i c => match i, c with 1%nat, CallFork => false | _, _ => true end;
                 sys_read := delivers 3;
                 sys_wait := ends_with 0 |}
              ["classifier"; "-p"; "3"; "train"; "test"]
              {| K := 1; dist_metric := "euclidean"; num_procs := 3; verbose := 0 |} 3%nat
              (fst (main 1
                 {| load_dataset := load_dataset (calm_world 10 3);
                    sys_ok := fun i c =>
                      match i, c with 1%nat, CallFork => false | _, _ => true end;
                    sys_read := delivers 3;
                    sys_wait := ends_with 0 |}
                 ["classifier"; "-p"; "3"; "train"; "test"]))
              (Exit 1) 1%nat CallFork) as [_ _].
  - reflexivity.
  - cbn. lia.
  - reflexivity.
  - reflexivity.
  - reflexivity.
  - reflexivity.
Defined.

(** ** The read loop (lines 230-239) *)

(** X7.  The loop around [read] ends at the first call that returns 4 or
    -1; every call before that one, whatever it returned (0 at end of file,
    or 1 to 3 bytes), is discarded and the next call starts afresh.  At 4
    the count just read is the result; at -1 the run ends with [perror] and
    status 1. *)
Theorem read_loop_result (w : world) (i d : nat) :
  forall (fuel j : nat),
    (d < fuel)%nat ->
    (forall d', (d' < d)%nat ->
       num_read (sys_read w i (j + d')) <> 4 /\ num_read (sys_read w i (j + d')) <> -1) ->
    (num_read (sys_read w i (j + d)) = 4 ->
       read_count fuel w i j =
         (map (fun k => EvRead i (sys_read w i k)) (seq j (S d)),
          inl (count (sys_read w i (j + d))))) /\
    (num_read (sys_read w i (j + d)) = -1 ->
       read_count fuel w i j =
         (map (fun k => EvRead i (sys_read w i k)) (seq j (S d)) ++ [EvPerror "read"],
          inr (Exit 1))).
Proof.
  induction d as [ | d IH]; intros fuel j Hd Hbefore.
  - destruct fuel as [ | fuel]; [lia | ]. rewrite Nat.add_0_r.
    cbn [read_count seq map]. unfold emit. cbn [bind]. split; intros E; rewrite E; reflexivity.
  - destruct fuel as [ | fuel]; [lia | ].
    destruct (Hbefore O ltac:(lia)) as [H4 H1]. rewrite Nat.add_0_r in H4, H1.
    apply Z.eqb_neq in H4. apply Z.eqb_neq in H1.
    assert (Hnext : forall d', (d' < d)%nat ->
              num_read (sys_read w i (S j + d')) <> 4 /\
              num_read (sys_read w i (S j + d')) <> -1).
    { intros d' Hd'. replace (S j + d')%nat with (j + S d')%nat by lia.
      apply Hbefore. lia. }
    destruct (IH fuel (S j) ltac:(lia) Hnext) as [I4 I1].
    replace (S j + d)%nat with (j + S d)%nat in I4, I1 by lia.
    split; intros E; cbn [read_count]; unfold emit; cbn [bind]; rewrite H4, H1.
    + rewrite (I4 E). reflexivity.
    + rewrite (I1 E). reflexivity.
Qed.

(** Two bytes, then nothing, then the four bytes of the integer 7. *)
Lemma read_loop_result_witness :
  read_count 5
    (world_with 4
       (fun _ j => match j with
                   | O => {| num_read := 2; count := 0 |}
                   | 1%nat => {| num_read := 0; count := 0 |}
                   | _ => {| num_read := 4; count := 7 |}
                   end)
       (ends_with 0)) O O
  = ([EvRead O {| num_read := 2; count := 0 |};
      EvRead O {| num_read := 0; count := 0 |};
      EvRead O {| num_read := 4; count := 7 |}], inl 7).
Proof.
  apply (read_loop_result
           (world_with 4
              (fun _ j => match j with
                          | O => {| num_read := 2; count := 0 |}
                          | 1%nat => {| num_read := 0; count := 0 |}
                          | _ => {| num_read := 4; count := 7 |}
                          end)
              (ends_with 0)) O 2 5 O).
  - lia.
  - intros [ | [ | d'] ] Hd'; cbn; [lia | lia | lia].
  - reflexivity.
Defined.

(** ** The order of collection (lines 224-245) *)

Lemma readers_of_app t1 t2 : readers_of (t1 ++ t2) = readers_of t1 ++ readers_of t2.
Proof. apply flat_map_app. Qed.

Lemma read_count_readers fuel w i :
  forall j t r,
    read_count fuel w i j = (t, r) ->
    readers_of t = match r with inl _ => [i] | inr _ => [] end.
Proof.
  induction fuel as [ | fuel IH]; intros j t r H; cbn [read_count] in H.
  - injection H as <- <-. reflexivity.
  - unfold emit in H. cbn [bind] in H.
    destruct (num_read (sys_read w i j) =? 4) eqn:E4.
    + cbn in H. injection H as <- <-. cbn. rewrite E4. reflexivity.
    + destruct (num_read (sys_read w i j) =? -1).
      * cbn in H. injection H as <- <-. cbn. rewrite E4. reflexivity.
      * destruct (read_count fuel w i (S j)) as [t' r'] eqn:Er.
        injection H as <- <-. cbn. rewrite E4. cbn. exact (IH _ _ _ Er).
Qed.

Lemma checked_readers w i c ch e what t r :
  checked w i c (EvClose i ch e) what = (t, r) -> readers_of t = [].
Proof.
  unfold checked, emit. cbn [bind]. destruct (sys_ok w i c); cbn;
    intros H; injection H as <- _; reflexivity.
Qed.

(** The results are read from the workers [i], [i + 1], ... in that order,
    one whole integer from each, up to the first failure. *)
Lemma collect_readers fuel w n :
  forall i acc tc rc,
    collect fuel w n i acc = (tc, rc) ->
    exists k, (k <= n)%nat /\ readers_of tc = seq i k /\
              (forall total, rc = inl total -> k = n).
Proof.
  induction n as [ | n IH]; intros i acc tc rc H; cbn [collect] in H.
  - injection H as <- <-. exists O. auto.
  - apply bind_eq in H.
    destruct H as [(t1 & c & t2 & Hm & H & ->) | (o & Hm & ->)].
    2:{ apply read_count_readers in Hm. rewrite Hm.
        exists O. split; [lia | split; [reflexivity | discriminate] ]. }
    apply read_count_readers in Hm.
    apply bind_eq in H.
    destruct H as [(t3 & [] & t4 & Hc & H & ->) | (o & Hc & ->)].
    + apply checked_readers in Hc.
      destruct (IH _ _ _ _ H) as (k & Hk & Hf & Hall).
      exists (S k). rewrite !readers_of_app, Hm, Hc, Hf.
      split; [lia | split; [reflexivity | ] ].
      intros total E. rewrite (Hall total E). reflexivity.
    + apply checked_readers in Hc.
      exists 1%nat. rewrite !readers_of_app, Hm, Hc.
      split; [lia | split; [reflexivity | discriminate] ].
Qed.

Lemma readers_of_class (P : event -> bool) (t : list event) :
  (forall e, P e = true -> is_read e = false) ->
  Forall (fun e => P e = true) t -> readers_of t = [].
Proof.
  intros HP H. apply (flat_map_class P); [ | exact H].
  intros e He. specialize (HP e He). destruct e; try reflexivity. discriminate HP.
Qed.

Lemma reap_event_not_read (e : event) : reap_event e = true -> is_read e = false.
Proof. destruct e; cbn; intros H; try discriminate H; reflexivity. Qed.

Lemma early_event_unread (e : event) : early_event e = true -> is_read e = false.
Proof. destruct e; cbn; intros H; try discriminate H; reflexivity. Qed.

Lemma verbose_ev_readers cfg f text : readers_of (verbose_ev cfg f text) = [].
Proof. unfold verbose_ev. destruct (verbose cfg =? 0); reflexivity. Qed.

(** X8.  The results are collected in the order the workers were created,
    whatever the order in which the workers finish: the whole integers
    that arrive come from the workers 0, 1, 2, ... in that order, one from
    each, and from all [num_procs] of them in a run that ends with
    status 0.  The pipe of worker [i + 1] is not read before the integer of
    worker [i] has arrived. *)
Theorem results_collected_in_order (fuel : nat) (w : world) (argv : list string)
    (cfg : config) (optind : nat) (tr : list event) (o : outcome) :
  parse_options argv = Some (cfg, optind) ->
  main fuel w argv = (tr, o) ->
  exists k, (k <= Z.to_nat (num_procs cfg))%nat /\ readers_of tr = seq O k /\
            (o = Exit 0 -> k = Z.to_nat (num_procs cfg)).
Proof.
  intros Hp H. apply main_shape in H.
  destruct H as [ [-> Ht] | (cfg' & optind' & m & training & testing & tq & r &
                            Hp' & Hlt & Hm & L1 & L2 & Hc & -> & ->) ].
  { exists O. rewrite (readers_of_class early_event tr early_event_unread Ht).
    split; [lia | split; [reflexivity | discriminate] ]. }
  rewrite Hp in Hp'. injection Hp' as <- <-.
  pose proof (coordinate_stops fuel w cfg m testing) as Hs.
  unfold stops_in in Hs. rewrite Hc in Hs. cbn [snd] in Hs.
  apply coordinate_shape in Hc.
  rewrite !readers_of_app, !verbose_ev_readers. cbn [app readers_of flat_map].
  destruct Hc as (td & rest & -> & [ (-> & -> & -> & _) | (b & rd & Hpos & Hb & Hd & Hg) ]).
  { exists O. rewrite !readers_of_app, !verbose_ev_readers.
    split; [lia | split; [reflexivity | discriminate] ]. }
  pose proof (dispatch_traced w cfg m (num_items testing) b (Z.to_nat (num_procs cfg)) O 0) as T.
  unfold traced in T. rewrite Hd in T. cbn [fst] in T.
  rewrite !readers_of_app, !verbose_ev_readers,
    (readers_of_class spawn_event td spawn_event_not_read T).
  cbn [app].
  destruct Hg as [ (o' & -> & -> & ->) | (-> & Hg) ].
  { exists O. split; [lia | split; [reflexivity | ] ].
    intros ->. specialize (Hs (Exit 0) eq_refl). discriminate. }
  apply gather_shape in Hg.
  destruct Hg as (tc & rc & Hcol & Hg).
  destruct (collect_readers _ _ _ _ _ _ _ Hcol) as (k & Hk & Hf & Hall).
  exists k. split; [exact Hk | ].
  destruct Hg as [ (o' & -> & -> & ->) | (total & tw & rw & -> & Hw & Hg) ].
  { split; [exact Hf | ].
    intros ->. specialize (Hs (Exit 0) eq_refl). discriminate. }
  pose proof (reap_traced w (Z.to_nat (num_procs cfg)) O) as Tw.
  unfold traced in Tw. rewrite Hw in Tw. cbn [fst] in Tw.
  split; [ | intros _; exact (Hall total eq_refl)].
  destruct Hg as [ (o' & -> & -> & ->) | (-> & -> & ->) ];
    rewrite !readers_of_app, !verbose_ev_readers, Hf,
      (readers_of_class reap_event tw reap_event_not_read Tw);
    cbn [app readers_of flat_map]; rewrite ?app_nil_r; reflexivity.
Qed.

Lemma results_collected_in_order_witness :
  readers_of (fst (main 1 (calm_world 10 3) ["classifier"; "-p"; "3"; "train"; "test"]))
    = [0; 1; 2]%nat.
Proof.
  destruct (results_collected_in_order 1 (calm_world 10 3)
              ["classifier"; "-p"; "3"; "train"; "test"]
              {| K := 1; dist_metric := "euclidean"; num_procs := 3; verbose := 0 |} 3%nat
              (fst (main 1 (calm_world 10 3) ["classifier"; "-p"; "3"; "train"; "test"]))
              (Exit 0)) as (k & _ & Hf & Hall).
  - reflexivity.
  - reflexivity.
  - rewrite Hf, (Hall eq_refl). reflexivity.
Defined.

(** ** The total (lines 224-245 and 276) *)

Lemma fold_add_plain (l : list Z) :
  forall acc,
    Forall (fun c => 0 <= c) l -> 0 <= acc ->
    acc + fold_right Z.add 0 l <= CInt.INT_MAX ->
    fold_left CInt.add l acc = acc + fold_right Z.add 0 l.
Proof.
  induction l as [ | c l IH]; intros acc Hl Hacc Hsum; cbn [fold_left fold_right] in *.
  - lia.
  - inversion Hl as [ | ? ? Hc Hl']; subst.
    assert (Hrest : 0 <= fold_right Z.add 0 l).
    { clear -Hl'. induction Hl' as [ | x l Hx _ IH']; cbn; lia. }
    unfold CInt.add at 2. rewrite wrap_small by (unfold CInt.INT_MIN, CInt.INT_MAX in *; lia).
    rewrite IH by (auto; lia). lia.
Qed.

Lemma success_counts fuel w argv tr :
  main fuel w argv = (tr, Exit 0) ->
  exists pre,
    tr = pre ++ [EvPrint stdout (total_line (sum_int (counts_of tr)))].
Proof.
  intros H. apply main_success in H.
  destruct H as (cfg & optind & td & tc & tw & total & Hp & Td & Tc & Pe & Hc & Hw & ->).
  apply collect_total in Hc. destruct Hc as [Ht Hlen].
  apply reap_ok in Hw. destruct Hw as [_ ->].
  assert (Sd : Forall (fun e => silent e = true) td).
  { eapply Forall_impl; [ | exact Td]. intros [ ] He; try discriminate He; reflexivity. }
  destruct (silent_trace td Sd) as (_ & _ & D3).
  destruct (silent_trace _ (waits_silent w (seq O (Z.to_nat (num_procs cfg)))))
    as (_ & _ & W3).
  assert (Ec : counts_of
      ((verbose_ev cfg stderr banner_loading
          ++ [EvLoad (nth_error argv optind); EvLoad (nth_error argv (S optind))])
         ++ verbose_ev cfg stdout banner_creating ++ td
         ++ tc ++ verbose_ev cfg stdout banner_waiting
         ++ map (fun j => EvWait (sys_wait w j)) (seq O (Z.to_nat (num_procs cfg)))
         ++ verbose_ev cfg stdout (banner_total total)
         ++ [EvPrint stdout (total_line total)]) = counts_of tc).
  { rewrite !counts_of_app, D3, W3. unfold verbose_ev.
    destruct (verbose cfg =? 0); cbn; rewrite ?app_nil_r; reflexivity. }
  rewrite Ec. unfold sum_int. rewrite <- Ht.
  eexists. rewrite !app_assoc. reflexivity.
Qed.

(** X9.  The total is accumulated in an [int].  When no worker reports a
    negative count and the counts add up to at most [INT_MAX], nothing is
    lost: the last thing a run that ends with status 0 does is to print,
    on standard output, the sum of the integers it read. *)
Theorem total_is_plain_sum (fuel : nat) (w : world) (argv : list string)
    (tr : list event) :
  main fuel w argv = (tr, Exit 0) ->
  Forall (fun c => 0 <= c) (counts_of tr) ->
  fold_right Z.add 0 (counts_of tr) <= CInt.INT_MAX ->
  exists pre,
    tr = pre ++ [EvPrint stdout (total_line (fold_right Z.add 0 (counts_of tr)))].
Proof.
  intros H Hpos Hsum.
  destruct (success_counts fuel w argv tr H) as (pre & E).
  exists pre. unfold sum_int in E.
  rewrite fold_add_plain in E by (auto; lia). exact E.
Qed.

Lemma total_is_plain_sum_witness :
  exists pre,
    fst (main 1 (calm_world 10 3) ["classifier"; "-p"; "3"; "train"; "test"])
      = pre ++ [EvPrint stdout (total_line 9)].
Proof.
  apply (total_is_plain_sum 1 (calm_world 10 3) ["classifier"; "-p"; "3"; "train"; "test"]
           (fst (main 1 (calm_world 10 3) ["classifier"; "-p"; "3"; "train"; "test"]))).
  - reflexivity.
  - change (Forall (fun c => 0 <= c) [3; 3; 3]). repeat constructor; lia.
  - change (9 <= CInt.INT_MAX). unfold CInt.INT_MAX. lia.
Defined.

(** ** The pipe ends (lines 167, 209-216 and 241-244) *)

Lemma closes_of_app t1 t2 i ch e :
  closes_of (t1 ++ t2) i ch e = (closes_of t1 i ch e + closes_of t2 i ch e)%nat.
Proof. unfold closes_of. rewrite filter_app, length_app. reflexivity. Qed.

Lemma closes_of_verbose_ev cfg f text i ch e : closes_of (verbose_ev cfg f text) i ch e = O.
Proof. unfold verbose_ev. destruct (verbose cfg =? 0); reflexivity. Qed.

Lemma closes_of_waits w l i ch e :
  closes_of (map (fun j => EvWait (sys_wait w j)) l) i ch e = O.
Proof. induction l as [ | j l IH]; [reflexivity | exact IH]. Qed.

Lemma closes_of_worker_events cfg m i s N j ch e :
  closes_of (worker_events cfg m i s N) j ch e =
    if Nat.eqb i j && is_spawn_call (CallClose ch e) then 1%nat else O.
Proof.
  unfold closes_of, worker_events. cbn [filter].
  destruct (Nat.eqb i j), ch, e; reflexivity.
Qed.

Lemma dispatch_closes w cfg m T b n :
  forall i s td j ch e,
    dispatch w cfg m T b n i s = (td, inl tt) ->
    closes_of td j ch e =
      if (i <=? j)%nat && (j <? i + n)%nat && is_spawn_call (CallClose ch e)
      then 1%nat else O.
Proof.
  induction n as [ | n IH]; intros i s td j ch e H; cbn [dispatch] in H.
  - injection H as <-. change (closes_of [] j ch e) with O.
    destruct (Nat.leb_spec i j), (Nat.ltb_spec j (i + 0)); cbn; try reflexivity; lia.
  - apply bind_eq in H.
    destruct H as [(t1 & N & t2 & Hm & H & ->) | (o & _ & Hr)]; [ | discriminate].
    apply lift_eq in Hm. destruct Hm as (-> & _). cbn [app].
    apply bind_eq in H.
    destruct H as [(t1 & [] & t3 & Hm & H & ->) | (o & _ & Hr)]; [ | discriminate].
    apply spawn_worker_ok in Hm. subst t1.
    rewrite closes_of_app, closes_of_worker_events, (IH _ _ _ j ch e H).
    destruct (is_spawn_call (CallClose ch e)); rewrite ?andb_false_r, ?andb_true_r;
      [ | reflexivity].
    destruct (Nat.eqb_spec i j), (Nat.leb_spec i j), (Nat.ltb_spec j (i + S n)),
      (Nat.leb_spec (S i) j), (Nat.ltb_spec j (S i + n)); cbn; try reflexivity; lia.
Qed.

Lemma read_count_closes fuel w i :
  forall j t r k ch e, read_count fuel w i j = (t, r) -> closes_of t k ch e = O.
Proof.
  induction fuel as [ | fuel IH]; intros j t r k ch e H; cbn [read_count] in H.
  - injection H as <- _. reflexivity.
  - unfold emit in H. cbn [bind] in H.
    destruct (num_read (sys_read w i j) =? 4).
    + cbn in H. injection H as <- _. reflexivity.
    + destruct (num_read (sys_read w i j) =? -1).
      * cbn in H. injection H as <- _. reflexivity.
      * destruct (read_count fuel w i (S j)) as [t' r'] eqn:Er.
        injection H as <- _. exact (IH _ _ _ k ch e Er).
Qed.

Lemma collect_closes fuel w n :
  forall i acc tc total j ch e,
    collect fuel w n i acc = (tc, inl total) ->
    closes_of tc j ch e =
      if (i <=? j)%nat && (j <? i + n)%nat && negb (is_spawn_call (CallClose ch e))
      then 1%nat else O.
Proof.
  induction n as [ | n IH]; intros i acc tc total j ch e H; cbn [collect] in H.
  - injection H as <- _. change (closes_of [] j ch e) with O.
    destruct (Nat.leb_spec i j), (Nat.ltb_spec j (i + 0)); cbn; try reflexivity; lia.
  - apply bind_eq in H.
    destruct H as [(t1 & c & t2 & Hm & H & ->) | (o & _ & Hr)]; [ | discriminate].
    apply bind_eq in H.
    destruct H as [(t3 & [] & t4 & Hc & H & ->) | (o & _ & Hr)]; [ | discriminate].
    apply checked_ok in Hc. subst t3.
    rewrite !closes_of_app, (read_count_closes _ _ _ _ _ _ j ch e Hm),
      (IH _ _ _ _ j ch e H).
    unfold closes_of at 1. cbn [filter].
    destruct ch, e; cbn [channel_eqb pipe_end_eqb is_spawn_call negb];
      rewrite ?andb_false_r, ?andb_true_r; try reflexivity.
    destruct (Nat.eqb_spec i j), (Nat.leb_spec i j), (Nat.ltb_spec j (i + S n)),
      (Nat.leb_spec (S i) j), (Nat.ltb_spec j (S i + n)); cbn; try reflexivity; lia.
Qed.

(** A run that ends with status 0 went through the three loops. *)
Lemma main_success_phases fuel w argv tr :
  main fuel w argv = (tr, Exit 0) ->
  exists cfg optind m testing b td tc tw total,
    parse_options argv = Some (cfg, optind) /\
    select_metric (dist_metric cfg) = Some m /\
    load_dataset w (nth_error argv (S optind)) = Some testing /\
    CInt.rem (num_items testing) (num_procs cfg) = Some b /\
    dispatch w cfg m (num_items testing) b (Z.to_nat (num_procs cfg)) O 0 = (td, inl tt) /\
    collect fuel w (Z.to_nat (num_procs cfg)) O 0 = (tc, inl total) /\
    reap w (Z.to_nat (num_procs cfg)) O = (tw, inl tt) /\
    tr = (verbose_ev cfg stderr banner_loading
            ++ [EvLoad (nth_error argv optind); EvLoad (nth_error argv (S optind))])
         ++ verbose_ev cfg stdout banner_creating ++ td
         ++ tc ++ verbose_ev cfg stdout banner_waiting ++ tw
         ++ verbose_ev cfg stdout (banner_total total)
         ++ [EvPrint stdout (total_line total)].
Proof.
  intros H. apply main_shape in H.
  destruct H as [ [H _] | (cfg & optind & m & training & testing & tq & r &
                            Hp & Hlt & Hm & L1 & L2 & Hc & -> & Ho) ]; [discriminate | ].
  pose proof (coordinate_stops fuel w cfg m testing) as Hs.
  unfold stops_in in Hs. rewrite Hc in Hs. cbn [snd] in Hs.
  destruct r as [v | o'].
  2:{ subst o'. specialize (Hs (Exit 0) eq_refl). discriminate. }
  apply coordinate_shape in Hc.
  destruct Hc as (td & rest & -> & [ (_ & _ & E & _) | (b & rd & Hpos & Hb & Hd & Hg) ]);
    [discriminate | ].
  destruct Hg as [ (o' & _ & _ & E) | (-> & Hg) ]; [discriminate | ].
  apply gather_ok in Hg. destruct Hg as (_ & tc & total & tw & Hcol & Hreap & ->).
  exists cfg, optind, m, testing, b, td, tc, tw, total.
  repeat split; auto.
Qed.

(** X10.  In a run that ends with status 0 the coordinator has closed each
    of the four ends of the two pipes of each of its [num_procs] workers
    exactly once: it leaves none of them open and closes none twice. *)
Theorem pipe_ends_closed_once (fuel : nat) (w : world) (argv : list string)
    (cfg : config) (optind : nat) (tr : list event) :
  parse_options argv = Some (cfg, optind) ->
  main fuel w argv = (tr, Exit 0) ->
  forall i ch e,
    closes_of tr i ch e = if (i <? Z.to_nat (num_procs cfg))%nat then 1%nat else O.
Proof.
  intros Hp H i ch e. apply main_success_phases in H.
  destruct H as (cfg' & optind' & m & testing & b & td & tc & tw & total &
                 Hp' & _ & _ & _ & Hd & Hc & Hw & ->).
  rewrite Hp in Hp'. injection Hp' as <- <-.
  apply reap_ok in Hw. destruct Hw as [_ ->].
  rewrite !closes_of_app, !closes_of_verbose_ev, closes_of_waits,
    (dispatch_closes _ _ _ _ _ _ _ _ _ i ch e Hd),
    (collect_closes _ _ _ _ _ _ _ i ch e Hc).
  cbn [Nat.leb andb Nat.add].
  destruct (i <? Z.to_nat (num_procs cfg))%nat, (is_spawn_call (CallClose ch e));
    reflexivity.
Qed.

Lemma pipe_ends_closed_once_witness :
  closes_of (fst (main 1 (calm_world 10 3) ["classifier"; "-p"; "3"; "train"; "test"]))
    2 c_to_p read_end = 1%nat.
Proof.
  apply (pipe_ends_closed_once 1 (calm_world 10 3)
           ["classifier"; "-p"; "3"; "train"; "test"]
           {| K := 1; dist_metric := "euclidean"; num_procs := 3; verbose := 0 |} 3%nat
           (fst (main 1 (calm_world 10 3) ["classifier"; "-p"; "3"; "train"; "test"]))).
  - reflexivity.
  - reflexivity.
Defined.

(** ** Collection before reaping (lines 224-266) *)

Lemma collect_event_not_wait (e : event) : collect_event e = true -> is_wait e = false.
Proof. destruct e; cbn; intros H; try discriminate H; reflexivity. Qed.

Lemma spawn_event_not_wait (e : event) : spawn_event e = true -> is_wait e = false.
Proof. destruct e; cbn; intros H; try discriminate H; reflexivity. Qed.

Lemma early_event_not_wait (e : event) : early_event e = true -> is_wait e = false.
Proof. destruct e; cbn; intros H; try discriminate H; reflexivity. Qed.

Lemma Forall_unclass (P P' : event -> bool) (tr : list event) :
  (forall e, P e = true -> P' e = false) ->
  Forall (fun e => P e = true) tr -> Forall (fun e => P' e = false) tr.
Proof. intros Himp H. eapply Forall_impl; [ | exact H]. exact Himp. Qed.

Lemma no_wait_in (t pre post : list event) (r : wait_ret) :
  Forall (fun e => is_wait e = false) t -> t = pre ++ EvWait r :: post -> False.
Proof.
  intros H E. subst t. apply Forall_app in H. destruct H as [_ H].
  inversion H; subst. discriminate.
Qed.

(** X11.  [wait] is not called before every worker has delivered its
    result: at the first [wait] the whole integers of all [num_procs]
    workers have been read, in order, and nothing is read from a pipe after
    that.  A worker that ends without writing is therefore never waited
    for. *)
Theorem collection_precedes_reaping (fuel : nat) (w : world) (argv : list string)
    (cfg : config) (optind : nat) (tr : list event) (o : outcome)
    (pre post : list event) (r : wait_ret) :
  parse_options argv = Some (cfg, optind) ->
  main fuel w argv = (tr, o) ->
  tr = pre ++ EvWait r :: post ->
  readers_of pre = seq O (Z.to_nat (num_procs cfg)) /\
  Forall (fun e => is_read e = false) post.
Proof.
  intros Hp H E. apply main_shape in H.
  destruct H as [ [-> Ht] | (cfg' & optind' & m & training & testing & tq & r' &
                            Hp' & Hlt & Hm & L1 & L2 & Hc & Etr & ->) ].
  { exfalso. apply (no_wait_in tr pre post r); [ | exact E].
    exact (Forall_unclass _ _ _ early_event_not_wait Ht). }
  rewrite Hp in Hp'. injection Hp' as <- <-.
  assert (Pre : Forall (fun e => is_wait e = false)
                  (verbose_ev cfg stderr banner_loading
                     ++ [EvLoad (nth_error argv optind); EvLoad (nth_error argv (S optind))])).
  { apply Forall_app. split; [apply verbose_ev_Forall; auto | repeat constructor]. }
  apply coordinate_shape in Hc.
  destruct Hc as (td & rest & -> & [ (-> & -> & -> & _) | (b & rd & Hpos & Hb & Hd & Hg) ]).
  { exfalso. apply (no_wait_in tr pre post r); [ | exact E]. rewrite Etr.
    apply Forall_app. split; [exact Pre | ]. rewrite app_nil_r.
    apply verbose_ev_Forall. reflexivity. }
  pose proof (dispatch_traced w cfg m (num_items testing) b (Z.to_nat (num_procs cfg)) O 0) as T.
  unfold traced in T. rewrite Hd in T. cbn [fst] in T.
  destruct Hg as [ (o' & -> & -> & ->) | (-> & Hg) ].
  { exfalso. apply (no_wait_in tr pre post r); [ | exact E]. rewrite Etr.
    apply Forall_app. split; [exact Pre | ].
    apply Forall_app. split; [apply verbose_ev_Forall; reflexivity | ].
    rewrite app_nil_r. exact (Forall_unclass _ _ _ spawn_event_not_wait T). }
  apply gather_shape in Hg.
  destruct Hg as (tc & rc & Hcol & Hg).
  pose proof (collect_traced fuel w (Z.to_nat (num_procs cfg)) O 0) as Tc.
  unfold traced in Tc. rewrite Hcol in Tc. cbn [fst] in Tc.
  destruct Hg as [ (o' & -> & -> & ->) | (total & tw & rw & -> & Hw & Hg) ].
  { exfalso. apply (no_wait_in tr pre post r); [ | exact E]. rewrite Etr.
    apply Forall_app. split; [exact Pre | ].
    apply Forall_app. split; [apply verbose_ev_Forall; reflexivity | ].
    apply Forall_app. split; [exact (Forall_unclass _ _ _ spawn_event_not_wait T) | ].
    exact (Forall_unclass _ _ _ collect_event_not_wait Tc). }
  pose proof (reap_traced w (Z.to_nat (num_procs cfg)) O) as Tw.
  unfold traced in Tw. rewrite Hw in Tw. cbn [fst] in Tw.
  destruct (collect_readers _ _ _ _ _ _ _ Hcol) as (k & _ & Hf & Hall).
  rewrite (Hall total eq_refl) in Hf.
  assert (Shape : exists tail,
            Forall (fun e => is_read e = false) tail /\
            tr = ((verbose_ev cfg stderr banner_loading
                     ++ [EvLoad (nth_error argv optind); EvLoad (nth_error argv (S optind))])
                    ++ verbose_ev cfg stdout banner_creating ++ td ++ tc
                    ++ verbose_ev cfg stdout banner_waiting) ++ tail).
  { destruct Hg as [ (o' & -> & -> & ->) | (-> & -> & ->) ].
    - exists tw. split; [exact (Forall_unclass _ _ _ reap_event_not_read Tw) | ].
      rewrite Etr, <- !app_assoc. reflexivity.
    - exists (tw ++ verbose_ev cfg stdout (banner_total total)
                ++ [EvPrint stdout (total_line total)]).
      split.
      + apply Forall_app. split; [exact (Forall_unclass _ _ _ reap_event_not_read Tw) | ].
        apply Forall_app. split; [apply verbose_ev_Forall; reflexivity | repeat constructor].
      + rewrite Etr, <- !app_assoc. reflexivity. }
  destruct Shape as (tail & Htail & Etr').
  rewrite Etr' in E.
  apply (split_app_class is_wait) in E; [ | | reflexivity].
  2:{ apply Forall_app. split; [exact Pre | ].
      apply Forall_app. split; [apply verbose_ev_Forall; reflexivity | ].
      apply Forall_app. split; [exact (Forall_unclass _ _ _ spawn_event_not_wait T) | ].
      apply Forall_app. split; [exact (Forall_unclass _ _ _ collect_event_not_wait Tc) | ].
      apply verbose_ev_Forall. reflexivity. }
  destruct E as (pre2 & -> & Et).
  rewrite Et in Htail. apply Forall_app in Htail. destruct Htail as [Hpre2 Hpost].
  inversion Hpost as [ | ? ? _ Hpost']; subst.
  split; [ | exact Hpost'].
  rewrite !readers_of_app, !verbose_ev_readers,
    (readers_of_class spawn_event td spawn_event_not_read T), Hf.
  cbn [app readers_of flat_map].
  assert (R2 : readers_of pre2 = []).
  { apply (flat_map_class (fun e => negb (is_read e))).
    - intros [ ] He; try discriminate He; reflexivity.
    - eapply Forall_impl; [ | exact Hpre2]. intros e He. cbn. rewrite He. reflexivity. }
  rewrite R2, !app_nil_r. reflexivity.
Qed.

Lemma collection_precedes_reaping_witness :
  readers_of
    [EvLoad (Some "train"); EvLoad (Some "test");
     EvPipe 0 c_to_p; EvPipe 0 p_to_c; EvWrite 0 0; EvWrite 0 4;
     EvClose 0 p_to_c write_end;
     EvFork 0 1 distance_euclidean {| buffered := [0; 4]; write_open := false |};
     EvClose 0 p_to_c read_end; EvClose 0 c_to_p write_end;
     EvRead 0 {| num_read := 4; count := 1 |}; EvClose 0 c_to_p read_end]
  = [O].
Proof.
  destruct (collection_precedes_reaping 1 (calm_world 4 1) ["classifier"; "train"; "test"]
              default_config 1%nat
              (fst (main 1 (calm_world 4 1) ["classifier"; "train"; "test"]))
              (Exit 0)
              [EvLoad (Some "train"); EvLoad (Some "test");
               EvPipe 0 c_to_p; EvPipe 0 p_to_c; EvWrite 0 0; EvWrite 0 4;
               EvClose 0 p_to_c write_end;
               EvFork 0 1 distance_euclidean {| buffered := [0; 4]; write_open := false |};
               EvClose 0 p_to_c read_end; EvClose 0 c_to_p write_end;
               EvRead 0 {| num_read := 4; count := 1 |}; EvClose 0 c_to_p read_end]
              [EvPrint stdout (total_line 1)]
              {| wait_pid := 1000; status := 0 |}) as [Hr _].
  - reflexivity.
  - reflexivity.
  - reflexivity.
  - exact Hr.
Defined.

(** ** Runs that come to an end (lines 224-245) *)

Lemma collect_ends_within fuel w n :
  forall i acc,
    (forall k, (i <= k < i + n)%nat ->
       exists d, (d < fuel)%nat /\
         (num_read (sys_read w k d) = 4 \/ num_read (sys_read w k d) = -1)) ->
    stops_in is_ending (collect fuel w n i acc).
Proof.
  induction n as [ | n IH]; intros i acc Hw; cbn [collect].
  - apply stops_in_ret.
  - apply stops_in_bind.
    + destruct (Hw i ltac:(lia)) as (d & Hd & Hr).
      apply (read_count_ends fuel w i O d Hd Hr).
    + intros c. apply stops_in_bind; [apply stops_in_checked; reflexivity | intros _].
      apply IH. intros k Hk. apply Hw. lia.
Qed.

(** X12.  The only loop of the coordinator that can go on for ever is the
    one around [read].  When, for each of the [num_procs] workers, one of
    the first [fuel] calls of [read] on its pipe returns 4 or -1, the run
    comes to an end, and it is the same run however many more calls are
    allowed. *)
Theorem enough_reads_end_the_run (fuel : nat) (w : world) (argv : list string)
    (cfg : config) (optind : nat) :
  parse_options argv = Some (cfg, optind) ->
  (forall i, (i < Z.to_nat (num_procs cfg))%nat ->
     exists d, (d < fuel)%nat /\
       (num_read (sys_read w i d) = 4 \/ num_read (sys_read w i d) = -1)) ->
  snd (main fuel w argv) <> Spinning /\
  forall fuel', (fuel <= fuel')%nat -> main fuel' w argv = main fuel w argv.
Proof.
  intros Hp Hw.
  assert (Ends : snd (main fuel w argv) <> Spinning).
  { destruct (main fuel w argv) as [tr o] eqn:H. cbn [snd].
    apply main_shape in H.
    destruct H as [ [-> _] | (cfg' & optind' & m & training & testing & tq & r &
                              Hp' & _ & _ & _ & _ & Hc & _ & ->) ]; [discriminate | ].
    rewrite Hp in Hp'. injection Hp' as <- <-.
    destruct r as [v | o]; [discriminate | ].
    apply coordinate_shape in Hc.
    destruct Hc as (td & rest & _ & [ (_ & _ & E & _) | (b & rd & _ & _ & Hd & Hg) ]).
    { injection E as ->. discriminate. }
    destruct Hg as [ (o' & -> & _ & E) | (_ & Hg) ].
    - injection E as ->.
      intros ->. apply (dispatch_never_spins _ _ _ _ _ _ _ _ _ Hd).
    - apply gather_shape in Hg.
      destruct Hg as (tc & rc & Hcol &
                      [ (o' & -> & E & _) | (total & tw & rw & _ & Hr & Hg) ]).
      + injection E as ->.
        pose proof (collect_ends_within fuel w (Z.to_nat (num_procs cfg)) O 0) as C.
        unfold stops_in in C. rewrite Hcol in C.
        intros ->.
        assert (is_ending Spinning = true); [ | discriminate].
        apply C; [ | reflexivity]. intros k Hk. apply Hw. lia.
      + destruct Hg as [ (o' & -> & E & _) | (_ & E & _) ]; [ | discriminate].
        injection E as ->.
        pose proof (reap_stops is_ending w (Z.to_nat (num_procs cfg)) eq_refl O) as R.
        unfold stops_in in R. rewrite Hr in R. specialize (R o' eq_refl).
        intros ->. discriminate. }
  split; [exact Ends | ].
  intros fuel' Hle.
  destruct (main fuel w argv) as [tr o] eqn:H. cbn [snd] in Ends.
  exact (main_more_fuel fuel fuel' w argv tr o Hle H Ends).
Qed.

Lemma enough_reads_end_the_run_witness :
  snd (main 1 (calm_world 10 3) ["classifier"; "-p"; "3"; "train"; "test"]) <> Spinning.
Proof.
  destruct (enough_reads_end_the_run 1 (calm_world 10 3)
              ["classifier"; "-p"; "3"; "train"; "test"]
              {| K := 1; dist_metric := "euclidean"; num_procs := 3; verbose := 0 |} 3%nat)
    as [Hends _].
  - reflexivity.
  - intros i _. exists O. split; [lia | left; reflexivity].
  - exact Hends.
Defined.

(** ** The run in which nothing fails (lines 75-284) *)

Lemma spawn_worker_run w cfg m i s N :
  (forall c, sys_ok w i c = true) ->
  spawn_worker w cfg m i s N = (worker_events cfg m i s N, inl tt).
Proof.
  intros Hok. unfold spawn_worker, write_int, checked. rewrite !Hok. reflexivity.
Qed.

Lemma dispatch_run w cfg m T n :
  0 <= T <= CInt.INT_MAX -> 1 <= num_procs cfg <= CInt.INT_MAX ->
  forall i,
    Z.of_nat (i + n) <= num_procs cfg ->
    (forall k c, (i <= k < i + n)%nat -> sys_ok w k c = true) ->
    dispatch w cfg m T (T mod num_procs cfg) n i
      (planner_start T (num_procs cfg) (Z.of_nat i)) =
      (flat_map
         (fun k => worker_events cfg m k
                     (planner_start T (num_procs cfg) (Z.of_nat k))
                     (planner_len T (num_procs cfg) (Z.of_nat k)))
         (seq i n), inl tt).
Proof.
  intros HT Hp. induction n as [ | n IH]; intros i Hin Hok; cbn [dispatch seq flat_map].
  - reflexivity.
  - rewrite partition_len_planner by lia. cbn [lift]. rewrite bind_ret.
    rewrite spawn_worker_run by (intros c; apply Hok; lia).
    cbn [bind].
    assert (Hnext : CInt.add (planner_start T (num_procs cfg) (Z.of_nat i))
                      (planner_len T (num_procs cfg) (Z.of_nat i))
                    = planner_start T (num_procs cfg) (Z.of_nat (S i))).
    { unfold CInt.add. rewrite <- planner_start_succ.
      replace (Z.of_nat i + 1) with (Z.of_nat (S i)) by lia.
      apply wrap_small.
      pose proof (planner_start_bounds T (num_procs cfg) (Z.of_nat (S i))).
      unfold CInt.INT_MIN, CInt.INT_MAX in *. lia. }
    rewrite Hnext, IH by (try lia; intros k c Hk; apply Hok; lia).
    reflexivity.
Qed.

Lemma collect_run fuel w n :
  (0 < fuel)%nat ->
  forall i acc,
    (forall k, (i <= k < i + n)%nat ->
       num_read (sys_read w k O) = 4 /\ sys_ok w k (CallClose c_to_p read_end) = true) ->
    collect fuel w n i acc =
      (flat_map (fun k => [EvRead k (sys_read w k O); EvClose k c_to_p read_end]) (seq i n),
       inl (fold_left CInt.add (map (fun k => count (sys_read w k O)) (seq i n)) acc)).
Proof.
  intros Hf. destruct fuel as [ | fuel]; [lia | ].
  induction n as [ | n IH]; intros i acc Hw; cbn [collect seq flat_map map fold_left].
  - reflexivity.
  - destruct (Hw i ltac:(lia)) as [H4 Hok].
    cbn [read_count]. unfold emit, checked. rewrite H4, Hok. cbn [Z.eqb Pos.eqb bind ret app].
    rewrite IH by (intros k Hk; apply Hw; lia). reflexivity.
Qed.

Lemma reap_run w n :
  forall i,
    (forall k, (i <= k < i + n)%nat ->
       0 <= wait_pid (sys_wait w k) /\ exited_with_1 (sys_wait w k) = false) ->
    reap w n i = (map (fun k => EvWait (sys_wait w k)) (seq i n), inl tt).
Proof.
  induction n as [ | n IH]; intros i Hw; cbn [reap seq map].
  - reflexivity.
  - destruct (Hw i ltac:(lia)) as [Hpid Hx].
    unfold emit. cbn [bind].
    destruct (Z.ltb_spec (wait_pid (sys_wait w i)) 0); [lia | ].
    fold (exited_with_1 (sys_wait w i)). rewrite Hx.
    rewrite IH by (intros k Hk; apply Hw; lia). reflexivity.
Qed.

(** X13.  The run in which nothing fails, in full.  With
    [0 <= num_items <= INT_MAX] test items and
    [1 <= num_procs <= 1073741823], when every system call made for the
    [num_procs] workers succeeds, every worker delivers its integer at the
    first [read] and [wait] reports no failure and no exit with status 1,
    the coordinator loads the two datasets; creates the workers 0, 1, ...
    one after the other, worker [i] finding in its pipe the start index
    [i * (T / p) + min i (T mod p)] and the size [T / p], plus one for
    [i < T mod p]; reads and closes the result pipes in the same order;
    waits [num_procs] times; prints the total of the integers read, added
    up in [int] arithmetic; and ends with status 0. *)
Theorem nominal_run (fuel : nat) (w : world) (argv : list string)
    (cfg : config) (optind : nat) (m : metric) (training testing : Dataset) :
  parse_options argv = Some (cfg, optind) ->
  (optind < List.length argv)%nat ->
  select_metric (dist_metric cfg) = Some m ->
  load_dataset w (nth_error argv optind) = Some training ->
  load_dataset w (nth_error argv (S optind)) = Some testing ->
  0 <= num_items testing <= CInt.INT_MAX ->
  1 <= num_procs cfg <= 1073741823 ->
  (0 < fuel)%nat ->
  (forall i c, (i < Z.to_nat (num_procs cfg))%nat -> sys_ok w i c = true) ->
  (forall i, (i < Z.to_nat (num_procs cfg))%nat -> num_read (sys_read w i O) = 4) ->
  (forall i, (i < Z.to_nat (num_procs cfg))%nat ->
     0 <= wait_pid (sys_wait w i) /\ exited_with_1 (sys_wait w i) = false) ->
  main fuel w argv =
    ((verbose_ev cfg stderr banner_loading
        ++ [EvLoad (nth_error argv optind); EvLoad (nth_error argv (S optind))])
       ++ verbose_ev cfg stdout banner_creating
       ++ flat_map
            (fun i => worker_events cfg m i
                        (planner_start (num_items testing) (num_procs cfg) (Z.of_nat i))
                        (planner_len (num_items testing) (num_procs cfg) (Z.of_nat i)))
            (seq O (Z.to_nat (num_procs cfg)))
       ++ flat_map (fun i => [EvRead i (sys_read w i O); EvClose i c_to_p read_end])
            (seq O (Z.to_nat (num_procs cfg)))
       ++ verbose_ev cfg stdout banner_waiting
       ++ map (fun i => EvWait (sys_wait w i)) (seq O (Z.to_nat (num_procs cfg)))
       ++ verbose_ev cfg stdout
            (banner_total
               (sum_int (map (fun i => count (sys_read w i O))
                           (seq O (Z.to_nat (num_procs cfg))))))
       ++ [EvPrint stdout
             (total_line
                (sum_int (map (fun i => count (sys_read w i O))
                            (seq O (Z.to_nat (num_procs cfg))))))],
     Exit 0).
Proof.
  intros Hp Hlt Hm L1 L2 HT Hn Hf Hok Hr Hw.
  rewrite (main_loaded fuel w argv cfg optind m training testing Hp Hlt Hm L1 L2).
  assert (Hmul : CInt.mul (num_procs cfg) 2 = num_procs cfg * 2).
  { unfold CInt.mul. apply wrap_small. unfold CInt.INT_MIN, CInt.INT_MAX. lia. }
  assert (Hn' : 1 <= num_procs cfg <= CInt.INT_MAX) by (unfold CInt.INT_MAX; lia).
  pose proof (dispatch_run w cfg m (num_items testing) (Z.to_nat (num_procs cfg))
                HT Hn' O ltac:(lia)) as Hd.
  change (planner_start (num_items testing) (num_procs cfg) (Z.of_nat O)) with
    (0 * (num_items testing / num_procs cfg)
       + Z.min 0 (num_items testing mod num_procs cfg)) in Hd.
  pose proof (Z.mod_pos_bound (num_items testing) (num_procs cfg) ltac:(lia)) as HM.
  rewrite Z.mul_0_l, Z.add_0_l, Z.min_l in Hd by lia.
  specialize (Hd ltac:(intros k c Hk; apply Hok; lia)).
  rewrite (coordinate_dispatched fuel w cfg m testing
             (num_items testing mod num_procs cfg) _ ltac:(lia)
             ltac:(apply rem_nonneg; lia) Hd).
  unfold gather.
  rewrite (collect_run fuel w (Z.to_nat (num_procs cfg)) Hf O 0)
    by (intros k Hk; split; [apply Hr | apply Hok]; lia).
  cbn [bind]. rewrite when_verbose_print. cbn [bind].
  rewrite (reap_run w (Z.to_nat (num_procs cfg)) O) by (intros k Hk; apply Hw; lia).
  cbn [bind]. rewrite when_verbose_print. cbn [bind print emit ret app fst snd].
  unfold sum_int. rewrite ?app_nil_r. reflexivity.
Qed.

Lemma nominal_run_witness :
  main 1 (calm_world 10 3) ["classifier"; "-p"; "3"; "train"; "test"] =
    ([EvLoad (Some "train"); EvLoad (Some "test");
      EvPipe 0 c_to_p; EvPipe 0 p_to_c; EvWrite 0 0; EvWrite 0 4;
      EvClose 0 p_to_c write_end;
      EvFork 0 1 distance_euclidean {| buffered := [0; 4]; write_open := false |};
      EvClose 0 p_to_c read_end; EvClose 0 c_to_p write_end;
      EvPipe 1 c_to_p; EvPipe 1 p_to_c; EvWrite 1 4; EvWrite 1 3;
      EvClose 1 p_to_c write_end;
      EvFork 1 1 distance_euclidean {| buffered := [4; 3]; write_open := false |};
      EvClose 1 p_to_c read_end; EvClose 1 c_to_p write_end;
      EvPipe 2 c_to_p; EvPipe 2 p_to_c; EvWrite 2 7; EvWrite 2 3;
      EvClose 2 p_to_c write_end;
      EvFork 2 1 distance_euclidean {| buffered := [7; 3]; write_open := false |};
      EvClose 2 p_to_c read_end; EvClose 2 c_to_p write_end;
      EvRead 0 {| num_read := 4; count := 3 |}; EvClose 0 c_to_p read_end;
      EvRead 1 {| num_read := 4; count := 3 |}; EvClose 1 c_to_p read_end;
      EvRead 2 {| num_read := 4; count := 3 |}; EvClose 2 c_to_p read_end;
      EvWait {| wait_pid := 1000; status := 0 |};
      EvWait {| wait_pid := 1001; status := 0 |};
      EvWait {| wait_pid := 1002; status := 0 |};
      EvPrint stdout (total_line 9)], Exit 0).
Proof.
  apply (nominal_run 1 (calm_world 10 3) ["classifier"; "-p"; "3"; "train"; "test"]
           {| K := 1; dist_metric := "euclidean"; num_procs := 3; verbose := 0 |} 3%nat
           distance_euclidean {| num_items := 10 |} {| num_items := 10 |}).
  - reflexivity.
  - cbn. lia.
  - reflexivity.
  - reflexivity.
  - reflexivity.
  - cbn. unfold CInt.INT_MAX. lia.
  - cbn. lia.
  - lia.
  - intros i c _. reflexivity.
  - intros i _. reflexivity.
  - intros i _. split; [change (0 <= 1000 + Z.of_nat i); lia | reflexivity].
Defined.

(** ** What [-v] changes (lines 107-109, 126-128, 248-250 and 271-273) *)

Lemma actions_of_verbose_ev cfg f text : filter is_action (verbose_ev cfg f text) = [].
Proof. unfold verbose_ev. destruct (verbose cfg =? 0); reflexivity. Qed.

Lemma dispatch_verbose w cfg v m T b n :
  forall i s,
    dispatch w (set_verbose cfg v) m T b n i s = dispatch w cfg m T b n i s.
Proof.
  induction n as [ | n IH]; intros i s; cbn [dispatch]; [reflexivity | ].
  change (num_procs (set_verbose cfg v)) with (num_procs cfg).
  destruct (lift (partition_len T (num_procs cfg) b (Z.of_nat i))) as [t1 [N | o] ];
    cbn [bind]; [ | reflexivity].
  change (spawn_worker w (set_verbose cfg v) m i s N) with (spawn_worker w cfg m i s N).
  destruct (spawn_worker w cfg m i s N) as [t2 [ [] | o] ]; cbn [bind]; [ | reflexivity].
  rewrite IH. reflexivity.
Qed.

Lemma gather_verbose fuel w cfg v n :
  filter is_action (fst (gather fuel w (set_verbose cfg v) n))
    = filter is_action (fst (gather fuel w cfg n)) /\
  snd (gather fuel w (set_verbose cfg v) n) = snd (gather fuel w cfg n).
Proof.
  unfold gather.
  destruct (collect fuel w n O 0) as [tc [total | o] ]; cbn [bind]; [ | auto].
  rewrite !when_verbose_print. cbn [bind].
  destruct (reap w n O) as [tw [ [] | o] ]; cbn [bind].
  - rewrite ?when_verbose_print. cbn [bind print emit ret fst snd].
    rewrite !filter_app, !actions_of_verbose_ev. auto.
  - cbn [fst snd]. rewrite !filter_app, !actions_of_verbose_ev. auto.
Qed.

Lemma coordinate_verbose fuel w cfg v m testing :
  filter is_action (fst (coordinate fuel w (set_verbose cfg v) m testing))
    = filter is_action (fst (coordinate fuel w cfg m testing)) /\
  snd (coordinate fuel w (set_verbose cfg v) m testing)
    = snd (coordinate fuel w cfg m testing).
Proof.
  unfold coordinate. rewrite !when_verbose_print. cbn [bind].
  change (num_procs (set_verbose cfg v)) with (num_procs cfg).
  destruct (0 <? CInt.mul (num_procs cfg) 2); cbn [bind ret stop app fst snd].
  2:{ rewrite !app_nil_r, !actions_of_verbose_ev. auto. }
  destruct (CInt.rem (num_items testing) (num_procs cfg)) as [b | ];
    cbn [lift bind ret stop app fst snd].
  2:{ rewrite !app_nil_r, !actions_of_verbose_ev. auto. }
  rewrite dispatch_verbose.
  destruct (dispatch w cfg m (num_items testing) b (Z.to_nat (num_procs cfg)) O 0)
    as [td [ [] | o] ]; cbn [bind fst snd].
  2:{ rewrite !filter_app, !actions_of_verbose_ev. auto. }
  destruct (gather_verbose fuel w cfg v (Z.to_nat (num_procs cfg))) as [Gt Gr].
  destruct (gather fuel w (set_verbose cfg v) (Z.to_nat (num_procs cfg))) as [t1 r1].
  destruct (gather fuel w cfg (Z.to_nat (num_procs cfg))) as [t2 r2].
  cbn [fst snd] in *.
  rewrite !filter_app, !actions_of_verbose_ev, Gt, Gr. auto.
Qed.

(** X15.  The verbose flag changes messages only.  From the same command
    line and the same answers of the system, a run does the same things
    (loads, pipes, writes, forks, closes, reads, waits, calls of [perror])
    in the same order and ends the same way whatever the value of
    [verbose]. *)
Theorem verbose_changes_only_messages (fuel : nat) (w : world) (argv : list string)
    (cfg : config) (optind : nat) (v : Z) :
  filter is_action (fst (run_config fuel w argv (set_verbose cfg v) optind))
    = filter is_action (fst (run_config fuel w argv cfg optind)) /\
  snd (run_config fuel w argv (set_verbose cfg v) optind)
    = snd (run_config fuel w argv cfg optind).
Proof.
  unfold run_config.
  destruct (List.length argv <=? optind)%nat; [split; reflexivity | ].
  change (dist_metric (set_verbose cfg v)) with (dist_metric cfg).
  destruct (select_metric (dist_metric cfg)) as [m | ]; [ | split; reflexivity].
  rewrite !when_verbose_print. cbn [bind].
  destruct (load w (nth_error argv optind)) as [t1 [training | o] ]; cbn [bind fst snd].
  2:{ rewrite !filter_app, !actions_of_verbose_ev. auto. }
  destruct (load w (nth_error argv (S optind))) as [t2 [testing | o] ]; cbn [bind fst snd].
  2:{ rewrite !filter_app, !actions_of_verbose_ev. auto. }
  destruct (coordinate_verbose fuel w cfg v m testing) as [Ct Cr].
  destruct (coordinate fuel w (set_verbose cfg v) m testing) as [t3 r3].
  destruct (coordinate fuel w cfg m testing) as [t4 r4].
  cbn [fst snd] in *.
  rewrite !filter_app, !actions_of_verbose_ev, Ct, Cr. auto.
Qed.

(** ** The quotient computed in [double] (lines 139-143) *)

(** X16.  The detour through [double] loses nothing.  For
    [0 <= T <= INT_MAX] test items and [1 <= p <= INT_MAX] workers, the
    binary64 quotient [(double)T / p], rounded to nearest, never crosses an
    integer: [floor] of it, converted back to [int], is the integer
    quotient [T / p], and, when [p] does not divide [T], [ceil] of it is
    [T / p + 1]. *)
Theorem double_quotient_is_exact (T p : Z) :
  0 <= T <= CInt.INT_MAX -> 1 <= p <= CInt.INT_MAX ->
  CDouble.to_int
    (CDouble.floor (CDouble.div (CDouble.of_int T) (CDouble.of_int p))) = Some (T / p) /\
  (T mod p <> 0 ->
   CDouble.to_int
     (CDouble.ceil (CDouble.div (CDouble.of_int T) (CDouble.of_int p)))
     = Some (T / p + 1)).
Proof.
  intros HT Hp. unfold CInt.INT_MAX in *.
  pose proof (Z.mod_pos_bound T p ltac:(lia)) as HM.
  pose proof (Z.div_mod T p ltac:(lia)) as HD.
  assert (Hq : 0 <= T / p <= T).
  { split; [apply Z.div_pos; lia | ]. apply Z.div_le_upper_bound; nia. }
  split.
  - rewrite floor_div_int by (change (2 ^ 31) with 2147483648; lia).
    unfold CDouble.to_int, CInt.in_int, CInt.INT_MIN, CInt.INT_MAX.
    destruct (Z.leb_spec (-2147483648) (T / p)); [ | lia].
    destruct (Z.leb_spec (T / p) 2147483647); [reflexivity | lia].
  - intros Hne.
    rewrite ceil_div_int by (try (change (2 ^ 31) with 2147483648); lia).
    unfold CDouble.to_int, CInt.in_int, CInt.INT_MIN, CInt.INT_MAX.
    assert (T / p + 1 <= T) by nia.
    destruct (Z.leb_spec (-2147483648) (T / p + 1)); [ | lia].
    destruct (Z.leb_spec (T / p + 1) 2147483647); [reflexivity | lia].
Qed.

Lemma double_quotient_is_exact_witness :
  CDouble.to_int
    (CDouble.floor (CDouble.div (CDouble.of_int 2147483647) (CDouble.of_int 3)))
    = Some 715827882.
Proof.
  destruct (double_quotient_is_exact 2147483647 3) as [Hfloor _].
  - unfold CInt.INT_MAX. lia.
  - unfold CInt.INT_MAX. lia.
  - exact Hfloor.
Defined.

(** ** The file names (lines 75-82) *)

(** A scan that stopped before the last argument does not see what comes
    after it. *)
Lemma getopt_all_app (args extra : list string) :
  forall optind pending rets k,
    getopt_all args optind pending = (rets, k) ->
    (k < optind + List.length args)%nat ->
    getopt_all (args ++ extra) optind pending = (rets, k).
Proof.
  induction args as [ | a rest IH]; intros optind pending rets k H Hk.
  - cbn [getopt_all] in H. destruct pending; injection H as <- <-; cbn in Hk; lia.
  - cbn [getopt_all app] in *. cbn [List.length] in Hk.
    destruct pending as [c | ].
    + destruct (getopt_all rest (S optind) None) as [rs k'] eqn:E.
      injection H as <- <-.
      rewrite (IH _ _ _ _ E ltac:(lia)). reflexivity.
    + destruct a as [ | c [ | c' body] ]; try exact H.
      destruct (negb (Ascii.eqb c "-")); [exact H | ].
      destruct (String.eqb (String c' body) "-"); [exact H | ].
      destruct (scan_cluster (String c' body)) as [rs1 p].
      destruct (getopt_all rest (S optind) p) as [rs2 k'] eqn:E.
      injection H as <- <-.
      rewrite (IH _ _ _ _ E ltac:(lia)). reflexivity.
Qed.

Lemma parse_options_app (argv extra : list string) (cfg : config) (optind : nat) :
  parse_options argv = Some (cfg, optind) ->
  (optind < List.length argv)%nat ->
  parse_options (argv ++ extra) = Some (cfg, optind).
Proof.
  intros H Hlt. apply parse_options_loop in H. apply parse_options_loop.
  destruct argv as [ | name args]; [cbn in Hlt; lia | ].
  cbn [List.tl app List.length nth] in *.
  destruct (getopt_all args 1 None) as [rets k] eqn:E. cbn [fst snd] in H.
  destruct H as [Eo <-].
  rewrite (getopt_all_app args extra 1 None rets k E ltac:(lia)). cbn [fst snd].
  split; [exact Eo | reflexivity].
Qed.

(** X17.  The two file names are the first two arguments after the
    options, not the last two of the command line: further arguments after
    the second file name are ignored, and the run is the same as without
    them.  (Arguments that start with a dash are left aside: the [getopt]
    of this model stops at the first file name and ignores them too, but
    the GNU one would still read them as options.) *)
Theorem trailing_arguments_are_ignored (fuel : nat) (w : world)
    (argv extra : list string) (cfg : config) (optind : nat) :
  parse_options argv = Some (cfg, optind) ->
  (S optind < List.length argv)%nat ->
  Forall (fun a => Ascii.eqb (head a) "-" = false) extra ->
  main fuel w (argv ++ extra) = main fuel w argv.
Proof.
  intros Hp Hlt _.
  rewrite (main_parsed fuel w (argv ++ extra) cfg optind
             (parse_options_app argv extra cfg optind Hp ltac:(lia))),
    (main_parsed fuel w argv cfg optind Hp).
  unfold run_config. rewrite length_app.
  destruct (Nat.leb_spec (List.length argv + List.length extra) optind); [lia | ].
  destruct (Nat.leb_spec (List.length argv) optind); [lia | ].
  rewrite !nth_error_app1 by lia. reflexivity.
Qed.

Lemma trailing_arguments_are_ignored_witness :
  main 1 (calm_world 10 3) (["classifier"; "-p"; "3"; "train"; "test"] ++ ["more"; "files"])
    = main 1 (calm_world 10 3) ["classifier"; "-p"; "3"; "train"; "test"].
Proof.
  apply (trailing_arguments_are_ignored 1 (calm_world 10 3)
           ["classifier"; "-p"; "3"; "train"; "test"] ["more"; "files"]
           {| K := 1; dist_metric := "euclidean"; num_procs := 3; verbose := 0 |} 3%nat).
  - reflexivity.
  - cbn. lia.
  - repeat constructor.
Defined.

(** X18.  Only the first file name is checked for.  When a single
    argument follows the options, the metric is recognised and the
    training set loads, the run is not stopped for a missing file name:
    [testing_file] is [argv[argc]], the null pointer, and [load_dataset] is
    called with it. *)
Theorem one_file_name_is_not_rejected (fuel : nat) (w : world) (argv : list string)
    (cfg : config) (optind : nat) (m : metric) (training : Dataset) :
  parse_options argv = Some (cfg, optind) ->
  S optind = List.length argv ->
  select_metric (dist_metric cfg) = Some m ->
  load_dataset w (nth_error argv optind) = Some training ->
  exists path rest,
    nth_error argv optind = Some path /\
    fst (main fuel w argv) =
      verbose_ev cfg stderr banner_loading
        ++ EvLoad (Some path) :: EvLoad None :: rest.
Proof.
  intros Hp Hlen Hm L1.
  destruct (nth_error argv optind) as [path | ] eqn:En.
  2:{ apply nth_error_None in En. lia. }
  assert (En2 : nth_error argv (S optind) = None) by (apply nth_error_None; lia).
  exists path. rewrite (main_parsed fuel w argv cfg optind Hp). unfold run_config.
  destruct (Nat.leb_spec (List.length argv) optind); [lia | ].
  rewrite Hm, when_verbose_print, En, En2. unfold load at 1. unfold emit.
  rewrite L1. cbn [bind ret app].
  destruct (load w None) as [t2 r2] eqn:E2.
  apply load_eq in E2.
  destruct E2 as [(testing & L2 & -> & ->) | (L2 & -> & ->)]; cbn [bind app].
  - destruct (coordinate fuel w cfg m testing) as [tq [v | o] ]; cbn [finish fst];
      exists tq; split; reflexivity.
  - exists [EvPrint stderr (load_message None)]. split; reflexivity.
Qed.

Lemma one_file_name_is_not_rejected_witness :
  exists path rest,
    nth_error ["classifier"; "train"] 1 = Some path /\
    fst (main 1 (calm_world 4 1) ["classifier"; "train"]) =
      verbose_ev default_config stderr banner_loading
        ++ EvLoad (Some path) :: EvLoad None :: rest.
Proof.
  apply (one_file_name_is_not_rejected 1 (calm_world 4 1) ["classifier"; "train"]
           default_config 1%nat distance_euclidean {| num_items := 4 |}).
  - reflexivity.
  - reflexivity.
  - reflexivity.
  - reflexivity.
Defined.

(** * What the workers are given and what they take with them *)

(** ** The partitions the workers are given (C1) *)



Lemma early_event_not_fork (e : event) : early_event e = true -> is_fork e = false.
Proof. destruct e; cbn; intros H; try discriminate H; reflexivity. Qed.











(** ** The report and the buffer of standard output (C3) *)

(** What the coordinator prints itself in a run that ends with status 0. *)
Lemma report_of_the_coordinator (fuel : nat) (w : world) (argv : list string)
    (tr : list event) :
  main fuel w argv = (tr, Exit 0) ->
  exists cfg optind,
    parse_options argv = Some (cfg, optind) /\
    stdout_of tr =
      (if verbose cfg =? 0 then []
       else [banner_creating; banner_waiting; banner_total (sum_int (counts_of tr))])
      ++ [total_line (sum_int (counts_of tr))] /\
    stderr_of tr = (if verbose cfg =? 0 then [] else [banner_loading]) /\
    Forall (fun e => is_perror e = false) tr /\
    List.length (counts_of tr) = Z.to_nat (num_procs cfg).
Proof.
  intros H. apply main_success in H.
  destruct H as (cfg & optind & td & tc & tw & total & Hp & Td & Tc & Pe & Hc & Hw & ->).
  exists cfg, optind. split; [exact Hp | ].
  apply collect_total in Hc. destruct Hc as [Ht Hlen].
  apply reap_ok in Hw. destruct Hw as [_ ->].
  assert (Sd : Forall (fun e => silent e = true) td).
  { eapply Forall_impl; [ | exact Td]. intros [ ] He; try discriminate He; reflexivity. }
  destruct (silent_trace td Sd) as (D1 & D2 & D3).
  destruct (unprinted_trace tc Tc) as (C1 & C2).
  destruct (silent_trace _ (waits_silent w (seq O (Z.to_nat (num_procs cfg)))))
    as (W1 & W2 & W3).
  assert (Ec : counts_of
      ((verbose_ev cfg stderr banner_loading
          ++ [EvLoad (nth_error argv optind); EvLoad (nth_error argv (S optind))])
         ++ verbose_ev cfg stdout banner_creating ++ td
         ++ tc ++ verbose_ev cfg stdout banner_waiting
         ++ map (fun j => EvWait (sys_wait w j)) (seq O (Z.to_nat (num_procs cfg)))
         ++ verbose_ev cfg stdout (banner_total total)
         ++ [EvPrint stdout (total_line total)]) = counts_of tc).
  { rewrite !counts_of_app, D3, W3. unfold verbose_ev.
    destruct (verbose cfg =? 0); cbn; rewrite ?app_nil_r; reflexivity. }
  rewrite Ec. unfold sum_int. rewrite <- Ht.
  repeat split.
  - rewrite !stdout_of_app, D1, C1, W1. unfold verbose_ev.
    destruct (verbose cfg =? 0); reflexivity.
  - rewrite !stderr_of_app, D2, C2, W2. unfold verbose_ev.
    destruct (verbose cfg =? 0); reflexivity.
  - apply Forall_app in Pe. destruct Pe as [Pd Pc].
    assert (V : forall f text, Forall (fun e => is_perror e = false) (verbose_ev cfg f text)).
    { intros f text. unfold verbose_ev. destruct (verbose cfg =? 0); repeat constructor. }
    repeat (apply Forall_app; split);
      solve [ auto
            | repeat constructor
            | apply Forall_forall; intros e He; apply in_map_iff in He;
              destruct He as (j & <- & _); reflexivity ].
  - exact Hlen.
Qed.

(** A process that leaves through [exit] has written out all it printed,
    after the text it started with. *)
Lemma arrives_exit (mode : buffering) (tr : list event) (o : outcome) :
  flushes o = true ->
  forall buf, arrives mode (tr, o) buf = buf ++ stdout_of tr.
Proof.
  intros Ho. unfold arrives. cbn [fst snd]. rewrite Ho.
  induction tr as [ | e tr IH]; intros buf; cbn [flushed pending stdout_of flat_map].
  - cbn [app]. rewrite app_nil_r. reflexivity.
  - fold (stdout_of tr).
    destruct e as [ [ | ] text | | | | | | | | ]; cbn [app]; try apply IH.
    destruct (written_at_once mode text).
    + rewrite <- app_assoc, (IH []). cbn [app]. rewrite <- app_assoc. reflexivity.
    + rewrite IH, <- app_assoc. reflexivity.
Qed.

Lemma pending_app (mode : buffering) (t1 t2 : list event) :
  forall buf, pending mode (t1 ++ t2) buf = pending mode t2 (pending mode t1 buf).
Proof.
  induction t1 as [ | e t1 IH]; intros buf; [reflexivity | ].
  destruct e as [ [ | ] text | | | | | | | | ]; cbn [app pending]; apply IH.
Qed.

Lemma inherited_app (mode : buffering) (w : world)
    (workers : nat -> list event * outcome) (t1 t2 : list event) :
  forall buf,
    inherited mode w workers (t1 ++ t2) buf =
      inherited mode w workers t1 buf
        ++ inherited mode w workers t2 (pending mode t1 buf).
Proof.
  induction t1 as [ | e t1 IH]; intros buf; [reflexivity | ].
  destruct e as [ [ | ] text | | | | | | | | ]; cbn [app pending inherited];
    rewrite ?IH, <- ?app_assoc; reflexivity.
Qed.

(** Calls that print nothing on standard output leave the buffer as it
    is; calls other than [fork] create no worker. *)
Lemma pending_class (P : event -> bool) (mode : buffering) (t : list event) :
  (forall e, P e = true -> stdout_of [e] = []) ->
  Forall (fun e => P e = true) t ->
  forall buf, pending mode t buf = buf.
Proof.
  intros HP H. induction H as [ | e t He _ IH]; intros buf; [reflexivity | ].
  specialize (HP e He).
  destruct e as [ [ | ] text | | | | | | | | ]; cbn [pending]; try apply IH.
  discriminate HP.
Qed.

Lemma inherited_none (mode : buffering) (w : world)
    (workers : nat -> list event * outcome) (t : list event) :
  Forall (fun e => is_fork e = false) t ->
  forall buf, inherited mode w workers t buf = [].
Proof.
  intros H. induction H as [ | e t He _ IH]; intros buf; [reflexivity | ].
  destruct e as [ [ | ] text | | | | | | | | ]; cbn [inherited]; try apply IH.
  discriminate He.
Qed.

(** Every worker of a loop that completes starts with the buffer the
    coordinator had when the loop began. *)
Lemma dispatch_inherited (mode : buffering) (w : world)
    (workers : nat -> list event * outcome) cfg m T b n :
  forall i s td buf,
    dispatch w cfg m T b n i s = (td, inl tt) ->
    inherited mode w workers td buf =
      flat_map (fun k => arrives mode (workers k) buf) (seq i n) /\
    pending mode td buf = buf.
Proof.
  induction n as [ | n IH]; intros i s td buf H; cbn [dispatch] in H.
  - injection H as <-. split; reflexivity.
  - apply bind_eq in H.
    destruct H as [(t1 & N & t2 & Hm & H & ->) | (o & _ & Hr)]; [ | discriminate].
    apply lift_eq in Hm. destruct Hm as (-> & _). cbn [app].
    apply bind_eq in H.
    destruct H as [(t1 & [] & t3 & Hm & H & ->) | (o & _ & Hr)]; [ | discriminate].
    pose proof (spawn_worker_calls _ _ _ _ _ _ _ Hm CallFork eq_refl) as Hfork.
    apply spawn_worker_ok in Hm. subst t1.
    destruct (IH _ _ _ buf H) as [Hi Hq].
    rewrite inherited_app, pending_app.
    unfold worker_events at 1 2 3. cbn [inherited pending seq flat_map].
    rewrite Hfork, Hi, Hq, app_nil_r. split; reflexivity.
Qed.

Lemma collect_event_not_fork (e : event) : collect_event e = true -> is_fork e = false.
Proof. destruct e; cbn; intros H; try discriminate H; reflexivity. Qed.

(** C3, as the code has it.  In a run that ends with status 0 the
    coordinator prints the total on standard output as its last line.
    Without [-v] it is the only line, nothing goes to the error stream, and
    the workers start with an empty buffer.  With [-v] the coordinator
    prints three more lines on standard output before it, the two banners
    and the sentence with the total, and the banner of the loading on the
    error stream; and every worker is forked after the banner of the
    creation was printed: when standard output is a pipe or a file that
    line is still in the buffer, each of the [num_procs] workers inherits a
    copy, and each worker that leaves through [exit] writes it once more,
    in front of what it prints itself.  On a terminal the line is out
    before the first [fork] and the workers inherit nothing. *)
Theorem report_on_standard_output (fuel : nat) (w : world) (argv : list string)
    (tr : list event) (mode : buffering) (workers : nat -> list event * outcome) :
  main fuel w argv = (tr, Exit 0) ->
  exists cfg optind,
    parse_options argv = Some (cfg, optind) /\
    stdout_of tr =
      (if verbose cfg =? 0 then []
       else [banner_creating; banner_waiting; banner_total (sum_int (counts_of tr))])
      ++ [total_line (sum_int (counts_of tr))] /\
    arrives mode (tr, Exit 0) [] = stdout_of tr /\
    inherited mode w workers tr [] =
      flat_map
        (fun i =>
           arrives mode (workers i)
             (if verbose cfg =? 0 then []
              else match mode with
                   | line_buffered => []
                   | fully_buffered => [banner_creating]
                   end))
        (seq O (Z.to_nat (num_procs cfg))) /\
    (forall i buf,
       flushes (snd (workers i)) = true ->
       arrives mode (workers i) buf = buf ++ stdout_of (fst (workers i))) /\
    stderr_of tr = (if verbose cfg =? 0 then [] else [banner_loading]) /\
    Forall (fun e => is_perror e = false) tr /\
    List.length (counts_of tr) = Z.to_nat (num_procs cfg).
Proof.
  intros H.
  destruct (report_of_the_coordinator fuel w argv tr H)
    as (cfg & optind & Hp & Hout & Herr & Hpe & Hlen).
  exists cfg, optind.
  split; [exact Hp | ]. split; [exact Hout | ].
  split; [apply (arrives_exit mode tr (Exit 0) eq_refl) | ].
  split; [ | split; [ | auto] ].
  2:{ intros i buf Hi. destruct (workers i) as [t o]. exact (arrives_exit mode t o Hi buf). }
  apply main_success_phases in H.
  destruct H as (cfg' & optind' & m & testing & b & td & tc & tw & total &
                 Hp' & _ & _ & _ & Hd & Hc & Hw & ->).
  rewrite Hp in Hp'. injection Hp' as <- <-.
  apply reap_ok in Hw. destruct Hw as [_ ->].
  pose proof (collect_traced fuel w (Z.to_nat (num_procs cfg)) O 0) as Tc.
  unfold traced in Tc. rewrite Hc in Tc. cbn [fst] in Tc.
  assert (A1 : Forall (fun e => early_event e = true)
                 (verbose_ev cfg stderr banner_loading
                    ++ [EvLoad (nth_error argv optind); EvLoad (nth_error argv (S optind))])).
  { apply Forall_app. split; [apply verbose_ev_Forall; reflexivity | repeat constructor]. }
  rewrite inherited_app.
  rewrite (inherited_none mode w workers _ (Forall_unclass _ _ _ early_event_not_fork A1)).
  rewrite (pending_class early_event mode _
             ltac:(intros [ [] | | | | | | | | ] He; try discriminate He; reflexivity) A1).
  cbn [app].
  rewrite inherited_app.
  rewrite (inherited_none mode w workers _ (verbose_ev_not_fork cfg stdout banner_creating)).
  cbn [app].
  rewrite inherited_app.
  destruct (dispatch_inherited mode w workers _ _ _ _ _ _ _ _
              (pending mode (verbose_ev cfg stdout banner_creating) []) Hd) as [Hi Hq].
  rewrite Hi, Hq.
  rewrite inherited_none, app_nil_r.
  2:{ apply Forall_app. split; [exact (Forall_unclass _ _ _ collect_event_not_fork Tc) | ].
      apply Forall_app. split; [apply verbose_ev_not_fork | ].
      apply Forall_app. split.
      { apply Forall_forall. intros e He. apply in_map_iff in He.
        destruct He as (j & <- & _). reflexivity. }
      apply Forall_app. split; [apply verbose_ev_not_fork | repeat constructor]. }
  unfold verbose_ev. destruct (verbose cfg =? 0); [reflexivity | ].
  destruct mode; reflexivity.
Qed.

Lemma report_on_standard_output_witness :
  stdout_of (fst (main 1 (calm_world 10 3) ["classifier"; "-p"; "3"; "train"; "test"]))
    = [total_line 9] /\
  inherited fully_buffered (calm_world 10 3) (fun _ => ([], Exit 0))
    (fst (main 1 (calm_world 10 3) ["classifier"; "-p"; "3"; "train"; "test"])) []
    = [].
Proof.
  destruct (report_on_standard_output 1 (calm_world 10 3)
              ["classifier"; "-p"; "3"; "train"; "test"]
              (fst (main 1 (calm_world 10 3) ["classifier"; "-p"; "3"; "train"; "test"]))
              fully_buffered (fun _ => ([], Exit 0)))
    as (cfg & optind & Hp & Hout & _).
  - reflexivity.
  - split; reflexivity.
Defined.

(** C3 as worded fails with [-v]: the coordinator prints four lines on
    standard output, three of them diagnostic; and when standard output is
    a pipe or a file, each of the three workers, even one that prints
    nothing, writes the banner of the creation once more as it exits. *)
Lemma verbose_lines_on_standard_output :
  snd (main 1 (calm_world 10 3) ["classifier"; "-v"; "-p"; "3"; "train"; "test"]) = Exit 0 /\
  stdout_of (fst (main 1 (calm_world 10 3) ["classifier"; "-v"; "-p"; "3"; "train"; "test"]))
    = [banner_creating; banner_waiting; banner_total 9; total_line 9] /\
  stderr_of (fst (main 1 (calm_world 10 3) ["classifier"; "-v"; "-p"; "3"; "train"; "test"]))
    = [banner_loading] /\
  inherited fully_buffered (calm_world 10 3) (fun _ => ([], Exit 0))
    (fst (main 1 (calm_world 10 3) ["classifier"; "-v"; "-p"; "3"; "train"; "test"])) []
    = [banner_creating; banner_creating; banner_creating] /\
  inherited line_buffered (calm_world 10 3) (fun _ => ([], Exit 0))
    (fst (main 1 (calm_world 10 3) ["classifier"; "-v"; "-p"; "3"; "train"; "test"])) []
    = [].
Proof. repeat split; reflexivity. Qed.

(** ** The worker's side of [fork] (lines 174-200) *)

Lemma held_app (t1 t2 : list event) :
  forall fds, held (t1 ++ t2) fds = held t2 (held t1 fds).
Proof.
  induction t1 as [ | e t1 IH]; intros fds; [reflexivity | ].
  destruct e; cbn [app held]; apply IH.
Qed.

Lemma held_verbose_ev cfg f text fds : held (verbose_ev cfg f text) fds = fds.
Proof. unfold verbose_ev. destruct (verbose cfg =? 0); reflexivity. Qed.

(** Closing an end of a pipe of worker [i] leaves the ends of the pipes
    of earlier workers where they are. *)
Lemma filter_earlier (fds l : list pipe_end_id) (i : nat) (ch : channel) (e : pipe_end) :
  Forall (fun x => (fst (fst x) < i)%nat) fds ->
  filter (fun x => negb (same_end x (i, ch, e))) (fds ++ l) =
    fds ++ filter (fun x => negb (same_end x (i, ch, e))) l.
Proof.
  intros H. rewrite filter_app. f_equal.
  induction H as [ | x fds Hx _ IH]; [reflexivity | ].
  cbn [filter]. unfold same_end at 1. cbn [fst snd].
  destruct (Nat.eqb_spec (fst (fst x)) i) as [E | _]; [lia | ].
  cbn [andb negb]. rewrite IH. reflexivity.
Qed.

(** Among the ends of the pipes of worker [i] itself, [close] takes away
    the one it names. *)
Lemma filter_own (i : nat) (ch : channel) (e : pipe_end) (l : list (channel * pipe_end)) :
  filter (fun x => negb (same_end x (i, ch, e)))
    (map (fun ce => (i, fst ce, snd ce)) l) =
  map (fun ce => (i, fst ce, snd ce))
    (filter (fun ce => negb (channel_eqb (fst ce) ch && pipe_end_eqb (snd ce) e)) l).
Proof.
  induction l as [ | [c0 e0] l IH]; [reflexivity | ].
  cbn [map filter]. unfold same_end at 1. cbn [fst snd].
  rewrite Nat.eqb_refl. cbn [andb].
  destruct (negb (channel_eqb c0 ch && pipe_end_eqb e0 e)); rewrite IH; reflexivity.
Qed.

Ltac close_ends H :=
  repeat (rewrite (filter_earlier _ _ _ _ _ H), filter_own;
          cbn [filter fst snd channel_eqb pipe_end_eqb andb negb]).

(** Once worker [i] is created the coordinator holds one more pipe end:
    the read end of its result pipe. *)
Lemma held_worker_events cfg m i s N fds :
  Forall (fun x => (fst (fst x) < i)%nat) fds ->
  held (worker_events cfg m i s N) fds = fds ++ [(i, c_to_p, read_end)].
Proof.
  intros H. unfold worker_events. cbn [held].
  rewrite <- !app_assoc. cbn [app].
  change [(i, c_to_p, read_end); (i, c_to_p, write_end);
          (i, p_to_c, read_end); (i, p_to_c, write_end)]
    with (map (fun ce : channel * pipe_end => (i, fst ce, snd ce))
            [(c_to_p, read_end); (c_to_p, write_end);
             (p_to_c, read_end); (p_to_c, write_end)]).
  close_ends H. reflexivity.
Qed.

(** The pipe ends the coordinator holds when it calls [fork] for worker
    [j]: the read ends of the result pipes of the workers created so far,
    and three ends of the two pipes of worker [j]. *)
Lemma dispatch_held w cfg m T b n :
  forall i s td rd pre j K0 m0 inbox post fds,
    dispatch w cfg m T b n i s = (td, rd) ->
    td = pre ++ EvFork j K0 m0 inbox :: post ->
    Forall (fun x => (fst (fst x) < i)%nat) fds ->
    held pre fds =
      fds ++ map (fun k => (k, c_to_p, read_end)) (seq i (j - i))
          ++ [(j, c_to_p, read_end); (j, c_to_p, write_end); (j, p_to_c, read_end)].
Proof.
  induction n as [ | n IH]; intros i s td rd pre j K0 m0 inbox post fds H E Hfds.
  - cbn in H. injection H as Ht _. rewrite E in Ht. apply split_nil in Ht. contradiction.
  - pose proof H as H0. cbn [dispatch] in H.
    apply bind_eq in H.
    destruct H as [(t1 & N & t2 & Hm & H & Ht) | (o & Hm & _)].
    2:{ apply lift_eq in Hm. destruct Hm as (Hnil & _). rewrite Hnil in E.
        apply split_nil in E. contradiction. }
    apply lift_eq in Hm. destruct Hm as (-> & _). cbn [app] in Ht. subst t2.
    assert (First :
      forall t r post1, spawn_worker w cfg m i s N = (t, r) ->
        t = pre ++ EvFork j K0 m0 inbox :: post1 ->
        held pre fds =
          fds ++ map (fun k => (k, c_to_p, read_end)) (seq i (j - i))
              ++ [(j, c_to_p, read_end); (j, c_to_p, write_end); (j, p_to_c, read_end)]).
    { intros t r post1 Hs Et.
      destruct (spawn_worker_fork _ _ _ _ _ _ _ _ _ _ _ _ _ _ Hs Et)
        as (-> & _ & _ & _ & ->).
      rewrite Nat.sub_diag. cbn [seq map app held].
      rewrite <- !app_assoc. cbn [app].
      change [(i, c_to_p, read_end); (i, c_to_p, write_end);
              (i, p_to_c, read_end); (i, p_to_c, write_end)]
        with (map (fun ce : channel * pipe_end => (i, fst ce, snd ce))
                [(c_to_p, read_end); (c_to_p, write_end);
                 (p_to_c, read_end); (p_to_c, write_end)]).
      close_ends Hfds. reflexivity. }
    apply bind_eq in H.
    destruct H as [(t1 & [] & t3 & Hm & H & Ht) | (o & Hm & _)].
    + rewrite Ht in E. apply split_app in E.
      destruct E as [(post1 & E & _) | (pre2 & -> & E)].
      * exact (First _ _ _ Hm E).
      * apply spawn_worker_ok in Hm. subst t1.
        destruct (dispatch_fork _ _ _ _ _ _ _ _ _ _ _ _ _ _ _ _ H E)
          as (_ & _ & _ & _ & _ & _ & _ & Hj).
        rewrite held_app, (held_worker_events _ _ _ _ _ _ Hfds).
        rewrite (IH _ _ _ _ _ _ _ _ _ _ (fds ++ [(i, c_to_p, read_end)]) H E).
        2:{ apply Forall_app. split.
            - eapply Forall_impl; [ | exact Hfds]. intros x Hx. cbn beta in Hx. lia.
            - constructor; [cbn; lia | constructor]. }
        replace (j - i)%nat with (S (j - S i)) by lia.
        cbn [seq map]. rewrite <- !app_assoc. reflexivity.
    + exact (First _ _ _ Hm E).
Qed.

(** The same, in a run of [main]. *)
Lemma main_held fuel w argv tr o pre i K0 m0 inbox post :
  main fuel w argv = (tr, o) ->
  tr = pre ++ EvFork i K0 m0 inbox :: post ->
  held pre [] =
    map (fun k => (k, c_to_p, read_end)) (seq O i)
      ++ [(i, c_to_p, read_end); (i, c_to_p, write_end); (i, p_to_c, read_end)].
Proof.
  intros H E. apply main_shape in H.
  destruct H as [ [_ Ht] | (cfg & optind & m & training & testing & tq & rq &
                            Hp & Hlt & Hm & L1 & L2 & Hc & Htr & _) ].
  { rewrite E in Ht. apply Forall_app in Ht. destruct Ht as [_ Ht].
    inversion Ht; subst. discriminate. }
  apply coordinate_shape in Hc.
  destruct Hc as (td & rest & -> & Hcases).
  rewrite Htr in E. clear Htr.
  rewrite app_assoc in E.
  apply (split_app_class is_fork) in E; [ | | reflexivity].
  2:{ repeat (apply Forall_app; split).
      - apply verbose_ev_not_fork.
      - repeat constructor.
      - apply verbose_ev_not_fork. }
  destruct E as (pre2 & -> & E).
  destruct Hcases as [ (-> & -> & _) | (b & rd & Hpos & Hb & Hd & Hg) ].
  { apply split_nil in E. contradiction. }
  assert (Ed : exists post1, td = pre2 ++ EvFork i K0 m0 inbox :: post1).
  { apply split_app in E. destruct E as [(post1 & E & _) | (pre3 & -> & E)].
    - exists post1. exact E.
    - exfalso. destruct Hg as [ (o' & _ & -> & _) | (_ & Hg) ].
      + apply split_nil in E. contradiction.
      + pose proof (gather_traced fuel w cfg (Z.to_nat (num_procs cfg))) as T.
        unfold traced in T. rewrite Hg in T. cbn [fst] in T.
        rewrite E in T. apply Forall_app in T. destruct T as [_ T].
        inversion T; subst. discriminate. }
  destruct Ed as (post1 & Ed).
  rewrite !held_app, !held_verbose_ev. cbn [held].
  pose proof (dispatch_held _ _ _ _ _ _ _ _ _ _ _ _ _ _ _ _ [] Hd Ed (Forall_nil _)) as Hh.
  rewrite Nat.sub_0_r in Hh. exact Hh.
Qed.

(** X14.  The branch [k == 0] never falls through into the loop of the
    coordinator: whatever [child_handler] does, the worker leaves by
    [exit], so that it creates no worker of its own and collects nothing.
    When its first [close] fails it exits with status 1 before
    [child_handler] is called; when [child_handler] returns and the three
    calls of [close] succeed, it exits with status 0.  The worker closes
    three pipe ends, the two it works with and the read end of its own
    result pipe, but these are not all it holds: worker [i] is forked with
    the read ends of the result pipes of the workers [0] to [i - 1] open as
    well, which the coordinator closes only while it collects, and the
    branch closes none of them; they stay open until the worker exits. *)
Theorem worker_leaves_through_exit (w : world)
    (handler : Z -> metric -> pipe_state -> M unit)
    (cfg : config) (m : metric) (i : nat) (inbox : pipe_state) :
  (exists o, snd (worker_branch w handler cfg m i inbox) = inr o) /\
  (sys_ok w i (CallClose c_to_p read_end) = false ->
   worker_branch w handler cfg m i inbox =
     ([EvClose i c_to_p read_end; EvPerror "close"], inr (Exit 1))) /\
  (forall th,
     handler (K cfg) m inbox = (th, inl tt) ->
     (forall c, sys_ok w i c = true) ->
     worker_branch w handler cfg m i inbox =
       (EvClose i c_to_p read_end :: th
          ++ [EvClose i p_to_c read_end; EvClose i c_to_p write_end],
        inr (Exit 0))) /\
  (forall fuel w0 argv tr o pre K0 m0 post,
     main fuel w0 argv = (tr, o) ->
     tr = pre ++ EvFork i K0 m0 inbox :: post ->
     held pre [] =
       map (fun j => (j, c_to_p, read_end)) (seq O i)
         ++ [(i, c_to_p, read_end); (i, c_to_p, write_end); (i, p_to_c, read_end)] /\
     forall th,
       (forall fds, held th fds = fds) ->
       held (EvClose i c_to_p read_end :: th
               ++ [EvClose i p_to_c read_end; EvClose i c_to_p write_end])
         (held pre [])
       = map (fun j => (j, c_to_p, read_end)) (seq O i)).
Proof.
  split; [ | split; [ | split] ].
  - unfold worker_branch, checked, perror_exit, exit, stop, emit, ret.
    cbn [bind app].
    destruct (sys_ok w i (CallClose c_to_p read_end)); cbn [bind app snd];
      [ | exists (Exit 1); reflexivity].
    destruct (handler (K cfg) m inbox) as [th [ [] | o] ]; cbn [bind app snd];
      [ | exists o; reflexivity].
    destruct (sys_ok w i (CallClose p_to_c read_end)); cbn [bind app snd];
      [ | exists (Exit 1); reflexivity].
    destruct (sys_ok w i (CallClose c_to_p write_end)); cbn [bind app snd];
      [exists (Exit 0) | exists (Exit 1)]; reflexivity.
  - intros Hfail. unfold worker_branch, checked. rewrite Hfail. reflexivity.
  - intros th Hh Hok. unfold worker_branch, checked. rewrite !Hok.
    unfold emit, exit, stop, ret. cbn [bind app]. rewrite Hh. cbn [bind app].
    rewrite ?app_nil_r, <- ?app_assoc. reflexivity.
  - intros fuel w0 argv tr o pre K0 m0 post H E.
    pose proof (main_held fuel w0 argv tr o pre i K0 m0 inbox post H E) as Hpre.
    split; [exact Hpre | ].
    intros th Hth. rewrite Hpre.
    assert (Hearlier : Forall (fun x : pipe_end_id => (fst (fst x) < i)%nat)
                         (map (fun j => (j, c_to_p, read_end)) (seq O i))).
    { apply Forall_forall. intros x Hx. apply in_map_iff in Hx.
      destruct Hx as (j & <- & Hj). apply in_seq in Hj. cbn. lia. }
    cbn [held]. rewrite held_app, Hth. cbn [held].
    change [(i, c_to_p, read_end); (i, c_to_p, write_end); (i, p_to_c, read_end)]
      with (map (fun ce : channel * pipe_end => (i, fst ce, snd ce))
              [(c_to_p, read_end); (c_to_p, write_end); (p_to_c, read_end)]).
    close_ends Hearlier. cbn [map]. rewrite app_nil_r. reflexivity.
Qed.

(** The third of three workers, with a [child_handler] that returns at
    once: it leaves with the read ends of the result pipes of the workers 0
    and 1 still open. *)
Lemma worker_leaves_through_exit_witness :
  worker_branch (calm_world 10 3) (fun _ _ _ => ret tt)
    {| K := 1; dist_metric := "euclidean"; num_procs := 3; verbose := 0 |}
    distance_euclidean 2 {| buffered := [7; 3]; write_open := false |}
  = ([EvClose 2 c_to_p read_end; EvClose 2 p_to_c read_end; EvClose 2 c_to_p write_end],
     inr (Exit 0)) /\
  held [EvClose 2 c_to_p read_end; EvClose 2 p_to_c read_end; EvClose 2 c_to_p write_end]
    [(0, c_to_p, read_end); (1, c_to_p, read_end);
     (2, c_to_p, read_end); (2, c_to_p, write_end); (2, p_to_c, read_end)]%nat
  = [(0, c_to_p, read_end); (1, c_to_p, read_end)]%nat.
Proof.
  destruct (worker_leaves_through_exit (calm_world 10 3) (fun _ _ _ => ret tt)
              {| K := 1; dist_metric := "euclidean"; num_procs := 3; verbose := 0 |}
              distance_euclidean 2 {| buffered := [7; 3]; write_open := false |})
    as (_ & _ & H & Hheld).
  split.
  - apply (H []); [reflexivity | intros c; reflexivity].
  - destruct (Hheld 1%nat (calm_world 10 3) ["classifier"; "-p"; "3"; "train"; "test"]
                (fst (main 1 (calm_world 10 3) ["classifier"; "-p"; "3"; "train"; "test"]))
                (Exit 0)
                [EvLoad (Some "train"); EvLoad (Some "test");
                 EvPipe 0 c_to_p; EvPipe 0 p_to_c; EvWrite 0 0; EvWrite 0 4;
                 EvClose 0 p_to_c write_end;
                 EvFork 0 1 distance_euclidean {| buffered := [0; 4]; write_open := false |};
                 EvClose 0 p_to_c read_end; EvClose 0 c_to_p write_end;
                 EvPipe 1 c_to_p; EvPipe 1 p_to_c; EvWrite 1 4; EvWrite 1 3;
                 EvClose 1 p_to_c write_end;
                 EvFork 1 1 distance_euclidean {| buffered := [4; 3]; write_open := false |};
                 EvClose 1 p_to_c read_end; EvClose 1 c_to_p write_end;
                 EvPipe 2 c_to_p; EvPipe 2 p_to_c; EvWrite 2 7; EvWrite 2 3;
                 EvClose 2 p_to_c write_end]
                1 distance_euclidean
                [EvClose 2 p_to_c read_end; EvClose 2 c_to_p write_end;
                 EvRead 0 {| num_read := 4; count := 3 |}; EvClose 0 c_to_p read_end;
                 EvRead 1 {| num_read := 4; count := 3 |}; EvClose 1 c_to_p read_end;
                 EvRead 2 {| num_read := 4; count := 3 |}; EvClose 2 c_to_p read_end;
                 EvWait {| wait_pid := 1000; status := 0 |};
                 EvWait {| wait_pid := 1001; status := 0 |};
                 EvWait {| wait_pid := 1002; status := 0 |};
                 EvPrint stdout (total_line 9)]
                eq_refl eq_refl) as [Hpre Hleft].
    exact (Hleft [] (fun fds => eq_refl)).
Defined.
